(** * Glassdoor job scraper: crawl controller and field extraction

    A shallow embedding of [get_jobs] from [dsjobs_pt1_glassdoorscraper.py].

    The browser is the only source of input.  It is modelled as data:
    a [site] maps the number of successful "next page" clicks to the
    [page] the driver then shows; a [page] lists its job links, the
    "viewed date" markers, the cookie banner and what the next button
    does; a [job_link] gives the detail [view] shown after each click
    on it.  The program is written in a small state-and-exception monad
    whose state holds the Python variables that outlive one statement,
    the driver, the CSV file and a trace of driver and logger calls.

    Python values that matter are kept as they are: the "not found"
    value is the integer [-1], scraped values are [str]; a name that
    has not been assigned yet is [None] in an [option].  A [string] is a
    sequence of characters, as a Python [str] is, not of encoded bytes:
    each [ascii] stands for one character, which limits the texts of the
    model to characters below 256.

    Of the calls that can fail, the model has the failures the source
    handles and those it raises itself, the log file that cannot be
    opened and the browser that cannot be started.  A click on an element that was found goes through: the
    exceptions a click on a job link, on a pop-up's close button or on the
    cookie button could raise besides those named in the code are not
    modelled, so "every exit" below ranges over the exits of the model.

    [logger.debug] lines that only narrate progress are left out; the
    two that mark the target being reached are kept.  [time.sleep] has
    no effect on the model. *)

From Stdlib Require Import ZArith List String Ascii Bool Lia.
From stdpp Require Import base option list gmap strings.

Local Open Scope string_scope.
Local Open Scope list_scope.
Local Open Scope Z_scope.

(** ** Python values *)

Inductive pyval :=
| PyNone
| PyInt (z : Z)
| PyStr (s : string).

(** The "not found" value assigned throughout the source: [-1]. *)
Definition missing : pyval := PyInt (-1).

Inductive exn :=
| NoSuchElementException
| ElementNotInteractableException
| ElementClickInterceptedException
| ValueError
| TypeError
| UnboundLocalError (name : string)
| OSError                           (* FileNotFoundError, PermissionError *)
| WebDriverException.

(** ** Text helpers *)

Definition newline : ascii := ascii_of_nat 10.

(** [c.split("\n", 1)] followed by the unpacking [x, y = ...]: the text
    before and after the first line break, or [None] (Python raises
    [ValueError]) when there is no line break and the split has one part. *)
Fixpoint split_once (c : string) : option (string * string) :=
  match c with
  | EmptyString => None
  | String a rest =>
      if Ascii.eqb a newline then Some (EmptyString, rest)
      else match split_once rest with
           | Some (x, y) => Some (String a x, y)
           | None => None
           end
  end.

(** [needle in hay] on [str]. *)
Fixpoint contains (needle hay : string) : bool :=
  String.prefix needle hay ||
  match hay with
  | EmptyString => false
  | String _ rest => contains needle rest
  end.

(** [l[0::2]] and [l[1::2]]. *)
Fixpoint slice_even {A} (l : list A) : list A :=
  match l with
  | a :: _ :: rest => a :: slice_even rest
  | [a] => [a]
  | [] => []
  end.

Definition slice_odd {A} (l : list A) : list A := slice_even (tail l).

(** [dict(pairs)]: keys are inserted in order, a later pair replaces an
    earlier one with the same key. *)
Definition dict (pairs : list (string * string)) : gmap string string :=
  fold_left (fun d kv => <[kv.1 := kv.2]> d) pairs ∅.

(** [d.get(key, -1)]. *)
Definition get_or_missing (d : gmap string string) (key : string) : pyval :=
  match d !! key with
  | Some v => PyStr v
  | None => missing
  end.

(** ** The browser as data *)

Inductive selector :=
| SelCookies            (* id onetrust-accept-btn-handler *)
| SelJobListing         (* class react-job-listing *)
| SelViewedDate         (* div data-test=viewedDate *)
| SelSignupPopup        (* JAModal close button *)
| SelCompanyName
| SelLocation
| SelJobTitle
| SelDescription
| SelSalary
| SelRating
| SelCompanyDetails
| SelSubratings
| SelNextButton.

(** The detail panel shown after a job link is clicked.  A scalar field
    is [None] when its element is not on the page. *)
Record view := {
  v_signup_popup : bool;
  v_company_name : option string;
  v_location : option string;
  v_job_title : option string;
  v_description : option string;
  v_salary : option string;
  v_rating : option string;
  v_companydetails : list string;   (* text of each company-details element *)
  v_subratings : list string;       (* text of each sub-rating span *)
}.

Definition blank_view : view :=
  {| v_signup_popup := false; v_company_name := None; v_location := None;
     v_job_title := None; v_description := None; v_salary := None;
     v_rating := None; v_companydetails := []; v_subratings := [] |}.

(** [jl_views n] is the detail panel shown by the [n]-th click on the link
    (counting from 0). *)
Record job_link := { jl_views : nat -> view }.

Inductive cookie_banner := BannerAbsent | BannerNotInteractable | BannerClickable.

(** What clicking "next page" does: the button is not found, the click is
    intercepted, or the click goes through and the driver ends at [url]. *)
Inductive next_button :=
| NextAbsent
| NextIntercepted
| NextLoads (url : string).

Record page := {
  p_cookies : cookie_banner;
  p_job_links : list job_link;
  p_vieweddate : list string;       (* the viewedDate elements on the page *)
  p_next : next_button;
}.

Definition site := nat -> page.

(** ** Driver, trace and program state *)

Inductive level := DEBUG | INFO | ERROR.

Inductive message :=
| MsgPage (n : nat)
| MsgAllScraped (n : nat)
| MsgSomeScraped (k n : nat)
| MsgJob (k target : Z)
| MsgNotFound (tried : string)
| MsgDescriptionStillMissing
| MsgField (name : string) (v : pyval)
| MsgTargetReached (k target : Z)
| MsgTargetScraped
| MsgNextUnavailable (needed : Z) (got : nat)
| MsgNextIntercepted (needed : Z) (got : nat)
| MsgNoPgc
| MsgReturnedDataFrame (n : Z)
| MsgSavedCsv (n : Z).

Inductive event :=
| EvChrome                         (* webdriver.Chrome(...): session created *)
| EvQuit                           (* driver.quit(): session released *)
| EvGet (url : string)
| EvFind (sel : selector) (found : bool)
| EvFindAll (sel : selector) (n : nat)
| EvClick (sel : selector)
| EvLog (lvl : level) (msg : message).

Record job_dict := {
  job_title : pyval; salary_estimate : pyval; job_description : pyval;
  rating : pyval; company_name : pyval; location : pyval;
  size : pyval; founded : pyval; type_of_ownership : pyval;
  industry : pyval; sector : pyval; revenue : pyval;
  rating_culturevalues : pyval; rating_worklifebalance : pyval;
  rating_seniormgmt : pyval; rating_compbenefits : pyval;
  rating_careerops : pyval;
}.

(** The row written in CSV mode, in the order of the list [job_details]. *)
Definition job_details (j : job_dict) : list pyval :=
  [ job_title j; salary_estimate j; job_description j; rating j;
    company_name j; location j; size j; founded j; type_of_ownership j;
    industry j; sector j; revenue j; rating_culturevalues j;
    rating_worklifebalance j; rating_seniormgmt j; rating_compbenefits j;
    rating_careerops j ].

Record state := {
  drv_url : string;                 (* driver.current_url *)
  drv_page : nat;                   (* which page of the site is loaded *)
  drv_detail : view;                (* detail panel currently shown *)
  job_counter : Z;
  nextpage_counter : nat;
  jobs : option (list job_dict);    (* None: the name is unbound *)
  csv_file : list (list pyval);     (* rows appended so far *)
  locals_reset : bool;              (* the per-job variables have been set to -1 *)
  trace : list event;               (* most recent first *)
}.

Definition start_url : string :=
  "https://www.glassdoor.co.uk/Job/uk-data-scientist-jobs-SRCH_IL.0,2_IN2_KO3,17.htm?fromAge=30".

Definition initial_state : state :=
  {| drv_url := ""; drv_page := 0%nat; drv_detail := blank_view;
     job_counter := 0; nextpage_counter := 0%nat; jobs := None;
     csv_file := []; locals_reset := false; trace := [] |}.

Definition set_driver (url : string) (pg : nat) (d : view) (s : state) : state :=
  {| drv_url := url; drv_page := pg; drv_detail := d;
     job_counter := job_counter s; nextpage_counter := nextpage_counter s;
     jobs := jobs s; csv_file := csv_file s; locals_reset := locals_reset s;
     trace := trace s |}.

Definition set_job_counter (z : Z) (s : state) : state :=
  {| drv_url := drv_url s; drv_page := drv_page s; drv_detail := drv_detail s;
     job_counter := z; nextpage_counter := nextpage_counter s;
     jobs := jobs s; csv_file := csv_file s; locals_reset := locals_reset s;
     trace := trace s |}.

Definition set_nextpage_counter (n : nat) (s : state) : state :=
  {| drv_url := drv_url s; drv_page := drv_page s; drv_detail := drv_detail s;
     job_counter := job_counter s; nextpage_counter := n;
     jobs := jobs s; csv_file := csv_file s; locals_reset := locals_reset s;
     trace := trace s |}.

Definition set_jobs (j : option (list job_dict)) (s : state) : state :=
  {| drv_url := drv_url s; drv_page := drv_page s; drv_detail := drv_detail s;
     job_counter := job_counter s; nextpage_counter := nextpage_counter s;
     jobs := j; csv_file := csv_file s; locals_reset := locals_reset s;
     trace := trace s |}.

Definition set_csv_file (rows : list (list pyval)) (s : state) : state :=
  {| drv_url := drv_url s; drv_page := drv_page s; drv_detail := drv_detail s;
     job_counter := job_counter s; nextpage_counter := nextpage_counter s;
     jobs := jobs s; csv_file := rows; locals_reset := locals_reset s;
     trace := trace s |}.

Definition set_locals_reset (b : bool) (s : state) : state :=
  {| drv_url := drv_url s; drv_page := drv_page s; drv_detail := drv_detail s;
     job_counter := job_counter s; nextpage_counter := nextpage_counter s;
     jobs := jobs s; csv_file := csv_file s; locals_reset := b;
     trace := trace s |}.

Definition record_event (e : event) (s : state) : state :=
  {| drv_url := drv_url s; drv_page := drv_page s; drv_detail := drv_detail s;
     job_counter := job_counter s; nextpage_counter := nextpage_counter s;
     jobs := jobs s; csv_file := csv_file s; locals_reset := locals_reset s;
     trace := e :: trace s |}.

(** ** The monad: state, exceptions, [sys.exit] *)

Inductive result (A : Type) :=
| Ok (a : A)
| Raise (e : exn)
| SysExit (code : Z)
| OutOfFuel.                        (* the loop budget of the model ran out *)
Arguments Ok {A} a.
Arguments Raise {A} e.
Arguments SysExit {A} code.
Arguments OutOfFuel {A}.

Definition M (A : Type) : Type := state -> result A * state.

Definition ret {A} (a : A) : M A := fun s => (Ok a, s).

Definition bind {A B} (k : A -> M B) (m : M A) : M B :=
  fun s =>
    match m s with
    | (Ok a, s') => k a s'
    | (Raise e, s') => (Raise e, s')
    | (SysExit c, s') => (SysExit c, s')
    | (OutOfFuel, s') => (OutOfFuel, s')
    end.

(** stdpp's monad notations: [x ← m; k] and [m;; k]. *)
#[global] Instance M_ret : MRet M := @ret.
#[global] Instance M_bind : MBind M := @bind.

Definition raise {A} (e : exn) : M A := fun s => (Raise e, s).
Definition sys_exit {A} (code : Z) : M A := fun s => (SysExit code, s).
Definition out_of_fuel {A} : M A := fun s => (OutOfFuel, s).
Definition gets {A} (f : state -> A) : M A := fun s => (Ok (f s), s).
Definition modify (f : state -> state) : M unit := fun s => (Ok tt, f s).
Definition emit (e : event) : M unit := modify (record_event e).
Definition log (lvl : level) (msg : message) : M unit := emit (EvLog lvl msg).

(** [try: body / except ...: handler / else: els].  [handlers e] is the
    clause that catches [e], if any; the [else] suite is outside the
    protected region. *)
Definition try_except {A B} (body : M A) (handlers : exn -> option (M B))
    (els : A -> M B) : M B :=
  fun s =>
    match body s with
    | (Ok a, s') => els a s'
    | (Raise e, s') =>
        match handlers e with
        | Some handler => handler s'
        | None => (Raise e, s')
        end
    | (SysExit c, s') => (SysExit c, s')
    | (OutOfFuel, s') => (OutOfFuel, s')
    end.

(** [try: m / finally: f].  [f] runs whatever [m] did and is told what [m]
    assigned ([None] when [m] did not finish, so that the names keep their
    earlier bindings); when [f] itself does not finish normally, its
    outcome replaces that of [m]. *)
Definition finally {A} (m : M A) (f : option A -> M unit) : M A :=
  fun s =>
    let '(r, s') := m s in
    match f (match r with Ok a => Some a | _ => None end) s' with
    | (Ok _, s'') => (r, s'')
    | (Raise e, s'') => (Raise e, s'')
    | (SysExit c, s'') => (SysExit c, s'')
    | (OutOfFuel, s'') => (OutOfFuel, s'')
    end.

Definition on_no_such_element {B} (handler : M B) (e : exn) : option (M B) :=
  match e with NoSuchElementException => Some handler | _ => None end.

(** ** Driver calls *)

Definition lookup_detail (sel : selector) (v : view) : option string :=
  match sel with
  | SelCompanyName => v_company_name v
  | SelLocation => v_location v
  | SelJobTitle => v_job_title v
  | SelDescription => v_description v
  | SelSalary => v_salary v
  | SelRating => v_rating v
  | _ => None
  end.

(** [driver.find_element(...).text] on the detail panel. *)
Definition find_element_text (sel : selector) : M string :=
  v ← gets drv_detail;
  match lookup_detail sel v with
  | Some t => emit (EvFind sel true);; ret t
  | None => emit (EvFind sel false);; raise NoSuchElementException
  end.

(** [driver.find_elements(...)] on the detail panel, as the texts of the
    elements found.  It returns an empty list when nothing matches and
    never raises [NoSuchElementException]. *)
Definition find_elements_text (sel : selector) : M (list string) :=
  v ← gets drv_detail;
  let found := match sel with
               | SelCompanyDetails => v_companydetails v
               | SelSubratings => v_subratings v
               | _ => []
               end in
  emit (EvFindAll sel (length found));; ret found.

(** [job_link.click()], the [n]-th click on this link.  The source installs
    no handler around it and the model gives it no failure. *)
Definition click_job_link (job_link : job_link) (n : nat) : M unit :=
  emit (EvClick SelJobListing);;
  modify (fun s => set_driver (drv_url s) (drv_page s) (jl_views job_link n) s).

Section Crawl.

Variable the_site : site.

Definition current_page : M page := pg ← gets drv_page; ret (the_site pg).

(** Lines 132-142: the cookies pop-up.  A button that is found and can be
    interacted with is clicked; the click itself is given no failure. *)
Definition close_cookies : M unit :=
  p ← current_page;
  try_except
    (match p_cookies p with
     | BannerAbsent => emit (EvFind SelCookies false);; raise NoSuchElementException
     | BannerNotInteractable =>
         emit (EvFind SelCookies true);; raise ElementNotInteractableException
     | BannerClickable => emit (EvFind SelCookies true);; emit (EvClick SelCookies)
     end)
    (fun e => match e with
              | NoSuchElementException => Some (ret tt)
              | ElementNotInteractableException => Some (ret tt)
              | _ => None
              end)
    ret.

(** Lines 172-182: the sign-up pop-up.  A close button that is found is
    clicked; the click itself is given no failure. *)
Definition close_signup_popup : M unit :=
  v ← gets drv_detail;
  try_except
    (if v_signup_popup v
     then emit (EvFind SelSignupPopup true);; emit (EvClick SelSignupPopup)
     else emit (EvFind SelSignupPopup false);; raise NoSuchElementException)
    (on_no_such_element (ret tt))
    ret.

(** Lines 431-437: find the next button and click it. *)
Definition click_next : M unit :=
  p ← current_page;
  match p_next p with
  | NextAbsent => emit (EvFind SelNextButton false);; raise NoSuchElementException
  | NextIntercepted =>
      emit (EvFind SelNextButton true);; raise ElementClickInterceptedException
  | NextLoads url =>
      emit (EvFind SelNextButton true);; emit (EvClick SelNextButton);;
      modify (fun s => set_driver url (S (drv_page s)) blank_view s)
  end.

(** ** Field extraction (lines 184-343) *)

(** A [finally] suite that logs names its [try] did not get to assign:
    they hold [-1] once an earlier job has reached the reset at lines
    397-414, and are unbound before that. *)
Fixpoint log_missing (labels : list string) : M unit :=
  match labels with
  | [] => ret tt
  | l :: rest => log INFO (MsgField l missing);; log_missing rest
  end.

Definition logged_stale (first_name : string) (labels : list string) : M unit :=
  reset ← gets locals_reset;
  if reset : bool then log_missing labels
  else raise (UnboundLocalError first_name).

(** Company name, location, job title, salary: [try] the element's text,
    [except NoSuchElementException] assign [-1] and log the error, [else]
    log the value. *)
Definition scrape_scalar (sel : selector) (tried : string) (label : string)
  : M pyval :=
  try_except (find_element_text sel)
    (on_no_such_element (log ERROR (MsgNotFound tried);; ret missing))
    (fun t => log INFO (MsgField label (PyStr t));; ret (PyStr t)).

(** Lines 225-246.  [str(job_description)[:50]], the first 50 characters,
    is logged. *)
Definition scrape_description (job_link : job_link) : M pyval :=
  try_except (find_element_text SelDescription)
    (on_no_such_element
       (log ERROR (MsgNotFound "job description");;
        click_job_link job_link 1;;
        try_except (find_element_text SelDescription)
          (on_no_such_element (log ERROR MsgDescriptionStillMissing;; ret missing))
          (fun t => ret (PyStr t))))
    (fun t => log INFO (MsgField "Job Description" (PyStr (substring 0 50 t)));;
              ret (PyStr t)).

(** Lines 261-273: the value is logged in the [finally] suite. *)
Definition scrape_rating : M pyval :=
  finally
    (try_except (find_element_text SelRating)
       (on_no_such_element (log ERROR (MsgNotFound "company rating (overall)");;
                            ret missing))
       (fun t => ret (PyStr t)))
    (fun r => match r with
              | Some v => log INFO (MsgField "Rating" v)
              | None => logged_stale "rating" ["Rating"]
              end).

(** Line 294, for every element: the label and value around the first line
    break.  The source collects labels and values in two lists and zips
    them; the pairs are kept together here. *)
Fixpoint split_details (companydetails : list string) : M (list (string * string)) :=
  match companydetails with
  | [] => ret []
  | c :: rest =>
      match split_once c with
      | Some xy => pairs ← split_details rest; ret (xy :: pairs)
      | None => raise ValueError
      end
  end.

Record company_details := {
  cd_size : pyval; cd_founded : pyval; cd_type_of_ownership : pyval;
  cd_industry : pyval; cd_sector : pyval; cd_revenue : pyval;
}.

Definition details_missing : company_details :=
  {| cd_size := missing; cd_founded := missing; cd_type_of_ownership := missing;
     cd_industry := missing; cd_sector := missing; cd_revenue := missing |}.

(** Lines 300-305. *)
Definition details_of_dict (companydetails_dict : gmap string string)
  : company_details :=
  {| cd_size := get_or_missing companydetails_dict "Size";
     cd_founded := get_or_missing companydetails_dict "Founded";
     cd_type_of_ownership := get_or_missing companydetails_dict "Type";
     cd_industry := get_or_missing companydetails_dict "Industry";
     cd_sector := get_or_missing companydetails_dict "Sector";
     cd_revenue := get_or_missing companydetails_dict "Revenue" |}.

Definition log_details (d : company_details) : M unit :=
  log INFO (MsgField "Size" (cd_size d));;
  log INFO (MsgField "Founded" (cd_founded d));;
  log INFO (MsgField "Type of Ownership" (cd_type_of_ownership d));;
  log INFO (MsgField "Industry" (cd_industry d));;
  log INFO (MsgField "Sector" (cd_sector d));;
  log INFO (MsgField "Revenue" (cd_revenue d)).

(** Lines 275-313. *)
Definition scrape_company_details : M company_details :=
  finally
    (try_except (find_elements_text SelCompanyDetails)
       (on_no_such_element
          (log ERROR (MsgNotFound "company details");; ret details_missing))
       (fun companydetails =>
          pairs ← split_details companydetails;
          ret (details_of_dict (dict pairs))))
    (fun r => match r with
              | Some d => log_details d
              | None =>
                  logged_stale "size"
                    ["Size"; "Founded"; "Type of Ownership"; "Industry";
                     "Sector"; "Revenue"]
              end).

Record subratings := {
  sr_culturevalues : pyval; sr_worklifebalance : pyval; sr_seniormgmt : pyval;
  sr_compbenefits : pyval; sr_careerops : pyval;
}.

Definition subratings_missing : subratings :=
  {| sr_culturevalues := missing; sr_worklifebalance := missing;
     sr_seniormgmt := missing; sr_compbenefits := missing;
     sr_careerops := missing |}.

(** Line 330: the texts alternate between labels and values. *)
Definition subratings_dict (subratings_list : list string) : gmap string string :=
  dict (zip (slice_even subratings_list) (slice_odd subratings_list)).

(** Lines 332-336. *)
Definition subratings_of_dict (d : gmap string string) : subratings :=
  {| sr_culturevalues := get_or_missing d "Culture & Values";
     sr_worklifebalance := get_or_missing d "Work/Life Balance";
     sr_seniormgmt := get_or_missing d "Senior Management";
     sr_compbenefits := get_or_missing d "Comp & Benefits";
     sr_careerops := get_or_missing d "Career Opportunities" |}.

Definition log_subratings (r : subratings) : M unit :=
  log INFO (MsgField "Culture & Values" (sr_culturevalues r));;
  log INFO (MsgField "Work/Life Balance" (sr_worklifebalance r));;
  log INFO (MsgField "Senior Management" (sr_seniormgmt r));;
  log INFO (MsgField "Comp & Benefits" (sr_compbenefits r));;
  log INFO (MsgField "Career Opportunities" (sr_careerops r)).

(** Lines 315-343. *)
Definition scrape_subratings : M subratings :=
  finally
    (try_except (find_elements_text SelSubratings)
       (on_no_such_element
          (log ERROR (MsgNotFound "subratings");; ret subratings_missing))
       (fun subratings_list =>
          ret (subratings_of_dict (subratings_dict subratings_list))))
    (fun r => match r with
              | Some r => log_subratings r
              | None =>
                  logged_stale "rating_culturevalues"
                    ["Culture & Values"; "Work/Life Balance"; "Senior Management";
                     "Comp & Benefits"; "Career Opportunities"]
              end).

(** Lines 184-343: all fields of one job, read from the detail panel the
    driver shows. *)
Definition extract_fields (job_link : job_link) : M job_dict :=
  company_name ← scrape_scalar SelCompanyName "company name" "Company Name";
  location ← scrape_scalar SelLocation "company name" "Location";
  job_title ← scrape_scalar SelJobTitle "job title" "Job Title";
  job_description ← scrape_description job_link;
  salary_estimate ← scrape_scalar SelSalary "salary estimate" "Salary Estimate";
  rating ← scrape_rating;
  d ← scrape_company_details;
  r ← scrape_subratings;
  ret {| job_title := job_title; salary_estimate := salary_estimate;
         job_description := job_description; rating := rating;
         company_name := company_name; location := location;
         size := cd_size d; founded := cd_founded d;
         type_of_ownership := cd_type_of_ownership d;
         industry := cd_industry d; sector := cd_sector d;
         revenue := cd_revenue d;
         rating_culturevalues := sr_culturevalues r;
         rating_worklifebalance := sr_worklifebalance r;
         rating_seniormgmt := sr_seniormgmt r;
         rating_compbenefits := sr_compbenefits r;
         rating_careerops := sr_careerops r |}.

(** ** The crawl controller *)

Variable num_jobs : Z.              (* after validation *)
Variable path_given : bool.         (* [path is not None] *)

(** Lines 345-395: one row appended to the CSV file, or one dict appended
    to the list [jobs]. *)
Definition store (j : job_dict) : M unit :=
  if path_given then
    modify (fun s => set_csv_file (csv_file s ++ [job_details j]) s)
  else
    js ← gets jobs;
    match js with
    | Some l => modify (set_jobs (Some (l ++ [j])))
    | None => raise (UnboundLocalError "jobs")
    end.

(** Lines 164-417: the body of the [for] loop up to the target check. *)
Definition scrape_job (job_link : job_link) : M unit :=
  modify (fun s => set_job_counter (job_counter s + 1) s);;
  k ← gets job_counter;
  log INFO (MsgJob k num_jobs);;
  click_job_link job_link 0;;
  close_signup_popup;;
  j ← extract_fields job_link;
  store j;;
  modify (set_locals_reset true).

(** Lines 162-422: the [for] loop; [break] at the target ends it early. *)
Fixpoint for_job_links (job_links : list job_link) : M unit :=
  match job_links with
  | [] => ret tt
  | job_link :: rest =>
      scrape_job job_link;;
      k ← gets job_counter;
      if k =? num_jobs then log DEBUG (MsgTargetReached k num_jobs)
      else for_job_links rest
  end.

Inductive control := Break | Continue.

(** [len(jobs)] in the two error messages of lines 440 and 443. *)
Definition len_jobs : M nat :=
  js ← gets jobs;
  match js with
  | Some l => ret (length l)
  | None => raise (UnboundLocalError "jobs")
  end.

(** Lines 431-452. *)
Definition page_advance : M control :=
  try_except click_next
    (fun e => match e with
              | NoSuchElementException =>
                  Some (got ← len_jobs;
                        log ERROR (MsgNextUnavailable num_jobs got);; ret Break)
              | ElementClickInterceptedException =>
                  Some (got ← len_jobs;
                        log ERROR (MsgNextIntercepted num_jobs got);; ret Break)
              | _ => None
              end)
    (fun _ =>
       url_str ← gets drv_url;
       if contains "pgc=" url_str then
         modify (fun s => set_nextpage_counter (S (nextpage_counter s)) s);;
         ret Continue
       else
         log ERROR MsgNoPgc;; sys_exit 1).

(** Lines 126-452: one turn of the [while] loop.  [find_elements] returns a
    list and does not raise, so the [except] clause of lines 150-151 is
    never entered and [vieweddate] is always assigned. *)
Definition page_iteration : M control :=
  n ← gets nextpage_counter;
  log INFO (MsgPage (n + 1));;
  close_cookies;;
  p ← current_page;
  let job_links := p_job_links p in
  emit (EvFindAll SelJobListing (length job_links));;
  let vieweddate := p_vieweddate p in
  emit (EvFindAll SelViewedDate (length vieweddate));;
  if (length vieweddate =? length job_links)%nat then
    log INFO (MsgAllScraped (n + 1));; ret Break
  else
    log INFO (MsgSomeScraped (length vieweddate) (n + 1));;
    for_job_links job_links;;
    if (length vieweddate =? length job_links)%nat then ret Break
    else
      k ← gets job_counter;
      if k =? num_jobs then log DEBUG MsgTargetScraped;; ret Break
      else page_advance.

(** Line 124: [while job_counter < num_jobs], with a budget of turns. *)
Fixpoint while_loop (fuel : nat) : M unit :=
  k ← gets job_counter;
  if k <? num_jobs then
    match fuel with
    | O => out_of_fuel
    | S fuel' =>
        c ← page_iteration;
        match c with
        | Break => ret tt
        | Continue => while_loop fuel'
        end
    end
  else ret tt.

End Crawl.

(** ** [get_jobs] *)

(** Lines 28-39. *)
Definition validatenumjobs (input : pyval) : M Z :=
  match input with
  | PyInt z => if (z <=? 0) || (z >? 900) then raise ValueError else ret z
  | _ => raise TypeError
  end.

(** Lines 42-54; [isdir] stands for [os.path.isdir]. *)
Definition validatepath (isdir : string -> bool) (input : pyval) : M pyval :=
  match input with
  | PyNone => ret input
  | PyStr p => if isdir p then ret input else raise ValueError
  | _ => raise TypeError
  end.

Definition is_none (v : pyval) : bool :=
  match v with PyNone => true | _ => false end.

(** The machine the function runs on: whether the log file can be opened
    and whether a browser session can be created. *)
Record host := { log_opens : bool; chrome_starts : bool }.

Definition working_host : host := {| log_opens := true; chrome_starts := true |}.

(** Lines 60-87: the logger.  [logging.FileHandler(loggerfilename)] opens
    the log file in the directory [data] and raises an [OSError] when it
    cannot ([FileNotFoundError] when [data] is missing).  The handlers, the
    formatter and the level chosen by [verbose] have no failure and only
    select what is let through; the trace records the logger calls. *)
Definition set_up_logger (h : host) (verbose : bool) : M unit :=
  if log_opens h then ret tt else raise OSError.

(** Lines 98-105: [webdriver.Chrome(...)] creates the session, or raises
    when the driver or the browser cannot be started. *)
Definition start_driver (h : host) : M unit :=
  if chrome_starts h then emit EvChrome else raise WebDriverException.

(** The whole function.  It returns the list of dicts the DataFrame is
    built from, or [None] in CSV mode. *)
Definition get_jobs (isdir : string -> bool) (h : host) (the_site : site)
    (fuel : nat) (num_jobs : pyval) (verbose : bool) (path : pyval)
  : M (option (list job_dict)) :=
  num_jobs ← validatenumjobs num_jobs;
  path ← validatepath isdir path;
  set_up_logger h verbose;;
  let path_given := negb (is_none path) in
  (if path_given then ret tt else modify (set_jobs (Some [])));;
  start_driver h;;
  emit (EvGet start_url);;
  modify (set_driver start_url 0 blank_view);;
  modify (set_job_counter 0);;
  modify (set_nextpage_counter 0);;
  while_loop the_site num_jobs path_given fuel;;
  if path_given then
    log INFO (MsgSavedCsv num_jobs);; ret None
  else
    js ← gets jobs;
    log INFO (MsgReturnedDataFrame num_jobs);; ret js.

(** A call of [get_jobs] in a fresh interpreter, on a host where the log
    file can be opened and the browser starts. *)
Definition run (isdir : string -> bool) (the_site : site) (fuel : nat)
    (num_jobs : pyval) (verbose : bool) (path : pyval)
  : result (option (list job_dict)) * state :=
  get_jobs isdir working_host the_site fuel num_jobs verbose path initial_state.

(** * Reasoning tools *)

(** ** Properties of every outcome

    [always R m]: whatever [m] does (return, raise, exit), the state it
    leaves is related by [R] to the state it started from. *)

Definition always {A} (R : relation state) (m : M A) : Prop :=
  forall s, R s (m s).2.

Section Always.
Context (R : relation state) `{!PreOrder R}.

Lemma always_ret {A} (a : A) : always R (ret a).
Proof. intros s. reflexivity. Qed.

Lemma always_mret {A} (a : A) : always R (mret a).
Proof. intros s. reflexivity. Qed.

Lemma always_raise {A} e : always R (@raise A e).
Proof. intros s. reflexivity. Qed.

Lemma always_sys_exit {A} c : always R (@sys_exit A c).
Proof. intros s. reflexivity. Qed.

Lemma always_out_of_fuel {A} : always R (@out_of_fuel A).
Proof. intros s. reflexivity. Qed.

Lemma always_gets {A} (f : state -> A) : always R (gets f).
Proof. intros s. reflexivity. Qed.

Lemma always_bind {A B} (m : M A) (k : A -> M B) :
  always R m -> (forall a, always R (k a)) -> always R (m ≫= k).
Proof.
  intros Hm Hk s. unfold mbind, M_bind, bind.
  specialize (Hm s). destruct (m s) as [[a | e | c |] s1]; simpl in *; trivial.
  etransitivity; [exact Hm | apply Hk].
Qed.

Lemma always_try_except {A B} (body : M A) handlers (els : A -> M B) :
  always R body ->
  (forall e h, handlers e = Some h -> always R h) ->
  (forall a, always R (els a)) ->
  always R (try_except body handlers els).
Proof.
  intros Hb Hh He s. unfold try_except.
  specialize (Hb s). destruct (body s) as [[a | e | c |] s1]; simpl in *; trivial.
  - etransitivity; [exact Hb | apply He].
  - destruct (handlers e) as [h |] eqn:E; simpl; trivial.
    etransitivity; [exact Hb | exact (Hh e h E s1)].
Qed.

Lemma always_finally {A} (m : M A) (f : option A -> M unit) :
  always R m -> (forall r, always R (f r)) -> always R (finally m f).
Proof.
  intros Hm Hf s. unfold finally.
  specialize (Hm s). destruct (m s) as [r s1]; simpl in *.
  specialize (Hf (match r with Ok a => Some a | _ => None end) s1).
  destruct (f _ s1) as [[[] | e | c |] s2]; simpl in *;
    (etransitivity; [exact Hm | exact Hf]).
Qed.

Lemma always_on_no_such_element {B} (handler : M B) :
  always R handler ->
  forall e h, on_no_such_element handler e = Some h -> always R h.
Proof.
  intros H e h E. destruct e; simpl in E; try discriminate.
  injection E as <-. exact H.
Qed.

End Always.

(** ** What the trace gained *)

(** Events of the work on one job: lookups and clicks on the detail panel
    and the log lines of field extraction. *)
Definition detail_event (e : event) : bool :=
  match e with
  | EvFind sel _ | EvFindAll sel _ =>
      match sel with
      | SelSignupPopup | SelCompanyName | SelLocation | SelJobTitle
      | SelDescription | SelSalary | SelRating | SelCompanyDetails
      | SelSubratings => true
      | _ => false
      end
  | EvClick SelJobListing | EvClick SelSignupPopup => true
  | EvLog INFO (MsgField _ _) | EvLog ERROR (MsgNotFound _)
  | EvLog ERROR MsgDescriptionStillMissing => true
  | _ => false
  end.

Definition is_session_open (e : event) : bool :=
  match e with EvChrome => true | _ => false end.
Definition is_session_quit (e : event) : bool :=
  match e with EvQuit => true | _ => false end.
Definition is_job_start (e : event) : bool :=
  match e with EvLog INFO (MsgJob _ _) => true | _ => false end.
Definition is_page_entry (e : event) : bool :=
  match e with EvLog INFO (MsgPage _) => true | _ => false end.
Definition is_next_attempt (e : event) : bool :=
  match e with EvFind SelNextButton _ => true | _ => false end.
Definition is_job_click (e : event) : bool :=
  match e with EvClick SelJobListing => true | _ => false end.
Definition is_description_lookup (e : event) : bool :=
  match e with EvFind SelDescription _ => true | _ => false end.

Definition count_events (P : event -> bool) (tr : list event) : nat :=
  length (filter (fun e => P e = true) tr).

Lemma count_events_app P tr1 tr2 :
  count_events P (tr1 ++ tr2) = (count_events P tr1 + count_events P tr2)%nat.
Proof. unfold count_events. by rewrite filter_app, length_app. Qed.

Lemma count_events_cons P e tr :
  count_events P (e :: tr) = ((if P e then 1 else 0) + count_events P tr)%nat.
Proof.
  unfold count_events. rewrite filter_cons.
  case_decide as H; [by rewrite H |].
  by destruct (P e).
Qed.

Lemma count_events_none P C evs :
  (forall e, C e = true -> P e = false) ->
  Forall (fun e => C e = true) evs -> count_events P evs = 0%nat.
Proof.
  intros HCP. induction 1 as [| e evs He _ IH]; [done |].
  rewrite count_events_cons, (HCP e He), IH. done.
Qed.

(** [emitted C s s']: the trace of [s'] is that of [s] with events of
    class [C] put in front. *)
Definition emitted (C : event -> bool) (s s' : state) : Prop :=
  exists evs, trace s' = evs ++ trace s /\ Forall (fun e => C e = true) evs.

Lemma emitted_same C s s' : trace s' = trace s -> emitted C s s'.
Proof. intros H. exists []. split; [done | constructor]. Qed.

Lemma emitted_refl C s : emitted C s s.
Proof. by apply emitted_same. Qed.

Lemma emitted_trans C s1 s2 s3 :
  emitted C s1 s2 -> emitted C s2 s3 -> emitted C s1 s3.
Proof.
  intros (e1 & H1 & F1) (e2 & H2 & F2). exists (e2 ++ e1). split.
  - rewrite H2, H1. by rewrite app_assoc.
  - by apply Forall_app.
Qed.

Lemma emitted_one C e s : C e = true -> emitted C s (record_event e s).
Proof. intros H. exists [e]. split; [done | by repeat constructor]. Qed.

Lemma emitted_weaken (C D : event -> bool) s s' :
  (forall e, C e = true -> D e = true) -> emitted C s s' -> emitted D s s'.
Proof.
  intros H (evs & E & F). exists evs. split; [done |].
  eapply Forall_impl; [exact F | exact H].
Qed.

Lemma emitted_count P C s s' :
  (forall e, C e = true -> P e = false) ->
  emitted C s s' -> count_events P (trace s') = count_events P (trace s).
Proof.
  intros HCP (evs & -> & F).
  by rewrite count_events_app, (count_events_none P C evs HCP F).
Qed.

(** What field extraction leaves alone: the counters, the page and URL the
    driver is at, the records stored so far; the trace gains detail events
    only.  (The detail panel may change: the description is retried after
    a second click.) *)
Record job_step (s s' : state) : Prop := {
  js_counter : job_counter s' = job_counter s;
  js_nextpage : nextpage_counter s' = nextpage_counter s;
  js_page : drv_page s' = drv_page s;
  js_url : drv_url s' = drv_url s;
  js_jobs : jobs s' = jobs s;
  js_csv : csv_file s' = csv_file s;
  js_reset : locals_reset s' = locals_reset s;
  js_trace : emitted detail_event s s';
}.

#[global] Instance job_step_preorder : PreOrder job_step.
Proof.
  split.
  - intros s. split; auto using emitted_refl.
  - intros s1 s2 s3 [] []. split; try congruence; eauto using emitted_trans.
Qed.

Lemma job_step_emit e : detail_event e = true -> always job_step (emit e).
Proof. intros H s. split; simpl; auto using emitted_one. Qed.

Lemma job_step_log lvl msg :
  detail_event (EvLog lvl msg) = true -> always job_step (log lvl msg).
Proof. apply job_step_emit. Qed.

Lemma job_step_modify (f : state -> state) :
  (forall s, job_step s (f s)) -> always job_step (modify f).
Proof. intros H s. apply H. Qed.

Lemma job_step_show url_of view_of :
  (forall s, url_of s = drv_url s) ->
  always job_step (modify (fun s => set_driver (url_of s) (drv_page s) (view_of s) s)).
Proof.
  intros H. apply job_step_modify. intros s.
  split; simpl; rewrite ?H; auto using emitted_same.
Qed.

Ltac always_step :=
  first
    [ apply always_ret; apply _ | apply always_mret; apply _
    | apply always_raise; apply _ | apply always_sys_exit; apply _
    | apply always_out_of_fuel; apply _ | apply always_gets; apply _
    | apply always_bind; [apply _ | | intros ?]
    | apply always_try_except;
        [ apply _ | |
          first [ apply always_on_no_such_element
                | let e := fresh "e" in
                  let Hh := fresh "Hh" in
                  intros e ? Hh; destruct e; simpl in Hh; try discriminate;
                  injection Hh as <- ]
        | intros ? ]
    | apply always_finally; [apply _ | | intros [?|]]
    | apply job_step_emit; reflexivity
    | apply job_step_log; reflexivity
    | match goal with
      | |- always _ (match ?x with _ => _ end) => destruct x
      | |- always _ (if ?x then _ else _) => destruct x
      end ].

Ltac always_auto := repeat always_step.

Lemma job_step_find_element_text sel :
  detail_event (EvFind sel true) = true -> always job_step (find_element_text sel).
Proof.
  intros H. unfold find_element_text.
  apply always_bind; [apply _ | apply always_gets; apply _ | intros v].
  destruct (lookup_detail sel v);
    (apply always_bind; [apply _ | apply job_step_emit; destruct sel; done | intros _]);
    always_auto.
Qed.

Lemma job_step_find_elements_text sel :
  detail_event (EvFindAll sel 0) = true -> always job_step (find_elements_text sel).
Proof.
  intros H. unfold find_elements_text.
  apply always_bind; [apply _ | apply always_gets; apply _ | intros v].
  apply always_bind; [apply _ | | intros _; apply always_mret; apply _].
  apply job_step_emit. by destruct sel.
Qed.

Lemma job_step_click_job_link jl n : always job_step (click_job_link jl n).
Proof.
  unfold click_job_link. apply always_bind; [apply _ | | intros _].
  - by apply job_step_emit.
  - by apply (job_step_show drv_url).
Qed.

Lemma job_step_close_signup_popup : always job_step close_signup_popup.
Proof. unfold close_signup_popup. always_auto. Qed.

Lemma job_step_scrape_scalar sel tried label :
  detail_event (EvFind sel true) = true ->
  always job_step (scrape_scalar sel tried label).
Proof.
  intros H. unfold scrape_scalar.
  apply always_try_except; [apply _ | by apply job_step_find_element_text | |].
  - apply always_on_no_such_element. always_auto.
  - intros t. always_auto.
Qed.

Lemma job_step_scrape_description jl : always job_step (scrape_description jl).
Proof.
  unfold scrape_description.
  apply always_try_except; [apply _ | by apply job_step_find_element_text | |].
  - apply always_on_no_such_element.
    apply always_bind; [apply _ | by apply job_step_log | intros _].
    apply always_bind; [apply _ | apply job_step_click_job_link | intros _].
    apply always_try_except; [apply _ | by apply job_step_find_element_text | |].
    + apply always_on_no_such_element. always_auto.
    + intros t. always_auto.
  - intros t. always_auto.
Qed.

Lemma job_step_log_missing labels : always job_step (log_missing labels).
Proof. induction labels; simpl; always_auto. exact IHlabels. Qed.

Lemma job_step_logged_stale name labels : always job_step (logged_stale name labels).
Proof. unfold logged_stale. always_auto. apply job_step_log_missing. Qed.

Lemma job_step_scrape_rating : always job_step scrape_rating.
Proof.
  unfold scrape_rating. apply always_finally; [apply _ | |].
  - apply always_try_except; [apply _ | by apply job_step_find_element_text | |].
    + apply always_on_no_such_element. always_auto.
    + intros t. always_auto.
  - intros [v |]; [by apply job_step_log | apply job_step_logged_stale].
Qed.

Lemma job_step_split_details l : always job_step (split_details l).
Proof. induction l; simpl; always_auto. exact IHl. Qed.

Lemma job_step_scrape_company_details : always job_step scrape_company_details.
Proof.
  unfold scrape_company_details. apply always_finally; [apply _ | |].
  - apply always_try_except; [apply _ | by apply job_step_find_elements_text | |].
    + apply always_on_no_such_element. always_auto.
    + intros l. apply always_bind; [apply _ | apply job_step_split_details |].
      intros p. always_auto.
  - intros [d |]; [unfold log_details; always_auto | apply job_step_logged_stale].
Qed.

Lemma job_step_scrape_subratings : always job_step scrape_subratings.
Proof.
  unfold scrape_subratings. apply always_finally; [apply _ | |].
  - apply always_try_except; [apply _ | by apply job_step_find_elements_text | |].
    + apply always_on_no_such_element. always_auto.
    + intros l. always_auto.
  - intros [d |]; [unfold log_subratings; always_auto | apply job_step_logged_stale].
Qed.

Lemma job_step_extract_fields jl : always job_step (extract_fields jl).
Proof.
  unfold extract_fields.
  repeat (apply always_bind; [apply _ | | intros ?]);
    auto using job_step_scrape_scalar, job_step_scrape_description,
      job_step_scrape_rating, job_step_scrape_company_details,
      job_step_scrape_subratings.
  apply always_mret; apply _.
Qed.

(** ** Running a sequence *)

Lemma bind_gets {A B} (f : state -> A) (k : A -> M B) s :
  (gets f ≫= k) s = k (f s) s.
Proof. reflexivity. Qed.

Lemma bind_modify {B} (f : state -> state) (k : unit -> M B) s :
  (modify f ≫= k) s = k tt (f s).
Proof. reflexivity. Qed.

Lemma bind_emit {B} e (k : unit -> M B) s :
  (emit e ≫= k) s = k tt (record_event e s).
Proof. reflexivity. Qed.

Lemma bind_log {B} lvl msg (k : unit -> M B) s :
  (log lvl msg ≫= k) s = k tt (record_event (EvLog lvl msg) s).
Proof. reflexivity. Qed.

Lemma bind_current_page {B} the_site (k : page -> M B) s :
  (current_page the_site ≫= k) s = k (the_site (drv_page s)) s.
Proof. reflexivity. Qed.

Lemma bind_click_job_link {B} jl n (k : unit -> M B) s :
  (click_job_link jl n ≫= k) s =
  k tt (set_driver (drv_url s) (drv_page s) (jl_views jl n)
          (record_event (EvClick SelJobListing) s)).
Proof. reflexivity. Qed.

Lemma bind_assoc {A B C} (m : M A) (f : A -> M B) (g : B -> M C) s :
  ((m ≫= f) ≫= g) s = (m ≫= fun a => f a ≫= g) s.
Proof.
  unfold mbind, M_bind, bind. by destruct (m s) as [[a | e | c |] s1].
Qed.

Lemma bind_ok {A B} (m : M A) (k : A -> M B) s a s1 :
  m s = (Ok a, s1) -> (m ≫= k) s = k a s1.
Proof. intros H. unfold mbind, M_bind, bind. by rewrite H. Qed.

(** The state a sequence leaves: that of its first part when it did not
    return, that of the rest otherwise. *)
Lemma bind_leaves {A B} (m : M A) (k : A -> M B) s (Q1 Q : state -> Prop) :
  Q1 (m s).2 ->
  (forall s1, Q1 s1 -> Q s1) ->
  (forall a s1, Q1 s1 -> Q (k a s1).2) ->
  Q ((m ≫= k) s).2.
Proof.
  intros H1 Hfail Hok. unfold mbind, M_bind, bind.
  destruct (m s) as [[a | e | c |] s1]; simpl in *; auto.
Qed.

(** ** The crawl invariant *)

(** Events that touch neither the session nor the count of jobs. *)
Definition quiet_event (e : event) : bool :=
  negb (is_session_open e || is_session_quit e || is_job_start e).

Lemma detail_event_quiet e : detail_event e = true -> quiet_event e = true.
Proof. destruct e as [| | | | | | [] []]; simpl; done. Qed.

Record page_step (s s' : state) : Prop := {
  ps_counter : job_counter s' = job_counter s;
  ps_trace : emitted quiet_event s s';
}.

#[global] Instance page_step_preorder : PreOrder page_step.
Proof.
  split.
  - intros s. split; auto using emitted_refl.
  - intros s1 s2 s3 [] []. split; try congruence; eauto using emitted_trans.
Qed.

Lemma job_step_page_step s s' : job_step s s' -> page_step s s'.
Proof.
  intros []. split; [done |].
  eapply emitted_weaken; [apply detail_event_quiet | done].
Qed.

Lemma page_step_emit e : quiet_event e = true -> always page_step (emit e).
Proof. intros H s. split; simpl; auto using emitted_one. Qed.

Lemma page_step_modify (f : state -> state) :
  (forall s, job_counter (f s) = job_counter s) ->
  (forall s, trace (f s) = trace s) ->
  always page_step (modify f).
Proof. intros H1 H2 s. split; simpl; auto using emitted_same. Qed.

Ltac page_step_auto :=
  repeat first
    [ always_step
    | apply page_step_emit; reflexivity
    | apply page_step_modify; reflexivity ].

Lemma always_weaken {A} (R R' : relation state) (m : M A) :
  (forall s s', R s s' -> R' s s') -> always R m -> always R' m.
Proof. intros H Hm s. apply H, Hm. Qed.

Lemma page_step_store pg j : always page_step (store pg j).
Proof. unfold store. page_step_auto. Qed.

(** Lines 166-417: everything in the loop body after the counter went up. *)
Lemma page_step_after_count pg jl :
  always page_step
    (click_job_link jl 0;; close_signup_popup;;
     j ← extract_fields jl; store pg j;; modify (set_locals_reset true)).
Proof.
  pose proof job_step_page_step as W.
  apply always_bind; [apply _ | | intros _].
  { eapply always_weaken; [exact W | apply job_step_click_job_link]. }
  apply always_bind; [apply _ | | intros _].
  { eapply always_weaken; [exact W | apply job_step_close_signup_popup]. }
  apply always_bind; [apply _ | | intros j].
  { eapply always_weaken; [exact W | apply job_step_extract_fields]. }
  apply always_bind; [apply _ | apply page_step_store | intros _].
  by apply page_step_modify.
Qed.

Record crawl_inv (n : Z) (s : state) : Prop := {
  ci_counter : 0 <= job_counter s <= n;
  ci_jobs : Z.of_nat (count_events is_job_start (trace s)) = job_counter s;
  ci_open : count_events is_session_open (trace s) = 1%nat;
  ci_quit : count_events is_session_quit (trace s) = 0%nat;
}.

Lemma quiet_not P :
  (forall e, P e = true ->
     (is_session_open e || is_session_quit e || is_job_start e) = true) ->
  forall e, quiet_event e = true -> P e = false.
Proof.
  intros H e Hq. destruct (P e) eqn:E; [| done].
  apply H in E. unfold quiet_event in Hq. by rewrite E in Hq.
Qed.

Lemma page_step_inv n s s' : page_step s s' -> crawl_inv n s -> crawl_inv n s'.
Proof.
  intros [Hc Ht] [].
  split.
  - by rewrite Hc.
  - rewrite Hc, (emitted_count is_job_start quiet_event s s'); [done | | done].
    apply quiet_not. intros e ->. by rewrite orb_true_r.
  - rewrite (emitted_count is_session_open quiet_event s s'); [done | | done].
    apply quiet_not. by intros e ->.
  - rewrite (emitted_count is_session_quit quiet_event s s'); [done | | done].
    apply quiet_not. intros e ->. by rewrite orb_true_r.
Qed.

Section CrawlInvariant.
Variable the_site : site.
Variable num_jobs : Z.
Variable path_given : bool.

Lemma page_step_close_cookies : always page_step (close_cookies the_site).
Proof. unfold close_cookies, current_page. page_step_auto. Qed.

Lemma page_step_page_advance :
  always page_step (page_advance the_site num_jobs).
Proof.
  unfold page_advance, click_next, current_page, len_jobs. page_step_auto.
Qed.

Lemma scrape_job_unfold jl s :
  scrape_job num_jobs path_given jl s =
  (click_job_link jl 0;; close_signup_popup;;
   j ← extract_fields jl; store path_given j;; modify (set_locals_reset true))
    (record_event (EvLog INFO (MsgJob (job_counter s + 1) num_jobs))
       (set_job_counter (job_counter s + 1) s)).
Proof. reflexivity. Qed.

(** Whatever one turn of the [for] loop does, it has counted one job. *)
Lemma scrape_job_counts jl s :
  crawl_inv num_jobs s -> job_counter s < num_jobs ->
  let s' := (scrape_job num_jobs path_given jl s).2 in
  crawl_inv num_jobs s' /\ job_counter s' = job_counter s + 1.
Proof.
  intros [Hc Hj Ho Hq] Hlt. rewrite scrape_job_unfold.
  set (s0 := record_event _ _).
  assert (H0 : crawl_inv num_jobs s0 /\ job_counter s0 = job_counter s + 1).
  { split; [split |]; simpl; rewrite ?count_events_cons; simpl; try lia; done. }
  destruct H0 as [H0 E0]. simpl.
  pose proof (page_step_after_count path_given jl s0) as Hs.
  split; [by apply (page_step_inv _ s0) | by rewrite (ps_counter _ _ Hs)].
Qed.

Lemma for_job_links_inv job_links s :
  crawl_inv num_jobs s -> job_counter s < num_jobs ->
  crawl_inv num_jobs (for_job_links num_jobs path_given job_links s).2.
Proof.
  revert s. induction job_links as [| jl rest IH]; intros s Hi Hlt; [done |].
  simpl. destruct (scrape_job_counts jl s Hi Hlt) as [H1 E1].
  eapply (bind_leaves _ _ s
            (fun s1 => crawl_inv num_jobs s1 /\ job_counter s1 = job_counter s + 1));
    [by split | by intros s1 [] |].
  intros _ s1 [Hi1 Hc1]. rewrite bind_gets.
  destruct (job_counter s1 =? num_jobs) eqn:E.
  - eapply page_step_inv; [| exact Hi1]. by apply page_step_emit.
  - apply IH; [done |]. apply Z.eqb_neq in E. destruct Hi1. lia.
Qed.

Lemma page_iteration_inv s :
  crawl_inv num_jobs s -> job_counter s < num_jobs ->
  crawl_inv num_jobs (page_iteration the_site num_jobs path_given s).2.
Proof.
  intros Hi Hlt. unfold page_iteration. rewrite bind_gets, bind_log.
  set (s0 := record_event _ s).
  assert (H0 : page_step s s0) by (by apply page_step_emit).
  eapply (bind_leaves _ _ s0 (fun s1 => page_step s s1)).
  { etransitivity; [exact H0 | apply page_step_close_cookies]. }
  { intros s1 H1. by apply (page_step_inv _ s). }
  intros _ s1 H1. rewrite bind_current_page. simpl. rewrite bind_emit, bind_emit.
  set (p := the_site (drv_page s1)).
  set (s2 := record_event _ (record_event _ s1)).
  assert (H2 : page_step s s2).
  { etransitivity; [exact H1 |].
    etransitivity; [| by apply page_step_emit]. by apply page_step_emit. }
  destruct (_ =? _)%nat.
  - rewrite bind_log. simpl. apply (page_step_inv _ s); [| done].
    etransitivity; [exact H2 | by apply page_step_emit].
  - rewrite bind_log. set (s3 := record_event _ s2).
    assert (H3 : page_step s s3).
    { etransitivity; [exact H2 | by apply page_step_emit]. }
    eapply (bind_leaves _ _ s3 (crawl_inv num_jobs)).
    { apply for_job_links_inv; [by apply (page_step_inv _ s) |].
      by rewrite (ps_counter _ _ H3). }
    { done. }
    intros _ s4 H4. rewrite bind_gets.
    destruct (_ =? _).
    + rewrite bind_log. simpl. eapply page_step_inv; [| exact H4].
      by apply page_step_emit.
    + eapply page_step_inv; [apply page_step_page_advance | exact H4].
Qed.

Lemma while_loop_inv fuel s :
  crawl_inv num_jobs s ->
  crawl_inv num_jobs (while_loop the_site num_jobs path_given fuel s).2.
Proof.
  revert s. induction fuel as [| fuel IH]; intros s Hi; simpl;
    rewrite bind_gets; destruct (_ <? _) eqn:E; try done.
  apply Z.ltb_lt in E.
  eapply (bind_leaves _ _ s (crawl_inv num_jobs));
    [by apply page_iteration_inv | done |].
  intros [] s1 H1; [done | by apply IH].
Qed.

End CrawlInvariant.

(** ** What extraction returns *)

Definition or_missing (o : option string) : pyval :=
  match o with Some t => PyStr t | None => missing end.

Definition has_line_break (c : string) : bool :=
  match split_once c with Some _ => true | None => false end.

(** The detail panel the fields after the description are read from: the
    one shown by the second click when the first had no description. *)
Definition consulted_view (jl : job_link) : view :=
  match v_description (jl_views jl 0) with
  | Some _ => jl_views jl 0
  | None => jl_views jl 1
  end.

(** Every company-details element of the panel read has a line break. *)
Definition extractable (jl : job_link) : bool :=
  forallb has_line_break (v_companydetails (consulted_view jl)).

(** The record [extract_fields] builds for a job link whose panel is
    [extractable] (lemma [extract_fields_returns]). *)
Definition expected_record (jl : job_link) : job_dict :=
  let v0 := jl_views jl 0 in
  let v := consulted_view jl in
  let d := details_of_dict (dict (omap split_once (v_companydetails v))) in
  let r := subratings_of_dict (subratings_dict (v_subratings v)) in
  {| job_title := or_missing (v_job_title v0);
     salary_estimate := or_missing (v_salary v);
     job_description := or_missing (v_description v);
     rating := or_missing (v_rating v);
     company_name := or_missing (v_company_name v0);
     location := or_missing (v_location v0);
     size := cd_size d; founded := cd_founded d;
     type_of_ownership := cd_type_of_ownership d;
     industry := cd_industry d; sector := cd_sector d; revenue := cd_revenue d;
     rating_culturevalues := sr_culturevalues r;
     rating_worklifebalance := sr_worklifebalance r;
     rating_seniormgmt := sr_seniormgmt r;
     rating_compbenefits := sr_compbenefits r;
     rating_careerops := sr_careerops r |}.

Lemma bind_returns {A B} (m : M A) (k : A -> M B) s a :
  (m s).1 = Ok a -> (m ≫= k) s = k a (m s).2.
Proof.
  intros H. unfold mbind, M_bind, bind. destruct (m s) as [r s1].
  simpl in H. by subst r.
Qed.

Lemma bind_raises {A B} (m : M A) (k : A -> M B) s e :
  (m s).1 = Raise e -> (m ≫= k) s = (Raise e, (m s).2).
Proof.
  intros H. unfold mbind, M_bind, bind. destruct (m s) as [r s1].
  simpl in H. by subst r.
Qed.

Definition same_detail (s s' : state) : Prop := drv_detail s' = drv_detail s.

#[global] Instance same_detail_preorder : PreOrder same_detail.
Proof. split; unfold same_detail; [done | intros ???; congruence]. Qed.

Ltac same_detail_auto :=
  repeat first [ always_step | (intros ?; reflexivity) ].

Lemma same_detail_scrape_scalar sel tried label :
  always same_detail (scrape_scalar sel tried label).
Proof. unfold scrape_scalar, find_element_text. same_detail_auto. Qed.

Lemma same_detail_scrape_rating : always same_detail scrape_rating.
Proof.
  unfold scrape_rating, find_element_text, logged_stale. same_detail_auto.
Qed.

Lemma same_detail_close_signup_popup : always same_detail close_signup_popup.
Proof. unfold close_signup_popup. same_detail_auto. Qed.

Lemma scrape_scalar_returns sel tried label s :
  (scrape_scalar sel tried label s).1 = Ok (or_missing (lookup_detail sel (drv_detail s))).
Proof.
  unfold scrape_scalar, try_except, find_element_text. rewrite bind_gets.
  by destruct (lookup_detail sel (drv_detail s)).
Qed.

Lemma scrape_rating_returns s :
  (scrape_rating s).1 = Ok (or_missing (v_rating (drv_detail s))).
Proof.
  unfold scrape_rating, finally, try_except, find_element_text.
  rewrite bind_gets. simpl. by destruct (v_rating (drv_detail s)).
Qed.

Lemma close_signup_popup_returns s : (close_signup_popup s).1 = Ok tt.
Proof.
  unfold close_signup_popup, try_except. rewrite bind_gets.
  by destruct (v_signup_popup (drv_detail s)).
Qed.

(** The description: read once, or twice around a second click. *)
Lemma scrape_description_returns jl s :
  drv_detail s = jl_views jl 0 ->
  (scrape_description jl s).1 = Ok (or_missing (v_description (consulted_view jl))) /\
  drv_detail (scrape_description jl s).2 = consulted_view jl.
Proof.
  intros H. unfold scrape_description, consulted_view, try_except, find_element_text.
  rewrite bind_gets, H. simpl.
  destruct (v_description (jl_views jl 0)) as [d |] eqn:E; simpl.
  { by rewrite E. }
  rewrite bind_log, bind_click_job_link, bind_gets. simpl.
  by destruct (v_description (jl_views jl 1)).
Qed.

Lemma split_details_ok l s :
  forallb has_line_break l = true ->
  split_details l s = (Ok (omap split_once l), s).
Proof.
  induction l as [| c l IH]; simpl; [done |]. unfold has_line_break at 1.
  destruct (split_once c) as [xy |]; simpl; [| done].
  intros H. by rewrite (bind_ok _ _ _ _ _ (IH H)).
Qed.

Lemma split_details_fail l s :
  forallb has_line_break l = false ->
  split_details l s = (Raise ValueError, s).
Proof.
  induction l as [| c l IH]; simpl; [done |]. unfold has_line_break at 1.
  destruct (split_once c) as [xy |]; simpl; [| done].
  intros H. unfold mbind, M_bind, bind. by rewrite (IH H).
Qed.

Lemma scrape_company_details_returns s :
  forallb has_line_break (v_companydetails (drv_detail s)) = true ->
  (scrape_company_details s).1 =
    Ok (details_of_dict (dict (omap split_once (v_companydetails (drv_detail s))))) /\
  drv_detail (scrape_company_details s).2 = drv_detail s.
Proof.
  intros H. unfold scrape_company_details, finally, try_except, find_elements_text.
  rewrite bind_gets, bind_emit. simpl.
  rewrite (bind_ok _ _ _ _ _ (split_details_ok _ _ H)). done.
Qed.

(** A company-details element without a line break: the unpacking raises
    [ValueError], which no clause catches; on the first job the [finally]
    suite then reads the unbound [size]. *)
Lemma scrape_company_details_raises s :
  forallb has_line_break (v_companydetails (drv_detail s)) = false ->
  (scrape_company_details s).1 =
    Raise (if locals_reset s then ValueError else UnboundLocalError "size").
Proof.
  intros H. unfold scrape_company_details, finally, try_except, find_elements_text.
  rewrite bind_gets, bind_emit. simpl.
  unfold mbind at 1, M_bind, bind. rewrite (split_details_fail _ _ H).
  unfold logged_stale. rewrite bind_gets. simpl.
  destruct (locals_reset s); done.
Qed.

Lemma scrape_subratings_returns s :
  (scrape_subratings s).1 =
    Ok (subratings_of_dict (subratings_dict (v_subratings (drv_detail s)))) /\
  drv_detail (scrape_subratings s).2 = drv_detail s.
Proof. done. Qed.

Lemma scalar_then {B} sel tried label (k : pyval -> M B) s v :
  detail_event (EvFind sel true) = true ->
  drv_detail s = v ->
  exists s', (scrape_scalar sel tried label ≫= k) s = k (or_missing (lookup_detail sel v)) s' /\
             drv_detail s' = v /\ job_step s s'.
Proof.
  intros Hd <-. exists (scrape_scalar sel tried label s).2. split; [| split].
  - apply bind_returns, scrape_scalar_returns.
  - apply same_detail_scrape_scalar.
  - by apply job_step_scrape_scalar.
Qed.

Ltac scalar_step H :=
  match goal with
  | |- context [(scrape_scalar ?sel ?t ?l ≫= ?k) ?s] =>
      let s' := fresh "s" in
      let H' := fresh "H" in
      let J := fresh "J" in
      destruct (scalar_then sel t l k s _ eq_refl H) as (s' & -> & H' & J);
      cbv beta
  end.

Lemma extract_fields_prefix {B} jl (k : pyval -> pyval -> pyval -> pyval -> pyval -> pyval -> M B) s :
  drv_detail s = jl_views jl 0 ->
  exists s',
    (company_name ← scrape_scalar SelCompanyName "company name" "Company Name";
     location ← scrape_scalar SelLocation "company name" "Location";
     job_title ← scrape_scalar SelJobTitle "job title" "Job Title";
     job_description ← scrape_description jl;
     salary_estimate ← scrape_scalar SelSalary "salary estimate" "Salary Estimate";
     rating ← scrape_rating;
     k company_name location job_title job_description salary_estimate rating) s =
    k (or_missing (v_company_name (jl_views jl 0)))
      (or_missing (v_location (jl_views jl 0)))
      (or_missing (v_job_title (jl_views jl 0)))
      (or_missing (v_description (consulted_view jl)))
      (or_missing (v_salary (consulted_view jl)))
      (or_missing (v_rating (consulted_view jl))) s' /\
    drv_detail s' = consulted_view jl /\ job_step s s'.
Proof.
  intros H0.
  scalar_step H0. scalar_step H. scalar_step H1.
  destruct (scrape_description_returns jl s2 H2) as [Ed Hd].
  rewrite (bind_returns _ _ _ _ Ed).
  set (s3 := (scrape_description jl s2).2) in *.
  assert (J3 : job_step s2 s3) by apply job_step_scrape_description.
  scalar_step Hd.
  rewrite (bind_returns _ _ _ _ (scrape_rating_returns s4)).
  exists (scrape_rating s4).2. split; [by rewrite H3 | split].
  - rewrite <- H3. apply same_detail_scrape_rating.
  - repeat (etransitivity; [eassumption |]). apply job_step_scrape_rating.
Qed.

(** Extraction of an [extractable] job returns [expected_record]. *)
Lemma extract_fields_returns jl s :
  drv_detail s = jl_views jl 0 -> extractable jl = true ->
  (extract_fields jl s).1 = Ok (expected_record jl).
Proof.
  intros H0 Hx. unfold extract_fields.
  destruct (extract_fields_prefix jl
              (fun company_name location job_title job_description salary_estimate rating =>
                 d ← scrape_company_details; r ← scrape_subratings;
                 ret {| job_title := job_title; salary_estimate := salary_estimate;
                        job_description := job_description; rating := rating;
                        company_name := company_name; location := location;
                        size := cd_size d; founded := cd_founded d;
                        type_of_ownership := cd_type_of_ownership d;
                        industry := cd_industry d; sector := cd_sector d;
                        revenue := cd_revenue d;
                        rating_culturevalues := sr_culturevalues r;
                        rating_worklifebalance := sr_worklifebalance r;
                        rating_seniormgmt := sr_seniormgmt r;
                        rating_compbenefits := sr_compbenefits r;
                        rating_careerops := sr_careerops r |})
              s H0) as (s1 & -> & H1 & J1).
  unfold extractable in Hx. rewrite <- H1 in Hx.
  destruct (scrape_company_details_returns s1 Hx) as [Ed Hd].
  rewrite (bind_returns _ _ _ _ Ed).
  destruct (scrape_subratings_returns (scrape_company_details s1).2) as [Er Hr].
  rewrite (bind_returns _ _ _ _ Er). simpl.
  unfold expected_record. by rewrite Hd, H1.
Qed.

(** Extraction of a job that is not [extractable] raises. *)
Lemma extract_fields_raises jl s :
  drv_detail s = jl_views jl 0 -> extractable jl = false ->
  (extract_fields jl s).1 =
    Raise (if locals_reset s then ValueError else UnboundLocalError "size").
Proof.
  intros H0 Hx. unfold extract_fields.
  destruct (extract_fields_prefix jl
              (fun company_name location job_title job_description salary_estimate rating =>
                 d ← scrape_company_details; r ← scrape_subratings;
                 ret {| job_title := job_title; salary_estimate := salary_estimate;
                        job_description := job_description; rating := rating;
                        company_name := company_name; location := location;
                        size := cd_size d; founded := cd_founded d;
                        type_of_ownership := cd_type_of_ownership d;
                        industry := cd_industry d; sector := cd_sector d;
                        revenue := cd_revenue d;
                        rating_culturevalues := sr_culturevalues r;
                        rating_worklifebalance := sr_worklifebalance r;
                        rating_seniormgmt := sr_seniormgmt r;
                        rating_compbenefits := sr_compbenefits r;
                        rating_careerops := sr_careerops r |})
              s H0) as (s1 & -> & H1 & J1).
  unfold extractable in Hx. rewrite <- H1 in Hx.
  rewrite (bind_raises _ _ _ _ (scrape_company_details_raises s1 Hx)). simpl.
  by rewrite (js_reset _ _ J1).
Qed.

(** ** What the loops return *)

(** The rows handed to the sink so far, whichever sink is in use. *)
Definition records (path_given : bool) (s : state) : list (list pyval) :=
  if path_given then csv_file s else job_details <$> default [] (jobs s).

(** [jobs] is bound when it is the sink. *)
Definition sink_ready (path_given : bool) (s : state) : Prop :=
  path_given = false -> is_Some (jobs s).

Definition loop_event (e : event) : bool :=
  detail_event e || is_job_start e ||
  match e with EvLog DEBUG (MsgTargetReached _ _) => true | _ => false end.

Lemma detail_event_loop e : detail_event e = true -> loop_event e = true.
Proof. unfold loop_event. by intros ->. Qed.

(** What the [for] loop leaves alone, and what it adds. *)
Record loop_step (path_given : bool) (k : nat) (added : list (list pyval))
    (s s' : state) : Prop := {
  ls_counter : job_counter s' = job_counter s + Z.of_nat k;
  ls_nextpage : nextpage_counter s' = nextpage_counter s;
  ls_page : drv_page s' = drv_page s;
  ls_url : drv_url s' = drv_url s;
  ls_records : records path_given s' = records path_given s ++ added;
  ls_ready : sink_ready path_given s';
  ls_trace : emitted loop_event s s';
}.

Section Loops.
Variable the_site : site.
Variable num_jobs : Z.
Variable path_given : bool.

Lemma scrape_job_returns jl s :
  extractable jl = true -> sink_ready path_given s ->
  (scrape_job num_jobs path_given jl s).1 = Ok tt /\
  loop_step path_given 1 [job_details (expected_record jl)] s
    (scrape_job num_jobs path_given jl s).2.
Proof.
  intros Hx Hr. rewrite scrape_job_unfold, bind_click_job_link.
  set (s1 := set_driver _ _ _ _).
  assert (E1 : emitted loop_event s s1).
  { exists [EvClick SelJobListing; EvLog INFO (MsgJob (job_counter s + 1) num_jobs)].
    split; [done | by repeat constructor]. }
  rewrite (bind_returns _ _ _ _ (close_signup_popup_returns s1)).
  set (s2 := (close_signup_popup s1).2).
  assert (J2 : job_step s1 s2) by apply job_step_close_signup_popup.
  assert (D2 : drv_detail s2 = jl_views jl 0) by apply same_detail_close_signup_popup.
  rewrite (bind_returns _ _ _ _ (extract_fields_returns jl s2 D2 Hx)).
  set (s3 := (extract_fields jl s2).2).
  assert (J3 : job_step s1 s3).
  { etransitivity; [exact J2 | apply job_step_extract_fields]. }
  destruct J3 as [Jc Jn Jp Ju Jj Jv Jr Jt].
  assert (E3 : emitted loop_event s s3).
  { eapply emitted_trans; [exact E1 |].
    eapply emitted_weaken; [apply detail_event_loop | exact Jt]. }
  unfold store, sink_ready, records in *. destruct path_given.
  - rewrite bind_modify. simpl. split; [done |].
    split; simpl; rewrite ?Jc, ?Jn, ?Jp, ?Ju, ?Jv; try done.
  - rewrite bind_assoc, bind_gets, Jj. simpl.
    destruct (Hr eq_refl) as [l Hl]. rewrite Hl.
    rewrite bind_modify. simpl. split; [done |].
    split; simpl; rewrite ?Jc, ?Jn, ?Jp, ?Ju, ?Jv; try done.
    + by rewrite Hl, fmap_app.
    + intros _. simpl. eauto.
Qed.

Lemma loop_step_refl s :
  sink_ready path_given s -> loop_step path_given 0 [] s s.
Proof.
  intros H. split; auto using emitted_refl; [lia | by rewrite app_nil_r].
Qed.

Lemma loop_step_trans k1 k2 a1 a2 s1 s2 s3 :
  loop_step path_given k1 a1 s1 s2 -> loop_step path_given k2 a2 s2 s3 ->
  loop_step path_given (k1 + k2) (a1 ++ a2) s1 s3.
Proof.
  intros [] []. split; try congruence; eauto using emitted_trans.
  - lia.
  - rewrite app_assoc. congruence.
Qed.

(** The [for] loop over links of which the first [k] are scraped: [k] is
    the whole page, or the number of jobs still wanted. *)
Lemma for_job_links_returns job_links : forall s (k : nat),
  sink_ready path_given s ->
  job_counter s < num_jobs ->
  (k <= length job_links)%nat ->
  job_counter s + Z.of_nat k <= num_jobs ->
  ((k < length job_links)%nat -> job_counter s + Z.of_nat k = num_jobs) ->
  Forall (fun jl => extractable jl = true) (take k job_links) ->
  (for_job_links num_jobs path_given job_links s).1 = Ok tt /\
  loop_step path_given k
    ((fun jl => job_details (expected_record jl)) <$> take k job_links) s
    (for_job_links num_jobs path_given job_links s).2.
Proof.
  induction job_links as [| jl rest IH]; intros s k Hr Hlt Hk Hn Hstop Hx.
  - simpl in *. assert (k = 0%nat) as -> by lia. simpl.
    split; [done | by apply loop_step_refl].
  - destruct k as [| k].
    { simpl in Hstop. lia. }
    simpl in Hk, Hx. apply Forall_cons in Hx as [Hx1 Hx].
    destruct (scrape_job_returns jl s Hx1 Hr) as [E1 L1].
    simpl. rewrite (bind_returns _ _ _ _ E1), bind_gets.
    set (s1 := (scrape_job num_jobs path_given jl s).2) in *.
    pose proof (ls_counter _ _ _ _ _ L1) as C1.
    destruct (job_counter s1 =? num_jobs) eqn:E.
    + apply Z.eqb_eq in E. assert (k = 0%nat) as -> by lia.
      rewrite take_0. simpl. split; [done |].
      change (S 0) with (1 + 0)%nat.
      change [job_details (expected_record jl)]
        with ([job_details (expected_record jl)] ++ []).
      eapply loop_step_trans; [exact L1 |].
      destruct L1. split; simpl; try done; [lia | by rewrite app_nil_r |].
      apply emitted_one. by rewrite E.
    + apply Z.eqb_neq in E.
      destruct (IH s1 k) as [E2 L2]; try done; try lia.
      { by destruct L1. }
      { intros H. simpl in Hstop. rewrite C1. specialize (Hstop ltac:(lia)). lia. }
      split; [done |].
      change (S k) with (1 + k)%nat.
      exact (loop_step_trans _ _ [_] _ _ _ _ L1 L2).
Qed.

End Loops.

(** ** One page *)

Definition entry_event (e : event) : bool :=
  match e with
  | EvFind SelCookies _ | EvClick SelCookies
  | EvFindAll SelJobListing _ | EvFindAll SelViewedDate _ => true
  | _ => false
  end.

(** Page entry changes nothing but the trace, which gains the page header
    and then entry events. *)
Record entry_step (s s' : state) : Prop := {
  es_counter : job_counter s' = job_counter s;
  es_nextpage : nextpage_counter s' = nextpage_counter s;
  es_page : drv_page s' = drv_page s;
  es_url : drv_url s' = drv_url s;
  es_jobs : jobs s' = jobs s;
  es_csv : csv_file s' = csv_file s;
  es_trace : exists evs,
      trace s' = evs ++ EvLog INFO (MsgPage (nextpage_counter s + 1)) :: trace s /\
      Forall (fun e => entry_event e = true) evs;
}.

Section Pages.
Variable the_site : site.
Variable num_jobs : Z.
Variable path_given : bool.

Lemma close_cookies_returns s :
  exists evs,
    close_cookies the_site s = (Ok tt, foldr record_event s evs) /\
    Forall (fun e => entry_event e = true) evs.
Proof.
  unfold close_cookies, try_except. rewrite bind_current_page.
  destruct (p_cookies (the_site (drv_page s))); simpl.
  - exists [EvFind SelCookies false]. split; [done | by repeat constructor].
  - exists [EvFind SelCookies true]. split; [done | by repeat constructor].
  - exists [EvClick SelCookies; EvFind SelCookies true].
    split; [done | by repeat constructor].
Qed.

Lemma foldr_record_event_fields evs s :
  let s' := foldr record_event s evs in
  job_counter s' = job_counter s /\ nextpage_counter s' = nextpage_counter s /\
  drv_page s' = drv_page s /\ drv_url s' = drv_url s /\ jobs s' = jobs s /\
  csv_file s' = csv_file s /\ trace s' = evs ++ trace s.
Proof.
  induction evs as [| e evs IH]; simpl; [done |].
  destruct IH as (? & ? & ? & ? & ? & ? & ?). repeat split; congruence.
Qed.

(** Lines 126-149: the state in which the dedup check is made. *)
Definition entered (s : state) : state :=
  let p := the_site (drv_page s) in
  record_event (EvFindAll SelViewedDate (length (p_vieweddate p)))
    (record_event (EvFindAll SelJobListing (length (p_job_links p)))
       (close_cookies the_site
          (record_event (EvLog INFO (MsgPage (nextpage_counter s + 1))) s)).2).

Lemma entered_step s : entry_step s (entered s).
Proof.
  unfold entered.
  destruct (close_cookies_returns
              (record_event (EvLog INFO (MsgPage (nextpage_counter s + 1))) s))
    as (evs & -> & F).
  simpl.
  destruct (foldr_record_event_fields evs
              (record_event (EvLog INFO (MsgPage (nextpage_counter s + 1))) s))
    as (? & ? & ? & ? & ? & ? & Ht).
  split; simpl; try done.
  eexists (_ :: _ :: evs). split; [by rewrite Ht |].
  by repeat constructor.
Qed.

Lemma page_iteration_unfold s :
  page_iteration the_site num_jobs path_given s =
  let p := the_site (drv_page s) in
  let n := nextpage_counter s in
  if (length (p_vieweddate p) =? length (p_job_links p))%nat then
    (Ok Break, record_event (EvLog INFO (MsgAllScraped (n + 1))) (entered s))
  else
    (for_job_links num_jobs path_given (p_job_links p);;
     k ← gets job_counter;
     if k =? num_jobs then log DEBUG MsgTargetScraped;; ret Break
     else page_advance the_site num_jobs)
      (record_event
         (EvLog INFO (MsgSomeScraped (length (p_vieweddate p)) (n + 1)))
         (entered s)).
Proof.
  unfold page_iteration, entered. rewrite bind_gets, bind_log.
  destruct (close_cookies_returns
              (record_event (EvLog INFO (MsgPage (nextpage_counter s + 1))) s))
    as (evs & E & _).
  rewrite (bind_ok _ _ _ _ _ E), E, bind_current_page. simpl.
  destruct (foldr_record_event_fields evs
              (record_event (EvLog INFO (MsgPage (nextpage_counter s + 1))) s))
    as (_ & _ & -> & _).
  simpl. rewrite !bind_emit.
  destruct (_ =? _)%nat eqn:Eq; [done |].
  by rewrite bind_log.
Qed.

(** The dedup check at page entry: when every link has a viewed marker the
    turn ends the loop before any job is opened. *)
Lemma page_iteration_caught_up s :
  let p := the_site (drv_page s) in
  length (p_vieweddate p) = length (p_job_links p) ->
  page_iteration the_site num_jobs path_given s =
    (Ok Break,
     record_event (EvLog INFO (MsgAllScraped (nextpage_counter s + 1))) (entered s)).
Proof.
  intros p H. rewrite page_iteration_unfold. cbv zeta. unfold p in H.
  by rewrite H, Nat.eqb_refl.
Qed.

Lemma while_loop_caught_up fuel s :
  let p := the_site (drv_page s) in
  job_counter s < num_jobs ->
  length (p_vieweddate p) = length (p_job_links p) ->
  while_loop the_site num_jobs path_given (S fuel) s =
    (Ok tt,
     record_event (EvLog INFO (MsgAllScraped (nextpage_counter s + 1))) (entered s)).
Proof.
  intros p Hlt H. simpl. rewrite bind_gets.
  apply Z.ltb_lt in Hlt. rewrite Hlt.
  by rewrite (bind_ok _ _ _ _ _ (page_iteration_caught_up s H)).
Qed.

End Pages.

(** ** The whole run *)

(** [validatepath] accepts [None] and the name of a directory. *)
Definition path_ok (isdir : string -> bool) (path : pyval) : bool :=
  match path with
  | PyNone => true
  | PyStr p => isdir p
  | PyInt _ => false
  end.

(** The state in which the [while] loop is entered (lines 90-112). *)
Definition ready_state (path_given : bool) : state :=
  set_nextpage_counter 0
    (set_job_counter 0
       (set_driver start_url 0 blank_view
          (record_event (EvGet start_url)
             (record_event EvChrome
                (if path_given then initial_state
                 else set_jobs (Some []) initial_state))))).

Lemma get_jobs_valid isdir the_site fuel n verbose path :
  1 <= n <= 900 -> path_ok isdir path = true ->
  run isdir the_site fuel (PyInt n) verbose path =
  (while_loop the_site n (negb (is_none path)) fuel;;
   if negb (is_none path) then log INFO (MsgSavedCsv n);; ret None
   else js ← gets jobs; log INFO (MsgReturnedDataFrame n);; ret js)
    (ready_state (negb (is_none path))).
Proof.
  intros Hn Hp. unfold run, get_jobs, validatenumjobs.
  assert ((n <=? 0) || (n >? 900) = false) as ->.
  { apply orb_false_intro; [apply Z.leb_gt | rewrite Z.gtb_ltb; apply Z.ltb_ge]; lia. }
  destruct path as [| z | p]; simpl in Hp; try done.
  simpl. by rewrite Hp.
Qed.

Lemma get_jobs_rejects isdir the_site fuel num_jobs verbose path :
  (forall n, num_jobs = PyInt n -> ~ (1 <= n <= 900) \/ path_ok isdir path = false) ->
  exists e, run isdir the_site fuel num_jobs verbose path = (Raise e, initial_state).
Proof.
  intros H. unfold run, get_jobs, validatenumjobs.
  destruct num_jobs as [| n | t]; [by eexists | | by eexists].
  destruct ((n <=? 0) || (n >? 900)) eqn:E; [by eexists |].
  apply orb_false_elim in E as [E1 E2].
  apply Z.leb_gt in E1. rewrite Z.gtb_ltb in E2. apply Z.ltb_ge in E2.
  destruct (H n eq_refl) as [Hn | Hp]; [lia |].
  destruct path as [| z | p]; simpl in Hp; try done; [by eexists |].
  simpl. rewrite Hp. by eexists.
Qed.

Lemma ready_state_inv n pg : 1 <= n -> crawl_inv n (ready_state pg).
Proof. intros H. split; destruct pg; simpl; try done; lia. Qed.

(** Whatever a validated run does, it ends with the crawl invariant. *)
Lemma run_inv isdir the_site fuel n verbose path :
  1 <= n <= 900 -> path_ok isdir path = true ->
  crawl_inv n (run isdir the_site fuel (PyInt n) verbose path).2.
Proof.
  intros Hn Hp. rewrite (get_jobs_valid _ _ _ _ _ _ Hn Hp).
  eapply (bind_leaves _ _ _ (crawl_inv n)).
  - apply while_loop_inv, ready_state_inv. lia.
  - done.
  - intros _ s1 H1. eapply page_step_inv; [| exact H1].
    destruct (negb _); unfold log.
    + assert (always page_step
                (emit (EvLog INFO (MsgSavedCsv n));; ret (@None (list job_dict))))
        as H by page_step_auto.
      apply H.
    + assert (always page_step
                (js ← gets jobs; emit (EvLog INFO (MsgReturnedDataFrame n));; ret js))
        as H by page_step_auto.
      apply H.
Qed.

(** What the state after a "caught up" page entry looks like. *)
Lemma caught_up_state the_site s :
  let s' := record_event (EvLog INFO (MsgAllScraped (nextpage_counter s + 1)))
              (entered the_site s) in
  job_counter s' = job_counter s /\
  jobs s' = jobs s /\ csv_file s' = csv_file s /\
  count_events is_job_click (trace s') = count_events is_job_click (trace s) /\
  count_events is_job_start (trace s') = count_events is_job_start (trace s) /\
  count_events is_page_entry (trace s') = S (count_events is_page_entry (trace s)).
Proof.
  destruct (entered_step the_site s) as [Hc _ _ _ Hj Hv (evs & Ht & F)].
  cbn [job_counter jobs csv_file trace record_event].
  rewrite Hc, Hj, Hv, Ht. repeat split.
  all: rewrite count_events_cons, count_events_app, count_events_cons; simpl.
  all: rewrite (count_events_none _ entry_event evs); [done | | done].
  all: by intros [| | | [] | [] | [] |].
Qed.

(** * The claims *)

(** ** Example data *)

Definition view_acme : view :=
  {| v_signup_popup := false; v_company_name := Some "Acme";
     v_location := Some "Leeds"; v_job_title := Some "Data Scientist";
     v_description := Some "Build models"; v_salary := Some "50K";
     v_rating := Some "4.1";
     v_companydetails := [String.append "Size" (String newline "51 to 200");
                          String.append "Colour" (String newline "Blue")];
     v_subratings := ["Culture & Values"; "4.0"; "Perks"; "3.0"] |}.

Definition link_acme : job_link := {| jl_views := fun _ => view_acme |}.

(** A page of [n] unseen jobs. *)
Definition page_of (n : nat) (next : next_button) : page :=
  {| p_cookies := BannerAbsent; p_job_links := replicate n link_acme;
     p_vieweddate := []; p_next := next |}.

(** A listing whose jobs all carry the "viewed" marker. *)
Definition page_all_viewed (n : nat) : page :=
  {| p_cookies := BannerClickable; p_job_links := replicate n link_acme;
     p_vieweddate := replicate n "Viewed 3 Nov"; p_next := NextAbsent |}.

Definition any_dir (p : string) : bool := true.

(** Validation comes before the session: a rejected argument leaves the
    trace empty. *)
Example rejects_zero :
  run any_dir (fun _ => page_of 3 NextAbsent) 5 (PyInt 0) false PyNone
  = (Raise ValueError, initial_state).
Proof. reflexivity. Qed.

Example rejects_901 :
  run any_dir (fun _ => page_of 3 NextAbsent) 5 (PyInt 901) false PyNone
  = (Raise ValueError, initial_state).
Proof. reflexivity. Qed.

Example rejects_text :
  run any_dir (fun _ => page_of 3 NextAbsent) 5 (PyStr "5") false PyNone
  = (Raise TypeError, initial_state).
Proof. reflexivity. Qed.

Example rejects_missing_directory :
  run (fun _ => false) (fun _ => page_of 3 NextAbsent) 5 (PyInt 5) false (PyStr "nowhere")
  = (Raise ValueError, initial_state).
Proof. reflexivity. Qed.

(** ** C2 *)

(** C2: at page entry, before any job of the page is opened, the crawl
    compares the number of viewed markers with the number of job links;
    when they are equal the loop ends at once with no job of that page
    processed.  A run whose first page has every job marked as viewed
    therefore returns with [job_counter = 0] and nothing stored. *)
Theorem C2_caught_up_at_page_entry :
  (forall the_site num_jobs path_given fuel s,
     job_counter s < num_jobs ->
     length (p_vieweddate (the_site (drv_page s))) =
       length (p_job_links (the_site (drv_page s))) ->
     exists s',
       while_loop the_site num_jobs path_given (S fuel) s = (Ok tt, s') /\
       job_counter s' = job_counter s /\
       records path_given s' = records path_given s /\
       count_events is_job_click (trace s') = count_events is_job_click (trace s) /\
       head (trace s') = Some (EvLog INFO (MsgAllScraped (nextpage_counter s + 1)))) /\
  (forall isdir the_site fuel n verbose path,
     1 <= n <= 900 -> path_ok isdir path = true ->
     length (p_vieweddate (the_site 0%nat)) = length (p_job_links (the_site 0%nat)) ->
     exists s',
       run isdir the_site (S fuel) (PyInt n) verbose path =
         (Ok (if is_none path then Some [] else None), s') /\
       job_counter s' = 0 /\
       records (negb (is_none path)) s' = [] /\
       count_events is_job_click (trace s') = 0%nat /\
       count_events is_page_entry (trace s') = 1%nat /\
       EvLog INFO (MsgAllScraped 1) ∈ trace s').
Proof.
  split.
  - intros the_site num_jobs path_given fuel s Hlt Hall.
    eexists. split; [by apply while_loop_caught_up |].
    destruct (caught_up_state the_site s) as (Hc & Hj & Hv & Hk & _).
    repeat split; try done.
    unfold records. by rewrite Hj, Hv.
  - intros isdir the_site fuel n verbose path Hn Hp Hall.
    rewrite (get_jobs_valid _ _ _ _ _ _ Hn Hp).
    assert (Hlt : forall pg, job_counter (ready_state pg) < n) by (intros []; simpl; lia).
    destruct path as [| z | p]; simpl in Hp; try done; cbn [is_none negb].
    + rewrite (bind_ok _ _ _ _ _
                 (while_loop_caught_up the_site n false fuel _ (Hlt false) Hall)).
      destruct (caught_up_state the_site (ready_state false))
        as (Hc & Hj & Hv & Hk & _ & He).
      set (s1 := record_event _ (entered the_site (ready_state false))) in *.
      rewrite bind_gets, Hj, bind_log.
      eexists. split; [reflexivity |].
      unfold records. cbn [job_counter jobs csv_file trace record_event].
      rewrite Hj, Hc, !count_events_cons, Hk, He.
      repeat split; try done.
      apply elem_of_cons. right. apply elem_of_cons. by left.
    + rewrite (bind_ok _ _ _ _ _
                 (while_loop_caught_up the_site n true fuel _ (Hlt true) Hall)).
      destruct (caught_up_state the_site (ready_state true))
        as (Hc & Hj & Hv & Hk & _ & He).
      set (s1 := record_event _ (entered the_site (ready_state true))) in *.
      rewrite bind_log.
      eexists. split; [reflexivity |].
      unfold records. cbn [job_counter jobs csv_file trace record_event].
      rewrite Hv, Hc, !count_events_cons, Hk, He.
      repeat split; try done.
      apply elem_of_cons. right. apply elem_of_cons. by left.
Qed.

Lemma C2_witness :
  exists s',
    run any_dir (fun _ => page_all_viewed 20) 1 (PyInt 50) false PyNone =
      (Ok (Some []), s') /\
    job_counter s' = 0 /\
    records false s' = [] /\
    count_events is_job_click (trace s') = 0%nat /\
    count_events is_page_entry (trace s') = 1%nat /\
    EvLog INFO (MsgAllScraped 1) ∈ trace s'.
Proof.
  apply (proj2 C2_caught_up_at_page_entry any_dir
           (fun _ => page_all_viewed 20) 0%nat 50 false PyNone);
    [lia | reflexivity | reflexivity].
Defined.

(** ** C10 *)

(** C10: a page on which no job link and no viewed marker is found passes
    the dedup comparison (0 = 0): the loop ends through the same branch
    as a caught-up page, with the same log line and no job processed. *)
Theorem C10_empty_page_is_caught_up the_site num_jobs path_given fuel s :
  job_counter s < num_jobs ->
  p_job_links (the_site (drv_page s)) = [] ->
  p_vieweddate (the_site (drv_page s)) = [] ->
  exists s',
    while_loop the_site num_jobs path_given (S fuel) s = (Ok tt, s') /\
    job_counter s' = job_counter s /\
    records path_given s' = records path_given s /\
    count_events is_job_click (trace s') = count_events is_job_click (trace s) /\
    head (trace s') = Some (EvLog INFO (MsgAllScraped (nextpage_counter s + 1))).
Proof.
  intros Hlt Hl Hv.
  eexists. split.
  - apply while_loop_caught_up; [done |]. by rewrite Hl, Hv.
  - destruct (caught_up_state the_site s) as (Hc & Hj & Hcsv & Hk & _).
    repeat split; try done.
    unfold records. by rewrite Hj, Hcsv.
Qed.

Lemma C10_witness :
  exists s',
    while_loop (fun _ => page_of 0 NextAbsent) 7 false 1 (ready_state false) =
      (Ok tt, s') /\
    job_counter s' = job_counter (ready_state false) /\
    records false s' = records false (ready_state false) /\
    count_events is_job_click (trace s') =
      count_events is_job_click (trace (ready_state false)) /\
    head (trace s') =
      Some (EvLog INFO (MsgAllScraped (nextpage_counter (ready_state false) + 1))).
Proof.
  apply (C10_empty_page_is_caught_up (fun _ => page_of 0 NextAbsent) 7 false 0
           (ready_state false)); [simpl; lia | reflexivity | reflexivity].
Defined.


(** ** C4 *)

(** C4: the counter is 0 when the loop is entered, every job opened adds
    exactly one to it whatever becomes of the job, and for a target in
    [1, 900] the run ends, on every path, with
    [0 <= job_counter <= num_jobs]; the counter equals the number of jobs
    started. *)
Theorem C4_counter_within_target :
  (forall path_given, job_counter (ready_state path_given) = 0) /\
  (forall num_jobs path_given jl s,
     job_counter (scrape_job num_jobs path_given jl s).2 = job_counter s + 1) /\
  (forall isdir the_site fuel n verbose path,
     1 <= n <= 900 ->
     let s := (run isdir the_site fuel (PyInt n) verbose path).2 in
     0 <= job_counter s <= n /\
     job_counter s = Z.of_nat (count_events is_job_start (trace s))).
Proof.
  split; [by intros [] | split].
  - intros num_jobs path_given jl s. rewrite scrape_job_unfold.
    by rewrite (ps_counter _ _ (page_step_after_count path_given jl _)).
  - intros isdir the_site fuel n verbose path Hn.
    destruct (path_ok isdir path) eqn:Hp.
    + destruct (run_inv isdir the_site fuel n verbose path Hn Hp) as [Hc Hj _ _].
      simpl. by rewrite Hj.
    + destruct (get_jobs_rejects isdir the_site fuel (PyInt n) verbose path)
        as [e ->]; [by right |].
      split; [simpl; lia | reflexivity].
Qed.

Lemma C4_witness :
  let s := (run any_dir (fun _ => page_of 3 NextAbsent) 4 (PyInt 5) false PyNone).2 in
  0 <= job_counter s <= 5 /\
  job_counter s = Z.of_nat (count_events is_job_start (trace s)).
Proof.
  apply (proj2 (proj2 C4_counter_within_target) any_dir
           (fun _ => page_of 3 NextAbsent) 4%nat 5 false PyNone).
  lia.
Defined.

(** ** C9 *)

(** The inputs both validation functions let through. *)
Definition accepted (isdir : string -> bool) (num_jobs path : pyval) : bool :=
  match num_jobs with
  | PyInt n => (1 <=? n) && (n <=? 900) && path_ok isdir path
  | _ => false
  end.

(** C9 as stated fails: a run that completes normally has released the
    session zero times, not once. *)
Lemma C9_counterexample :
  let r := run any_dir (fun _ => page_of 2 NextAbsent) 3 (PyInt 2) false PyNone in
  (exists v, r.1 = Ok v) /\
  count_events is_session_open (trace r.2) = 1%nat /\
  count_events is_session_quit (trace r.2) <> 1%nat.
Proof. vm_compute. split; [by eexists | split; [done | discriminate]]. Qed.

(** An accepted call on a host that fails: it ends at line 76 when the log
    file cannot be opened, and otherwise at line 102, with the sink chosen,
    when the browser cannot be started. *)
Lemma get_jobs_host_fails isdir h the_site fuel num_jobs verbose path :
  accepted isdir num_jobs path = true ->
  log_opens h && chrome_starts h = false ->
  get_jobs isdir h the_site fuel num_jobs verbose path initial_state =
    if log_opens h
    then (Raise WebDriverException,
          if negb (is_none path) then initial_state
          else set_jobs (Some []) initial_state)
    else (Raise OSError, initial_state).
Proof.
  intros Ha Hh. unfold get_jobs, validatenumjobs.
  destruct num_jobs as [| n | t]; simpl in Ha; try done.
  apply andb_true_iff in Ha as [Hn Hp]. apply andb_true_iff in Hn as [H1 H2].
  apply Z.leb_le in H1, H2.
  assert ((n <=? 0) || (n >? 900) = false) as ->.
  { apply orb_false_intro; [apply Z.leb_gt | rewrite Z.gtb_ltb; apply Z.ltb_ge]; lia. }
  destruct h as [lo cs]. cbn [log_opens chrome_starts] in *.
  destruct path as [| z | p]; simpl in Hp; try done.
  - destruct lo; [| done]. simpl in Hh. subst cs. reflexivity.
  - destruct lo; simpl; rewrite Hp; [| done]. simpl in Hh. subst cs. reflexivity.
Qed.

(** Validation comes before the logger and the browser: a rejected call
    does not depend on the host. *)
Lemma get_jobs_rejects_early isdir h the_site fuel num_jobs verbose path :
  accepted isdir num_jobs path = false ->
  get_jobs isdir h the_site fuel num_jobs verbose path initial_state =
    run isdir the_site fuel num_jobs verbose path.
Proof.
  intros Ha. unfold run, get_jobs, validatenumjobs.
  destruct num_jobs as [| n | t]; simpl in Ha; try done.
  destruct ((n <=? 0) || (n >? 900)) eqn:E; [done |].
  apply orb_false_elim in E as [E1 E2].
  apply Z.leb_gt in E1. rewrite Z.gtb_ltb in E2. apply Z.ltb_ge in E2.
  assert ((1 <=? n) = true) as H1 by (apply Z.leb_le; lia).
  assert ((n <=? 900) = true) as H2 by (apply Z.leb_le; lia).
  rewrite H1, H2 in Ha. simpl in Ha.
  destruct path as [| z | p]; simpl in Ha; try done.
  simpl. by rewrite Ha.
Qed.

(** C9, amended: the browser session is created exactly once, after both
    arguments have been validated and the log file has been opened, and
    not at all when validation rejects the arguments, the log file cannot
    be opened or the browser cannot be started; [get_jobs] never releases
    it, on any exit path. *)
Theorem C9_session_opened_once_never_released
    isdir h the_site fuel num_jobs verbose path :
  let s := (get_jobs isdir h the_site fuel num_jobs verbose path initial_state).2 in
  count_events is_session_open (trace s) =
    (if accepted isdir num_jobs path && log_opens h && chrome_starts h
     then 1%nat else 0%nat) /\
  count_events is_session_quit (trace s) = 0%nat.
Proof.
  destruct (accepted isdir num_jobs path) eqn:Ha.
  - destruct (log_opens h && chrome_starts h) eqn:Hh; cbn [andb]; rewrite Hh.
    + apply andb_true_iff in Hh as [Hl Hc]. destruct h as [lo cs].
      cbn [log_opens chrome_starts] in *. subst lo cs.
      change (get_jobs isdir {| log_opens := true; chrome_starts := true |}
                the_site fuel num_jobs verbose path initial_state)
        with (run isdir the_site fuel num_jobs verbose path).
      destruct num_jobs as [| n | t]; simpl in Ha; try done.
      apply andb_true_iff in Ha as [Hn Hp]. apply andb_true_iff in Hn as [H1 H2].
      apply Z.leb_le in H1, H2.
      by destruct (run_inv isdir the_site fuel n verbose path (conj H1 H2) Hp).
    + rewrite get_jobs_host_fails by done.
      destruct (log_opens h); [| done]. by destruct (negb (is_none path)).
  - rewrite get_jobs_rejects_early by done.
    destruct (get_jobs_rejects isdir the_site fuel num_jobs verbose path)
      as [e ->]; [| done].
    intros n ->. simpl in Ha.
    destruct (path_ok isdir path); [left | by right].
    rewrite andb_true_r in Ha. apply andb_false_iff in Ha as [H | H].
    + apply Z.leb_gt in H. lia.
    + apply Z.leb_gt in H. lia.
Qed.

(** ** C3 *)

Lemma while_loop_unfold the_site num_jobs path_given fuel s :
  while_loop the_site num_jobs path_given (S fuel) s =
  if job_counter s <? num_jobs then
    match page_iteration the_site num_jobs path_given s with
    | (Ok Break, s') => (Ok tt, s')
    | (Ok Continue, s') => while_loop the_site num_jobs path_given fuel s'
    | (Raise e, s') => (Raise e, s')
    | (SysExit c, s') => (SysExit c, s')
    | (OutOfFuel, s') => (OutOfFuel, s')
    end
  else (Ok tt, s).
Proof.
  cbn [while_loop]. rewrite bind_gets. destruct (_ <? _); [| done].
  unfold mbind, M_bind, bind.
  by destruct (page_iteration _ _ _ s) as [[[] | | |] ?].
Qed.

(** A page on which the jobs still wanted are all there: the turn scrapes
    exactly that many jobs and ends the loop at line 427, without reaching
    the next-page click. *)
Lemma while_loop_target_reached the_site num_jobs path_given fuel s :
  let p := the_site (drv_page s) in
  let k := Z.to_nat (num_jobs - job_counter s) in
  sink_ready path_given s ->
  job_counter s < num_jobs ->
  length (p_vieweddate p) <> length (p_job_links p) ->
  (k <= length (p_job_links p))%nat ->
  forallb extractable (take k (p_job_links p)) = true ->
  exists s3,
    while_loop the_site num_jobs path_given (S fuel) s =
      (Ok tt, record_event (EvLog DEBUG MsgTargetScraped) s3) /\
    loop_step path_given k
      ((fun jl => job_details (expected_record jl)) <$> take k (p_job_links p))
      (record_event
         (EvLog INFO (MsgSomeScraped (length (p_vieweddate p)) (nextpage_counter s + 1)))
         (entered the_site s))
      s3.
Proof.
  intros p k Hr Hlt Hne Hk Hx.
  destruct (entered_step the_site s) as [Hc _ _ _ Hj _ _].
  set (s2 := record_event
               (EvLog INFO (MsgSomeScraped (length (p_vieweddate p)) (nextpage_counter s + 1)))
               (entered the_site s)).
  assert (Hc2 : job_counter s2 = job_counter s) by exact Hc.
  destruct (for_job_links_returns num_jobs path_given (p_job_links p) s2 k)
    as [E L].
  { intros Hp. unfold s2. cbn [jobs record_event]. rewrite Hj. by apply Hr. }
  { by rewrite Hc2. }
  { done. }
  { rewrite Hc2. unfold k. lia. }
  { intros _. rewrite Hc2. unfold k. lia. }
  { apply Forall_forall. intros jl Hin.
    apply (proj1 (forallb_forall _ _) Hx). by apply list_elem_of_In. }
  exists (for_job_links num_jobs path_given (p_job_links p) s2).2.
  split; [| exact L].
  rewrite while_loop_unfold. apply Z.ltb_lt in Hlt as Hlt'. rewrite Hlt'.
  rewrite page_iteration_unfold. cbv zeta. fold p.
  apply Nat.eqb_neq in Hne. rewrite Hne. fold s2.
  rewrite (bind_returns _ _ _ _ E), bind_gets.
  rewrite (ls_counter _ _ _ _ _ L), Hc2.
  assert (job_counter s + Z.of_nat k = num_jobs) as -> by (unfold k; lia).
  by rewrite Z.eqb_refl.
Qed.

(** How often an event of a given kind occurs in the trace once a page has
    been entered and its [for] loop has run. *)
Lemma scraped_page_count P the_site pg k added v s s3 :
  (forall e, loop_event e = true -> P e = false) ->
  (forall e, entry_event e = true -> P e = false) ->
  (forall a b, P (EvLog INFO (MsgSomeScraped a b)) = false) ->
  loop_step pg k added
    (record_event (EvLog INFO (MsgSomeScraped v (nextpage_counter s + 1)))
       (entered the_site s)) s3 ->
  count_events P (trace s3) =
    ((if P (EvLog INFO (MsgPage (nextpage_counter s + 1))) then 1 else 0) +
     count_events P (trace s))%nat.
Proof.
  intros HL HE HS [_ _ _ _ _ _ Ht].
  rewrite (emitted_count P loop_event _ _ HL Ht).
  cbn [trace record_event]. rewrite count_events_cons, HS.
  destruct (entered_step the_site s) as [_ _ _ _ _ _ (evs & -> & F)].
  rewrite count_events_app, count_events_cons.
  by rewrite (count_events_none P entry_event evs HE F).
Qed.

(** A first page that is not all viewed and lists at least [n] extractable
    jobs: the run scrapes the first [n] and returns. *)
Lemma run_target_reached isdir the_site fuel n verbose path :
  let p := the_site 0%nat in
  1 <= n <= 900 ->
  path_ok isdir path = true ->
  length (p_vieweddate p) <> length (p_job_links p) ->
  (Z.to_nat n <= length (p_job_links p))%nat ->
  forallb extractable (take (Z.to_nat n) (p_job_links p)) = true ->
  exists res s',
    run isdir the_site (S fuel) (PyInt n) verbose path = (Ok res, s') /\
    job_counter s' = n /\
    nextpage_counter s' = 0%nat /\
    records (negb (is_none path)) s' =
      (fun jl => job_details (expected_record jl)) <$> take (Z.to_nat n) (p_job_links p) /\
    EvLog DEBUG MsgTargetScraped ∈ trace s' /\
    count_events is_next_attempt (trace s') = 0%nat /\
    count_events is_page_entry (trace s') = 1%nat.
Proof.
  intros p Hn Hp Hne Hk Hx.
  rewrite (get_jobs_valid _ _ _ _ _ _ Hn Hp).
  set (pg := negb (is_none path)).
  destruct (while_loop_target_reached the_site n pg fuel (ready_state pg))
    as (s3 & E & L).
  { intros ->. simpl. eauto. }
  { destruct pg; simpl; lia. }
  { by destruct pg. }
  { replace (job_counter (ready_state pg)) with 0 by (by destruct pg).
    rewrite Z.sub_0_r. by destruct pg. }
  { replace (job_counter (ready_state pg)) with 0 by (by destruct pg).
    rewrite Z.sub_0_r. by destruct pg. }
  replace (job_counter (ready_state pg)) with 0 in L by (by destruct pg).
  replace (drv_page (ready_state pg)) with 0%nat in L by (by destruct pg).
  rewrite Z.sub_0_r in L. fold p in L.
  rewrite (bind_ok _ _ _ _ _ E).
  pose proof (scraped_page_count is_next_attempt _ _ _ _ _ _ _
                ltac:(by intros [| | | [] | [] | [] | [] []])
                ltac:(by intros [| | | [] | [] | [] |])
                ltac:(done) L) as Cn.
  pose proof (scraped_page_count is_page_entry _ _ _ _ _ _ _
                ltac:(by intros [| | | [] | [] | [] | [] []])
                ltac:(by intros [| | | [] | [] | [] |])
                ltac:(done) L) as Cp.
  destruct L as [Lc Ln _ _ Lr _ _].
  assert (exists res,
    (if pg then log INFO (MsgSavedCsv n);; ret None
     else js ← gets jobs; log INFO (MsgReturnedDataFrame n);; ret js)
      (record_event (EvLog DEBUG MsgTargetScraped) s3) =
    (Ok res, record_event (EvLog INFO (if pg then MsgSavedCsv n else MsgReturnedDataFrame n))
               (record_event (EvLog DEBUG MsgTargetScraped) s3))) as [res ->].
  { destruct pg; by eexists. }
  exists res. eexists. split; [reflexivity |].
  cbn [job_counter nextpage_counter trace record_event].
  repeat split.
  - rewrite Lc. cbn [job_counter record_event].
    destruct (entered_step the_site (ready_state pg)) as [-> _ _ _ _ _ _].
    destruct pg; simpl; lia.
  - rewrite Ln. destruct (entered_step the_site (ready_state pg)) as [_ Hnp _ _ _ _ _].
    cbn [nextpage_counter record_event]. rewrite Hnp. by destruct pg.
  - unfold records in *. cbn [csv_file jobs record_event] in *.
    rewrite Lr.
    destruct (entered_step the_site (ready_state pg)) as [_ _ _ _ Hj Hv _].
    rewrite Hj, Hv. by destruct pg.
  - apply elem_of_cons. right. apply elem_of_cons. by left.
  - rewrite !count_events_cons, Cn. by destruct pg.
  - rewrite !count_events_cons, Cp. by destruct pg.
Qed.

(** Whatever a job does, it leaves the counter one higher. *)
Lemma scrape_job_counter num_jobs path_given jl s :
  job_counter (scrape_job num_jobs path_given jl s).2 = job_counter s + 1.
Proof.
  rewrite scrape_job_unfold.
  by rewrite (ps_counter _ _ (page_step_after_count path_given jl _)).
Qed.

(** C3: the target is checked after every job.  When the job that brings
    the counter to the target has been scraped, the [for] loop stops
    there, whatever links are left on the page.  So on a first page that
    is not all viewed and lists at least [n] extractable jobs, the run
    scrapes exactly the first [n], logs that the target is reached and
    returns: the next-page button is never looked for and the page header
    is logged once. *)
Theorem C3_target_reached_mid_page :
  (forall num_jobs path_given jl rest s,
     (scrape_job num_jobs path_given jl s).1 = Ok tt ->
     job_counter s + 1 = num_jobs ->
     for_job_links num_jobs path_given (jl :: rest) s =
       (Ok tt,
        record_event (EvLog DEBUG (MsgTargetReached num_jobs num_jobs))
          (scrape_job num_jobs path_given jl s).2)) /\
  (forall isdir the_site fuel n verbose path,
     let p := the_site 0%nat in
     1 <= n <= 900 ->
     path_ok isdir path = true ->
     length (p_vieweddate p) <> length (p_job_links p) ->
     (Z.to_nat n <= length (p_job_links p))%nat ->
     forallb extractable (take (Z.to_nat n) (p_job_links p)) = true ->
     exists res s',
       run isdir the_site (S fuel) (PyInt n) verbose path = (Ok res, s') /\
       job_counter s' = n /\
       nextpage_counter s' = 0%nat /\
       records (negb (is_none path)) s' =
         (fun jl => job_details (expected_record jl)) <$> take (Z.to_nat n) (p_job_links p) /\
       EvLog DEBUG MsgTargetScraped ∈ trace s' /\
       count_events is_next_attempt (trace s') = 0%nat /\
       count_events is_page_entry (trace s') = 1%nat).
Proof.
  split.
  - intros num_jobs path_given jl rest s E Hn.
    cbn [for_job_links]. rewrite (bind_returns _ _ _ _ E), bind_gets.
    rewrite scrape_job_counter, Hn, Z.eqb_refl. reflexivity.
  - intros isdir the_site fuel n verbose path. apply run_target_reached.
Qed.

Lemma C3_witness :
  exists res s',
    run any_dir (fun _ => page_of 10 NextAbsent) 1 (PyInt 5) false PyNone = (Ok res, s') /\
    job_counter s' = 5 /\
    nextpage_counter s' = 0%nat /\
    records false s' =
      (fun jl => job_details (expected_record jl)) <$> replicate 5 link_acme /\
    EvLog DEBUG MsgTargetScraped ∈ trace s' /\
    count_events is_next_attempt (trace s') = 0%nat /\
    count_events is_page_entry (trace s') = 1%nat.
Proof.
  apply (proj2 C3_target_reached_mid_page any_dir (fun _ => page_of 10 NextAbsent)
           0%nat 5 false PyNone);
    [lia | reflexivity | discriminate | vm_compute; lia | reflexivity].
Defined.

(** ** C1 *)

Definition url_page2 : string :=
  "https://www.glassdoor.co.uk/Job/uk-data-scientist-jobs-SRCH_IL.0,2_IN2_KO3,17_IP2.htm?fromAge=30&pgc=AB4AAYEAHgAAAAAAAAAAAAAAAe".

(** A site whose next button always "works" but, from the second page on,
    leaves the driver where it is: same URL, same single job. *)
Definition site_stuck : site := fun _ => page_of 1 (NextLoads url_page2).

(** The state of a crawl of [site_stuck] that is on the second page. *)
Definition on_second_page : state :=
  set_nextpage_counter 1 (set_job_counter 1 (set_driver url_page2 1 view_acme (ready_state false))).

(** C1 as stated fails: on the second page of [site_stuck] the click goes
    through and leaves the URL as it was, yet the crawl goes on to the next
    turn; the whole run passes two such checks and returns three records,
    the same job scraped again and again. *)
Lemma C1_counterexample :
  let r := page_advance site_stuck 3 on_second_page in
  p_next (site_stuck (drv_page on_second_page)) = NextLoads (drv_url on_second_page) /\
  drv_url r.2 = drv_url on_second_page /\
  r.1 = Ok Continue /\
  let whole := run any_dir site_stuck 5 (PyInt 3) false PyNone in
  whole.1 = Ok (Some (replicate 3 (expected_record link_acme))) /\
  nextpage_counter whole.2 = 2%nat /\
  drv_url whole.2 = url_page2.
Proof. vm_compute. repeat split; reflexivity. Qed.

(** Lines 445-452, when the click goes through. *)
Lemma page_advance_loads the_site num_jobs s url :
  p_next (the_site (drv_page s)) = NextLoads url ->
  page_advance the_site num_jobs s =
  let s1 := set_driver url (S (drv_page s)) blank_view
              (record_event (EvClick SelNextButton)
                 (record_event (EvFind SelNextButton true) s)) in
  if contains "pgc=" url
  then (Ok Continue, set_nextpage_counter (S (nextpage_counter s1)) s1)
  else (SysExit 1, record_event (EvLog ERROR MsgNoPgc) s1).
Proof.
  intros H. unfold page_advance, try_except, click_next.
  rewrite bind_current_page, H. simpl. rewrite bind_gets. cbn [drv_url set_driver].
  by destruct (contains "pgc=" url).
Qed.

(** C1, amended: after a click on the next button that goes through, the
    crawl looks for the marker "pgc=" in the URL the driver is now at.
    Without the marker it logs the error and exits with status 1; with
    the marker it counts the page and goes on, whether or not the URL
    differs from that of the page before. *)
Theorem C1_pgc_marker_check the_site num_jobs s url :
  p_next (the_site (drv_page s)) = NextLoads url ->
  let r := page_advance the_site num_jobs s in
  drv_url r.2 = url /\
  job_counter r.2 = job_counter s /\
  if contains "pgc=" url
  then r.1 = Ok Continue /\
       nextpage_counter r.2 = S (nextpage_counter s) /\
       drv_page r.2 = S (drv_page s)
  else r.1 = SysExit 1 /\
       nextpage_counter r.2 = nextpage_counter s /\
       head (trace r.2) = Some (EvLog ERROR MsgNoPgc).
Proof.
  intros H r. unfold r. rewrite (page_advance_loads _ _ _ _ H). cbv zeta.
  by destruct (contains "pgc=" url).
Qed.

Lemma C1_witness :
  let r := page_advance (fun _ => page_of 1 (NextLoads start_url)) 4 (ready_state false) in
  drv_url r.2 = start_url /\
  job_counter r.2 = job_counter (ready_state false) /\
  if contains "pgc=" start_url
  then r.1 = Ok Continue /\
       nextpage_counter r.2 = S (nextpage_counter (ready_state false)) /\
       drv_page r.2 = S (drv_page (ready_state false))
  else r.1 = SysExit 1 /\
       nextpage_counter r.2 = nextpage_counter (ready_state false) /\
       head (trace r.2) = Some (EvLog ERROR MsgNoPgc).
Proof.
  apply (C1_pgc_marker_check (fun _ => page_of 1 (NextLoads start_url)) 4
           (ready_state false) start_url).
  reflexivity.
Defined.

(** The exit of the amended C1 seen from outside: a first click that goes
    through to a URL without the marker ends the whole run with status 1. *)
Example run_exits_without_marker :
  (run any_dir (fun _ => page_of 1 (NextLoads start_url)) 5 (PyInt 3) false PyNone).1
  = SysExit 1.
Proof. reflexivity. Qed.

(** ** C5 *)

#[global] Instance emitted_preorder C : PreOrder (emitted C).
Proof. split; [intros s; apply emitted_refl | intros ???; apply emitted_trans]. Qed.

Lemma emitted_emit C e : C e = true -> always (emitted C) (emit e).
Proof. intros H s. by apply emitted_one. Qed.

Lemma emitted_modify C (f : state -> state) :
  (forall s, trace (f s) = trace s) -> always (emitted C) (modify f).
Proof. intros H s. apply emitted_same, H. Qed.

Ltac emitted_auto :=
  repeat first
    [ always_step
    | apply emitted_emit; reflexivity
    | apply emitted_modify; reflexivity ].

(** Events other than a lookup of the description and a click on a job
    link. *)
Definition other_event (e : event) : bool :=
  negb (is_description_lookup e || is_job_click e).

Lemma other_scrape_scalar sel tried label :
  other_event (EvFind sel true) = true ->
  always (emitted other_event) (scrape_scalar sel tried label).
Proof.
  intros H. unfold scrape_scalar, find_element_text.
  apply always_try_except;
    [apply _ | | apply always_on_no_such_element; emitted_auto
    | intros t; emitted_auto].
  apply always_bind; [apply _ | emitted_auto | intros v].
  destruct (lookup_detail sel v);
    (apply always_bind;
       [apply _ | apply emitted_emit; by destruct sel | intros _; emitted_auto]).
Qed.

Lemma other_split_details l : always (emitted other_event) (split_details l).
Proof. induction l; simpl; emitted_auto. exact IHl. Qed.

(** Lines 248-417: what follows the description in the loop body. *)
Lemma other_after_description pg
    (company_name location job_title job_description : pyval) :
  always (emitted other_event)
    (j ← (salary_estimate ← scrape_scalar SelSalary "salary estimate" "Salary Estimate";
          rating ← scrape_rating;
          d ← scrape_company_details;
          r ← scrape_subratings;
          ret {| job_title := job_title; salary_estimate := salary_estimate;
                 job_description := job_description; rating := rating;
                 company_name := company_name; location := location;
                 size := cd_size d; founded := cd_founded d;
                 type_of_ownership := cd_type_of_ownership d;
                 industry := cd_industry d; sector := cd_sector d;
                 revenue := cd_revenue d;
                 rating_culturevalues := sr_culturevalues r;
                 rating_worklifebalance := sr_worklifebalance r;
                 rating_seniormgmt := sr_seniormgmt r;
                 rating_compbenefits := sr_compbenefits r;
                 rating_careerops := sr_careerops r |});
     store pg j;; modify (set_locals_reset true)).
Proof.
  apply always_bind; [apply _ | | intros j].
  - apply always_bind; [apply _ | by apply other_scrape_scalar | intros salary].
    apply always_bind; [apply _ | | intros rating].
    { unfold scrape_rating, find_element_text, logged_stale. emitted_auto. }
    apply always_bind; [apply _ | | intros d].
    { unfold scrape_company_details, find_elements_text, log_details, logged_stale.
      apply always_finally; [apply _ | |].
      - apply always_try_except; [apply _ | emitted_auto | | ].
        + apply always_on_no_such_element. emitted_auto.
        + intros l. apply always_bind; [apply _ | apply other_split_details |].
          intros p. emitted_auto.
      - intros [? |]; emitted_auto. }
    apply always_bind; [apply _ | | intros r; emitted_auto].
    unfold scrape_subratings, find_elements_text, log_subratings, logged_stale.
    emitted_auto.
  - unfold store. emitted_auto.
Qed.

(** Lines 225-246 as one equation: the value returned and the state left,
    by what the panel shows before and after the second click. *)
Lemma scrape_description_run jl s :
  scrape_description jl s =
  match v_description (drv_detail s) with
  | Some d =>
      (Ok (PyStr d),
       record_event (EvLog INFO (MsgField "Job Description" (PyStr (substring 0 50 d))))
         (record_event (EvFind SelDescription true) s))
  | None =>
      let s1 := set_driver (drv_url s) (drv_page s) (jl_views jl 1)
                  (record_event (EvClick SelJobListing)
                     (record_event (EvLog ERROR (MsgNotFound "job description"))
                        (record_event (EvFind SelDescription false) s))) in
      match v_description (jl_views jl 1) with
      | Some d => (Ok (PyStr d), record_event (EvFind SelDescription true) s1)
      | None =>
          (Ok missing,
           record_event (EvLog ERROR MsgDescriptionStillMissing)
             (record_event (EvFind SelDescription false) s1))
      end
  end.
Proof.
  unfold scrape_description, try_except, find_element_text. rewrite bind_gets.
  cbn [lookup_detail].
  destruct (v_description (drv_detail s)) as [d |]; simpl; [done |].
  rewrite bind_log, bind_click_job_link, bind_gets. simpl.
  by destruct (v_description (jl_views jl 1)).
Qed.

(** What [scrape_description] returns and which events it adds. *)
Lemma description_lookups jl s :
  exists v evs,
    scrape_description jl s = (Ok v, (scrape_description jl s).2) /\
    trace (scrape_description jl s).2 = evs ++ trace s /\
    match v_description (drv_detail s) with
    | Some d =>
        v = PyStr d /\
        drv_detail (scrape_description jl s).2 = drv_detail s /\
        count_events is_description_lookup evs = 1%nat /\
        count_events is_job_click evs = 0%nat
    | None =>
        v = or_missing (v_description (jl_views jl 1)) /\
        drv_detail (scrape_description jl s).2 = jl_views jl 1 /\
        count_events is_description_lookup evs = 2%nat /\
        count_events is_job_click evs = 1%nat
    end.
Proof.
  rewrite scrape_description_run.
  destruct (v_description (drv_detail s)) as [d |].
  - eexists _, [_; _]. split; [reflexivity | split; [reflexivity | done]].
  - cbv zeta. destruct (v_description (jl_views jl 1)) as [d |].
    + eexists _, [_; _; _; _]. split; [reflexivity | split; [reflexivity | done]].
    + eexists _, [_; _; _; _; _]. split; [reflexivity | split; [reflexivity | done]].
Qed.

Lemma other_count_lookup s s' :
  emitted other_event s s' ->
  count_events is_description_lookup (trace s') =
    count_events is_description_lookup (trace s) /\
  count_events is_job_click (trace s') = count_events is_job_click (trace s).
Proof.
  intros H. split; apply (emitted_count _ other_event); try done;
    intros e He; unfold other_event in He;
    apply negb_true_iff, orb_false_elim in He; tauto.
Qed.

Lemma scalar_other_then {B} sel tried label (k : pyval -> M B) s v :
  other_event (EvFind sel true) = true ->
  drv_detail s = v ->
  exists a s', (scrape_scalar sel tried label ≫= k) s = k a s' /\
               drv_detail s' = v /\ emitted other_event s s'.
Proof.
  intros Hd <-. eexists _, (scrape_scalar sel tried label s).2. split; [| split].
  - apply bind_returns, scrape_scalar_returns.
  - apply same_detail_scrape_scalar.
  - by apply other_scrape_scalar.
Qed.

Tactic Notation "scalar_other_step" ident(a) ident(s') ident(D) ident(O) constr(H) :=
  match goal with
  | |- context [(scrape_scalar ?sel ?t ?l ≫= ?k) ?s] =>
      destruct (scalar_other_then sel t l k s _ eq_refl H) as (a & s' & -> & D & O);
      cbv beta
  end.

(** The whole work on one job looks the description up once or twice and
    clicks the job link once or twice, whatever the outcome of the job. *)
Lemma scrape_job_lookups num_jobs path_given jl s :
  let tries := match v_description (jl_views jl 0) with Some _ => 1%nat | None => 2%nat end in
  let s' := (scrape_job num_jobs path_given jl s).2 in
  count_events is_description_lookup (trace s') =
    (tries + count_events is_description_lookup (trace s))%nat /\
  count_events is_job_click (trace s') =
    (tries + count_events is_job_click (trace s))%nat.
Proof.
  intros tries s'. unfold s'.
  rewrite scrape_job_unfold, bind_click_job_link.
  set (s1 := set_driver _ _ _ _).
  assert (C1 : count_events is_description_lookup (trace s1) =
               count_events is_description_lookup (trace s) /\
               count_events is_job_click (trace s1) =
               S (count_events is_job_click (trace s))).
  { unfold s1. cbn [trace set_driver record_event].
    by rewrite !count_events_cons. }
  rewrite (bind_returns _ _ _ _ (close_signup_popup_returns s1)).
  set (s2 := (close_signup_popup s1).2).
  assert (D2 : drv_detail s2 = jl_views jl 0) by apply same_detail_close_signup_popup.
  assert (O2 : emitted other_event s1 s2).
  { assert (always (emitted other_event) close_signup_popup) as H
      by (unfold close_signup_popup; emitted_auto).
    apply H. }
  unfold extract_fields. rewrite bind_assoc.
  scalar_other_step cn s3 D3 O3 D2. rewrite bind_assoc.
  scalar_other_step loc s4 D4 O4 D3. rewrite bind_assoc.
  scalar_other_step jt s5 D5 O5 D4. rewrite bind_assoc.
  destruct (description_lookups jl s5) as (v & evs & E & Ht & Hm).
  rewrite (bind_ok _ _ _ _ _ E).
  set (s6 := (scrape_description jl s5).2) in *.
  pose proof (other_after_description path_given cn loc jt v s6) as O7.
  destruct (other_count_lookup _ _ O7) as [-> ->].
  rewrite Ht, !count_events_app.
  assert (O : emitted other_event s1 s5).
  { etransitivity; [exact O2 |]. etransitivity; [exact O3 |].
    etransitivity; [exact O4 | exact O5]. }
  destruct (other_count_lookup _ _ O) as [-> ->].
  destruct C1 as [-> ->]. unfold tries.
  rewrite D5 in Hm.
  destruct (v_description (jl_views jl 0)); destruct Hm as (_ & _ & -> & ->); lia.
Qed.

(** C5: the description is looked up once; only when that lookup finds
    nothing is the job link clicked again, once, and the description
    looked up a second time; when the second lookup finds nothing either
    the field is [-1].  Every path returns, so there is no third lookup
    and no second retry: over the whole work on one job, whatever its
    outcome, the description is looked up once or twice and the link is
    clicked as often. *)
Theorem C5_description_retried_once :
  (forall jl s,
     exists v evs,
       scrape_description jl s = (Ok v, (scrape_description jl s).2) /\
       trace (scrape_description jl s).2 = evs ++ trace s /\
       match v_description (drv_detail s) with
       | Some d =>
           v = PyStr d /\
           drv_detail (scrape_description jl s).2 = drv_detail s /\
           count_events is_description_lookup evs = 1%nat /\
           count_events is_job_click evs = 0%nat
       | None =>
           v = or_missing (v_description (jl_views jl 1)) /\
           drv_detail (scrape_description jl s).2 = jl_views jl 1 /\
           count_events is_description_lookup evs = 2%nat /\
           count_events is_job_click evs = 1%nat
       end) /\
  (forall num_jobs path_given jl s,
     let tries :=
       match v_description (jl_views jl 0) with Some _ => 1%nat | None => 2%nat end in
     let s' := (scrape_job num_jobs path_given jl s).2 in
     count_events is_description_lookup (trace s') =
       (tries + count_events is_description_lookup (trace s))%nat /\
     count_events is_job_click (trace s') =
       (tries + count_events is_job_click (trace s))%nat).
Proof. split; [apply description_lookups | apply scrape_job_lookups]. Qed.

(** The retry seen on a job whose panel has no description until the link
    is clicked again. *)
Definition link_stale : job_link :=
  {| jl_views := fun n =>
       match n with
       | O => {| v_signup_popup := false; v_company_name := Some "Acme";
                 v_location := Some "Leeds"; v_job_title := Some "Data Scientist";
                 v_description := None; v_salary := None; v_rating := None;
                 v_companydetails := []; v_subratings := [] |}
       | _ => view_acme
       end |}.

Example description_found_on_retry :
  (scrape_description link_stale
     (set_driver start_url 0 (jl_views link_stale 0) (ready_state false))).1
  = Ok (PyStr "Build models").
Proof. reflexivity. Qed.

(** ** C6 *)

(** A panel whose first company-details element is a label with nothing
    after it: its text has no line break. *)
Definition view_unsplit : view :=
  {| v_signup_popup := false; v_company_name := Some "Initech";
     v_location := Some "York"; v_job_title := Some "Analyst";
     v_description := Some "Reports"; v_salary := None; v_rating := None;
     v_companydetails := ["Size"; String.append "Founded" (String newline "1999")];
     v_subratings := [] |}.

Definition link_unsplit : job_link := {| jl_views := fun _ => view_unsplit |}.

Definition page_unsplit_first : page :=
  {| p_cookies := BannerAbsent; p_job_links := [link_unsplit; link_acme];
     p_vieweddate := []; p_next := NextAbsent |}.

Definition page_unsplit_second : page :=
  {| p_cookies := BannerAbsent; p_job_links := [link_acme; link_unsplit];
     p_vieweddate := []; p_next := NextAbsent |}.

(** C6 does not hold of the code: extraction of a job whose company-details
    element has no line break does not complete.  As the first job of the
    run it ends the run with [UnboundLocalError] (raised by the [finally]
    suite of lines 306-313 while [ValueError] is in flight); as a later job
    it ends the run with [ValueError].  No record is produced for the job,
    although its six scalar fields were all read. *)
Theorem C6_unsplit_detail_aborts_extraction :
  let first := run any_dir (fun _ => page_unsplit_first) 3 (PyInt 2) false PyNone in
  let second := run any_dir (fun _ => page_unsplit_second) 3 (PyInt 2) false PyNone in
  extractable link_unsplit = false /\
  first.1 = Raise (UnboundLocalError "size") /\
  jobs first.2 = Some [] /\
  second.1 = Raise ValueError /\
  jobs second.2 = Some [expected_record link_acme] /\
  job_counter second.2 = 2.
Proof. vm_compute. repeat split; reflexivity. Qed.

(** The part of C6 that does hold: with every company-details element
    split, a job whose scalar fields are all absent still yields a record,
    each absent field being [-1] and each present field its text. *)
Lemma scalar_fields_isolated jl s :
  drv_detail s = jl_views jl 0 -> extractable jl = true ->
  exists j,
    (extract_fields jl s).1 = Ok j /\
    job_title j = or_missing (v_job_title (jl_views jl 0)) /\
    company_name j = or_missing (v_company_name (jl_views jl 0)) /\
    location j = or_missing (v_location (jl_views jl 0)) /\
    job_description j = or_missing (v_description (consulted_view jl)) /\
    salary_estimate j = or_missing (v_salary (consulted_view jl)) /\
    rating j = or_missing (v_rating (consulted_view jl)).
Proof.
  intros H Hx. exists (expected_record jl).
  split; [by apply extract_fields_returns | done].
Qed.

(** ** C7 *)

(** Lines 439-444 in CSV mode: [jobs] was never assigned, and the error
    message reads [len(jobs)]. *)
Lemma page_advance_unbound_jobs the_site num_jobs s :
  jobs s = None ->
  p_next (the_site (drv_page s)) = NextAbsent \/
  p_next (the_site (drv_page s)) = NextIntercepted ->
  (page_advance the_site num_jobs s).1 = Raise (UnboundLocalError "jobs").
Proof.
  intros Hj H. unfold page_advance, try_except, click_next.
  rewrite bind_current_page.
  destruct H as [-> | ->]; simpl; unfold len_jobs;
    rewrite bind_assoc, bind_gets; cbn [jobs record_event]; by rewrite Hj.
Qed.

(** Lines 439-444 in DataFrame mode: the shortfall is logged and the loop
    ends. *)
Lemma page_advance_shortfall the_site num_jobs s l :
  jobs s = Some l ->
  p_next (the_site (drv_page s)) = NextAbsent ->
  page_advance the_site num_jobs s =
    (Ok Break,
     record_event (EvLog ERROR (MsgNextUnavailable num_jobs (length l)))
       (record_event (EvFind SelNextButton false) s)).
Proof.
  intros Hj H. unfold page_advance, try_except, click_next.
  rewrite bind_current_page, H. simpl. unfold len_jobs.
  rewrite bind_assoc, bind_gets. cbn [jobs record_event]. by rewrite Hj.
Qed.

(** C7 does not hold of the code in CSV mode: when the next button is
    missing (or the click is intercepted) the handler evaluates
    [len(jobs)], and [jobs] exists only in DataFrame mode.  The run ends
    with [UnboundLocalError]; the row already written stays in the file.
    In DataFrame mode the same site gives a normal return with the
    shortfall logged. *)
Theorem C7_navigation_failure_raises_in_csv_mode :
  let absent := run any_dir (fun _ => page_of 1 NextAbsent) 3 (PyInt 2) false (PyStr "data") in
  let blocked := run any_dir (fun _ => page_of 1 NextIntercepted) 3 (PyInt 2) false (PyStr "data") in
  let in_memory := run any_dir (fun _ => page_of 1 NextAbsent) 3 (PyInt 2) false PyNone in
  absent.1 = Raise (UnboundLocalError "jobs") /\
  csv_file absent.2 = [job_details (expected_record link_acme)] /\
  blocked.1 = Raise (UnboundLocalError "jobs") /\
  in_memory.1 = Ok (Some [expected_record link_acme]) /\
  job_counter in_memory.2 = 1 /\
  head (tail (trace in_memory.2)) = Some (EvLog ERROR (MsgNextUnavailable 2 1)).
Proof. vm_compute. repeat split; reflexivity. Qed.

(** ** C8 *)



Definition is_label (labels : list string) (x : string) : bool :=
  bool_decide (x ∈ labels).

Lemma dict_fold (l : list (string * string)) : forall (d : gmap string string) k,
  fold_left (fun d kv => <[kv.1 := kv.2]> d) l d !! k =
  match dict l !! k with Some v => Some v | None => d !! k end.
Proof.
  unfold dict. induction l as [| [x y] l IH]; intros d k; simpl.
  - by rewrite lookup_empty.
  - rewrite (IH (<[x:=y]> d)), (IH (<[x:=y]> ∅)).
    destruct (fold_left _ l ∅ !! k); [done |].
    destruct (decide (x = k)) as [-> | Hne].
    + by rewrite !lookup_insert_eq.
    + by rewrite !lookup_insert_ne, lookup_empty.
Qed.

Lemma dict_app l1 l2 k :
  dict (l1 ++ l2) !! k =
  match dict l2 !! k with Some v => Some v | None => dict l1 !! k end.
Proof. unfold dict at 1. by rewrite fold_left_app, dict_fold. Qed.

Lemma dict_cons x y l k :
  dict ((x, y) :: l) !! k =
  match dict l !! k with
  | Some v => Some v
  | None => if decide (x = k) then Some y else None
  end.
Proof.
  unfold dict at 1. simpl. rewrite dict_fold.
  destruct (dict l !! k); [done |].
  destruct (decide (x = k)) as [-> | Hne].
  - by rewrite lookup_insert_eq.
  - by rewrite lookup_insert_ne, lookup_empty.
Qed.


Lemma dict_absent l k : k ∉ l.*1 -> dict l !! k = None.
Proof.
  induction l as [| [x y] l IH]; intros H; [done |].
  rewrite dict_cons. simpl in H. apply not_elem_of_cons in H as [Hne Hl].
  rewrite (IH Hl). by destruct (decide (x = k)).
Qed.



Lemma list_pair_ind {A} (P : list A -> Prop) :
  P [] -> (forall a, P [a]) -> (forall a b l, P l -> P (a :: b :: l)) ->
  forall l, P l.
Proof.
  intros H0 H1 H2 l.
  assert (P l /\ forall a, P (a :: l)) as [H _]; [| exact H].
  induction l as [| b l [IH1 IH2]]; [by split |].
  split; [apply IH2 | intros a; by apply H2].
Qed.

Lemma slice_even_app {A} (l1 l2 : list A) :
  Nat.even (length l1) = true ->
  slice_even (l1 ++ l2) = slice_even l1 ++ slice_even l2 /\
  slice_odd (l1 ++ l2) = slice_odd l1 ++ slice_odd l2 /\
  length (slice_even l1) = length (slice_odd l1).
Proof.
  induction l1 as [| a | a b l1 IH] using list_pair_ind; intros H.
  - done.
  - done.
  - change (Nat.even (length l1) = true) in H.
    destruct (IH H) as (He & Ho & Hl). unfold slice_odd in *.
    cbn [app slice_even tail length] in *. rewrite He.
    destruct l1 as [| c l1].
    + simpl. by destruct l2.
    + cbn [app tail] in *. rewrite Ho. by rewrite Hl.
Qed.
















(** * Further properties of the scraper *)

(** ** Splitting a company-details text (line 294) *)

Lemma split_once_some c : forall x y,
  split_once c = Some (x, y) ->
  c = String.append x (String newline y) /\ ~ In newline (list_ascii_of_string x).
Proof.
  induction c as [| a c IH]; intros x y H; simpl in H; [discriminate |].
  destruct (Ascii.eqb a newline) eqn:E.
  - apply Ascii.eqb_eq in E. injection H as <- <-. subst a.
    split; [reflexivity | simpl; tauto].
  - destruct (split_once c) as [[x' y'] |]; [| discriminate].
    injection H as <- <-. destruct (IH x' y' eq_refl) as [-> Hx].
    split; [reflexivity |]. simpl. intros [Ha | Hin]; [| tauto].
    apply Ascii.eqb_neq in E. congruence.
Qed.

Lemma split_once_none c :
  split_once c = None <-> ~ In newline (list_ascii_of_string c).
Proof.
  induction c as [| a c IH]; simpl.
  - tauto.
  - destruct (Ascii.eqb a newline) eqn:E.
    + apply Ascii.eqb_eq in E. subst a. split; [discriminate | tauto].
    + apply Ascii.eqb_neq in E.
      destruct (split_once c) as [[x y] |].
      * split; [discriminate |]. intros H. exfalso.
        assert (Hc : ~ In newline (list_ascii_of_string c)) by tauto.
        apply IH in Hc. discriminate.
      * split; [| reflexivity]. intros _ [Ha | Hin]; [congruence |].
        by apply (proj1 IH).
Qed.

Lemma split_once_join x y :
  ~ In newline (list_ascii_of_string x) ->
  split_once (String.append x (String newline y)) = Some (x, y).
Proof.
  induction x as [| a x IH]; simpl; intros H.
  - reflexivity.
  - destruct (Ascii.eqb a newline) eqn:E.
    + apply Ascii.eqb_eq in E. tauto.
    + rewrite IH; [reflexivity | tauto].
Qed.

(** The label and value of a company-details element are the text before
    and after its first line break, and joining them again gives the text
    back; the unpacking fails exactly on a text without a line break. *)
Theorem split_once_round_trip :
  (forall c x y,
     split_once c = Some (x, y) ->
     c = String.append x (String newline y) /\
     ~ In newline (list_ascii_of_string x)) /\
  (forall x y,
     ~ In newline (list_ascii_of_string x) ->
     split_once (String.append x (String newline y)) = Some (x, y)) /\
  (forall c, split_once c = None <-> ~ In newline (list_ascii_of_string c)).
Proof.
  split; [apply split_once_some | split; [apply split_once_join | apply split_once_none]].
Qed.

Lemma split_once_round_trip_witness :
  split_once (String.append "Size" (String newline "51 to 200")) = Some ("Size", "51 to 200").
Proof.
  apply (proj1 (proj2 split_once_round_trip) "Size" "51 to 200").
  vm_compute. intros H. repeat destruct H as [H | H]; try discriminate. exact H.
Defined.

(** ** The two dicts (lines 298-305 and 330-336) *)

(** When a label occurs more than once among the company details, the
    field takes the value of its last occurrence. *)
Theorem duplicate_label_last_wins l1 l2 k v :
  is_label (l2.*1) k = false ->
  get_or_missing (dict (l1 ++ (k, v) :: l2)) k = PyStr v.
Proof.
  intros H. apply bool_decide_eq_false in H.
  unfold get_or_missing. rewrite dict_app, dict_cons, (dict_absent l2 k H).
  by rewrite decide_True.
Qed.

Lemma duplicate_label_last_wins_witness :
  get_or_missing
    (dict ([("Size", "1 to 50")] ++ ("Size", "51 to 200") :: [("Founded", "1999")]))
    "Size" = PyStr "51 to 200".
Proof.
  apply (duplicate_label_last_wins [("Size", "1 to 50")] [("Founded", "1999")]
           "Size" "51 to 200").
  reflexivity.
Defined.

(** A sub-rating text left without a partner at the end of the list is
    ignored: the dict is that of the texts before it. *)
Theorem subratings_unpaired_tail l x :
  Nat.even (length l) = true ->
  subratings_dict (l ++ [x]) = subratings_dict l.
Proof.
  intros H. unfold subratings_dict.
  destruct (slice_even_app l [x] H) as (-> & -> & Hl).
  rewrite zip_with_app by done. unfold slice_odd. simpl. by rewrite app_nil_r.
Qed.

Lemma subratings_unpaired_tail_witness :
  subratings_dict (["Culture & Values"; "4.0"] ++ ["Work/Life Balance"]) =
  subratings_dict ["Culture & Values"; "4.0"].
Proof.
  apply (subratings_unpaired_tail ["Culture & Values"; "4.0"] "Work/Life Balance").
  reflexivity.
Defined.

(** A detail panel without company-details elements, or without sub-rating
    spans, gives [-1] for every field of that group: [find_elements]
    returns an empty list and every [get] falls back to its default. *)
Theorem empty_panels_give_missing s :
  (v_companydetails (drv_detail s) = [] ->
   (scrape_company_details s).1 = Ok details_missing) /\
  (v_subratings (drv_detail s) = [] ->
   (scrape_subratings s).1 = Ok subratings_missing).
Proof.
  split; intros H.
  - destruct (scrape_company_details_returns s) as [E _]; [by rewrite H |].
    rewrite E, H. reflexivity.
  - destruct (scrape_subratings_returns s) as [E _]. rewrite E, H. reflexivity.
Qed.

Lemma empty_panels_give_missing_witness :
  (scrape_company_details (ready_state false)).1 = Ok details_missing /\
  (scrape_subratings (ready_state false)).1 = Ok subratings_missing.
Proof.
  destruct (empty_panels_give_missing (ready_state false)) as [H1 H2].
  split; [apply H1 | apply H2]; reflexivity.
Defined.

(** ** Properties of every exit of the crawl *)

(** [outcome_sat Qok Qfail x]: the state of [x] satisfies [Qok] when [x]
    returned, [Qfail] when it raised, exited or ran out of budget. *)
Definition outcome_sat {A} (Qok Qfail : state -> Prop) (x : result A * state) : Prop :=
  match x.1 with
  | Ok _ => Qok x.2
  | _ => Qfail x.2
  end.

Lemma outcome_bind {A B} (m : M A) (k : A -> M B) s (Q1 Q Qf : state -> Prop) :
  outcome_sat Q1 Qf (m s) ->
  (forall a s1, Q1 s1 -> outcome_sat Q Qf (k a s1)) ->
  outcome_sat Q Qf ((m ≫= k) s).
Proof.
  unfold outcome_sat, mbind, M_bind, bind. intros H1 Hk.
  destruct (m s) as [[a | e | c |] s1]; simpl in *; auto.
  by apply Hk.
Qed.

Lemma outcome_weaken {A} (Q Q' Qf Qf' : state -> Prop) (x : result A * state) :
  (forall s, Q s -> Q' s) -> (forall s, Qf s -> Qf' s) ->
  outcome_sat Q Qf x -> outcome_sat Q' Qf' x.
Proof. unfold outcome_sat. destruct x as [[] ?]; simpl; auto. Qed.

Lemma outcome_same {A} (Q : state -> Prop) (x : result A * state) :
  Q x.2 -> outcome_sat Q Q x.
Proof. unfold outcome_sat. by destruct x as [[] ?]. Qed.

Lemma always_outcome {A} (R : relation state) `{!PreOrder R} (m : M A) s0 s :
  always R m -> R s0 s -> outcome_sat (R s0) (R s0) (m s).
Proof. intros Hm H. apply outcome_same. etransitivity; [exact H | apply Hm]. Qed.

(** Events of the controller itself: not of the work on a job, not the
    start of a job, not the session. *)
Definition page_event (e : event) : bool :=
  negb (detail_event e || is_job_start e || is_session_open e || is_session_quit e).

(** What the controller's own steps leave alone. *)
Record page_kept (s s' : state) : Prop := {
  pk_counter : job_counter s' = job_counter s;
  pk_jobs : jobs s' = jobs s;
  pk_csv : csv_file s' = csv_file s;
  pk_trace : emitted page_event s s';
}.

#[global] Instance page_kept_preorder : PreOrder page_kept.
Proof.
  split.
  - intros s. split; auto using emitted_refl.
  - intros s1 s2 s3 [] []. split; try congruence; eauto using emitted_trans.
Qed.

Lemma page_kept_emit e : page_event e = true -> always page_kept (emit e).
Proof. intros H s. split; simpl; auto using emitted_one. Qed.

Lemma page_kept_modify (f : state -> state) :
  (forall s, job_counter (f s) = job_counter s) ->
  (forall s, jobs (f s) = jobs s) ->
  (forall s, csv_file (f s) = csv_file s) ->
  (forall s, trace (f s) = trace s) ->
  always page_kept (modify f).
Proof. intros H1 H2 H3 H4 s. split; simpl; auto using emitted_same. Qed.

Ltac page_kept_auto :=
  repeat first
    [ always_step
    | apply page_kept_emit; reflexivity
    | apply page_kept_modify; reflexivity ].

Lemma page_kept_page_advance the_site num_jobs :
  always page_kept (page_advance the_site num_jobs).
Proof.
  unfold page_advance, click_next, current_page, len_jobs. page_kept_auto.
Qed.

Lemma page_kept_record e s : page_event e = true -> page_kept s (record_event e s).
Proof. intros H. by apply (page_kept_emit e H s). Qed.

Lemma page_kept_entered the_site s : page_kept s (entered the_site s).
Proof.
  destruct (entered_step the_site s) as [Hc _ _ _ Hj Hv (evs & Ht & F)].
  split; try done.
  exists (evs ++ [EvLog INFO (MsgPage (nextpage_counter s + 1))]). split.
  - by rewrite Ht, <- app_assoc.
  - apply Forall_app. split; [| by repeat constructor].
    eapply Forall_impl; [exact F |]. by intros [| | | [] | [] | [] |].
Qed.

(** Events of the work on one job, its header included. *)
Definition job_event (e : event) : bool := detail_event e || is_job_start e.

(** A job that was scraped: one row more in the sink in use, the other
    sink untouched. *)
Record job_done (path_given : bool) (s s' : state) : Prop := {
  jd_counter : job_counter s' = job_counter s + 1;
  jd_records : exists j, records path_given s' = records path_given s ++ [job_details j];
  jd_jobs : path_given = true -> jobs s' = jobs s;
  jd_csv : path_given = false -> csv_file s' = csv_file s;
  jd_trace : emitted job_event s s';
}.

(** A job that broke off: counted, nothing stored. *)
Record job_broken (s s' : state) : Prop := {
  jb_counter : job_counter s' = job_counter s + 1;
  jb_jobs : jobs s' = jobs s;
  jb_csv : csv_file s' = csv_file s;
  jb_trace : emitted job_event s s';
}.

(** Lines 164-417, every outcome. *)
Lemma scrape_job_outcome num_jobs path_given jl s :
  outcome_sat (job_done path_given s) (job_broken s)
    (scrape_job num_jobs path_given jl s).
Proof.
  rewrite scrape_job_unfold, bind_click_job_link.
  set (s1 := set_driver _ _ _ _).
  assert (B1 : job_broken s s1).
  { split; try done.
    exists [EvClick SelJobListing; EvLog INFO (MsgJob (job_counter s + 1) num_jobs)].
    split; [done | by repeat constructor]. }
  assert (W : forall s', job_step s1 s' -> job_broken s s').
  { intros s' []. destruct B1. split; try congruence.
    eapply emitted_trans; [eassumption |].
    eapply emitted_weaken; [| eassumption]. intros e He. unfold job_event. by rewrite He. }
  rewrite (bind_returns _ _ _ _ (close_signup_popup_returns s1)).
  set (s2 := (close_signup_popup s1).2).
  assert (J2 : job_step s1 s2) by apply job_step_close_signup_popup.
  eapply (outcome_bind _ _ s2 (job_step s1)).
  { eapply outcome_weaken; [done | exact W |].
    apply always_outcome; [apply _ | apply job_step_extract_fields | exact J2]. }
  intros j s3 J3. pose proof (W s3 J3) as [Bc Bj Bv Bt].
  unfold store, outcome_sat. destruct path_given.
  - rewrite bind_modify. simpl. split; try done; simpl.
    exists j. unfold records. simpl. by rewrite Bv.
  - rewrite bind_assoc, bind_gets. destruct (jobs s3) as [l |] eqn:E.
    + rewrite bind_modify. simpl. split; try done; simpl.
      exists j. unfold records. simpl. by rewrite <- Bj, fmap_app.
    + simpl. split; try done. congruence.
Qed.

Section EveryExit.
Variable the_site : site.
Variable num_jobs : Z.
Variable path_given : bool.

(** [Between] holds between two jobs, [Within] also when a job broke off. *)
Variables Between Within : state -> Prop.
Hypothesis between_within : forall s, Between s -> Within s.
Hypothesis between_kept : forall s s', page_kept s s' -> Between s -> Between s'.
Hypothesis job_outcome : forall jl s,
  Between s -> outcome_sat Between Within (scrape_job num_jobs path_given jl s).

Lemma for_job_links_outcome job_links s :
  Between s ->
  outcome_sat Between Within (for_job_links num_jobs path_given job_links s).
Proof.
  revert s. induction job_links as [| jl rest IH]; intros s H; [exact H |].
  cbn [for_job_links]. eapply outcome_bind; [by apply job_outcome |].
  intros _ s1 H1. rewrite bind_gets.
  destruct (_ =? _); [| by apply IH].
  eapply between_kept; [| exact H1]. by apply page_kept_record.
Qed.

Lemma page_iteration_outcome s :
  Between s ->
  outcome_sat Between Within (page_iteration the_site num_jobs path_given s).
Proof.
  intros H. rewrite page_iteration_unfold. cbv zeta.
  pose proof (page_kept_entered the_site s) as K.
  destruct (_ =? _)%nat.
  - eapply between_kept; [| exact H].
    etransitivity; [exact K | by apply page_kept_record].
  - eapply outcome_bind.
    { apply for_job_links_outcome. eapply between_kept; [| exact H].
      etransitivity; [exact K | by apply page_kept_record]. }
    intros _ s1 H1. rewrite bind_gets. destruct (_ =? _).
    + rewrite bind_log. eapply between_kept; [| exact H1]. by apply page_kept_record.
    + eapply outcome_weaken; [done | exact between_within |].
      apply outcome_same.
      eapply between_kept; [apply page_kept_page_advance | exact H1].
Qed.

Lemma while_loop_outcome fuel s :
  Between s ->
  outcome_sat Between Within (while_loop the_site num_jobs path_given fuel s).
Proof.
  revert s. induction fuel as [| fuel IH]; intros s H; cbn [while_loop];
    rewrite bind_gets; destruct (_ <? _); try exact H.
  - by apply between_within.
  - eapply outcome_bind; [by apply page_iteration_outcome |].
    intros [] s1 H1; [exact H1 | by apply IH].
Qed.

End EveryExit.

(** A property kept between jobs and by every job holds at every exit of a
    validated run. *)
Lemma run_outcome isdir the_site fuel n verbose path (Between Within : state -> Prop) :
  (forall s, Between s -> Within s) ->
  (forall s s', page_kept s s' -> Between s -> Between s') ->
  (forall jl s, Between s ->
     outcome_sat Between Within (scrape_job n (negb (is_none path)) jl s)) ->
  1 <= n <= 900 -> path_ok isdir path = true ->
  Between (ready_state (negb (is_none path))) ->
  outcome_sat Between Within (run isdir the_site fuel (PyInt n) verbose path).
Proof.
  intros HW HK HJ Hn Hp H0. rewrite (get_jobs_valid _ _ _ _ _ _ Hn Hp).
  eapply outcome_bind; [by apply while_loop_outcome |].
  intros _ s1 H1. destruct (negb (is_none path)).
  - rewrite bind_log. eapply HK; [| exact H1]. by apply page_kept_record.
  - rewrite bind_gets, bind_log. eapply HK; [| exact H1]. by apply page_kept_record.
Qed.

Lemma page_kept_records pg s s' : page_kept s s' -> records pg s' = records pg s.
Proof. intros []. unfold records. destruct pg; congruence. Qed.

(** Whenever a validated run returns, the sink holds exactly as many rows
    as jobs were counted; on every other exit (an exception, [sys.exit],
    the budget of turns used up) at most the job in progress is missing
    from it. *)
Theorem stored_rows_follow_counter isdir the_site fuel n verbose path :
  1 <= n <= 900 -> path_ok isdir path = true ->
  let x := run isdir the_site fuel (PyInt n) verbose path in
  let rows := Z.of_nat (length (records (negb (is_none path)) x.2)) in
  match x.1 with
  | Ok _ => rows = job_counter x.2
  | _ => rows <= job_counter x.2 <= rows + 1
  end.
Proof.
  intros Hn Hp.
  generalize (run_outcome isdir the_site fuel n verbose path).
  generalize (negb (is_none path)). intros pg HR.
  apply (HR (fun s => Z.of_nat (length (records pg s)) = job_counter s)
            (fun s => Z.of_nat (length (records pg s)) <= job_counter s
                      <= Z.of_nat (length (records pg s)) + 1)); try done.
  - intros s H. lia.
  - intros s s' K H. rewrite (page_kept_records pg _ _ K), (pk_counter _ _ K). exact H.
  - intros jl s H. eapply outcome_weaken; [| | apply scrape_job_outcome].
    + intros s' [Hc [j Hr] _ _ _].
      rewrite Hr, length_app, Hc. simpl. lia.
    + intros s' [Hc Hj Hv _].
      assert (records pg s' = records pg s) as ->
        by (unfold records; destruct pg; congruence).
      lia.
  - by destruct pg.
Qed.

Lemma stored_rows_follow_counter_witness :
  let x := run any_dir (fun _ => page_unsplit_second) 3 (PyInt 2) false (PyStr "data") in
  let rows := Z.of_nat (length (records (negb (is_none (PyStr "data"))) x.2)) in
  match x.1 with
  | Ok _ => rows = job_counter x.2
  | _ => rows <= job_counter x.2 <= rows + 1
  end.
Proof.
  apply (stored_rows_follow_counter any_dir (fun _ => page_unsplit_second) 3
           2 false (PyStr "data")); [lia | reflexivity].
Defined.

(** The sink is chosen once.  With a path, [jobs] is never bound and the
    function returns [None]; without one, nothing is written to the CSV
    file, [jobs] stays bound and is what the function returns. *)
Theorem one_sink_per_run isdir the_site fuel n verbose path :
  1 <= n <= 900 -> path_ok isdir path = true ->
  let x := run isdir the_site fuel (PyInt n) verbose path in
  if negb (is_none path)
  then jobs x.2 = None /\ (forall r, x.1 = Ok r -> r = None)
  else csv_file x.2 = [] /\ is_Some (jobs x.2) /\ (forall r, x.1 = Ok r -> r = jobs x.2).
Proof.
  intros Hn Hp x.
  assert (HR : forall r, x.1 = Ok r -> r = if negb (is_none path) then None else jobs x.2).
  { unfold x. rewrite (get_jobs_valid _ _ _ _ _ _ Hn Hp).
    destruct (while_loop the_site n (negb (is_none path)) fuel
                (ready_state (negb (is_none path)))) as [[[] | e | c |] s1] eqn:E.
    - rewrite (bind_ok _ _ _ _ _ E). destruct (negb (is_none path)).
      + rewrite bind_log. simpl. congruence.
      + rewrite bind_gets, bind_log. simpl. congruence.
    - unfold mbind, M_bind, bind. rewrite E. intros r Hr. discriminate.
    - unfold mbind, M_bind, bind. rewrite E. intros r Hr. discriminate.
    - unfold mbind, M_bind, bind. rewrite E. intros r Hr. discriminate. }
  revert HR. unfold x. clear x.
  generalize (run_outcome isdir the_site fuel n verbose path).
  generalize (run isdir the_site fuel (PyInt n) verbose path). intros x.
  generalize (negb (is_none path)). intros pg HO HR.
  set (I := fun s => if pg then jobs s = None else csv_file s = [] /\ is_Some (jobs s)).
  assert (HI : I x.2).
  { assert (outcome_sat I I x) as H; [| unfold outcome_sat in H; by destruct x.1].
    apply HO; try done.
    - intros s s' [] H. unfold I in *. destruct pg; cbv iota in *; [congruence |].
      destruct H as [H1 H2]. split; congruence.
    - intros jl s H. eapply outcome_weaken; [| | apply scrape_job_outcome].
      + intros s' [_ [j Hr] Hj Hv _]. unfold I in *.
        destruct pg; cbv iota in *; [by rewrite Hj |].
        destruct H as [H1 H2]. split; [by rewrite Hv |].
        unfold records in Hr. destruct (jobs s'); [done |].
        simpl in Hr. by destruct (job_details <$> default [] (jobs s)).
      + intros s' [_ Hj Hv _]. unfold I in *. destruct pg; cbv iota in *; [congruence |].
        destruct H as [H1 H2]. split; congruence.
    - unfold I. destruct pg; [done | simpl; eauto]. }
  unfold I in HI. destruct pg; cbv iota in *; [by split | destruct HI; by split].
Qed.

Lemma one_sink_per_run_witness :
  let x := run any_dir (fun _ => page_of 2 NextAbsent) 3 (PyInt 2) false PyNone in
  csv_file x.2 = [] /\ is_Some (jobs x.2) /\ (forall r, x.1 = Ok r -> r = jobs x.2).
Proof.
  apply (one_sink_per_run any_dir (fun _ => page_of 2 NextAbsent) 3 2 false PyNone);
    [lia | reflexivity].
Defined.

(** A counted job is opened with at most two clicks on its link and its
    description is looked up at most twice: at every exit of a validated
    run the clicks on job links and the lookups of the description number
    at most twice [job_counter].  When the run returns, every counted job
    was opened and its description looked up: both numbers are at least
    [job_counter]. *)
Theorem every_job_opened_once_or_twice isdir the_site fuel n verbose path :
  1 <= n <= 900 -> path_ok isdir path = true ->
  let x := run isdir the_site fuel (PyInt n) verbose path in
  let clicks := Z.of_nat (count_events is_job_click (trace x.2)) in
  let lookups := Z.of_nat (count_events is_description_lookup (trace x.2)) in
  clicks <= 2 * job_counter x.2 /\
  lookups <= 2 * job_counter x.2 /\
  match x.1 with
  | Ok _ => job_counter x.2 <= clicks /\ job_counter x.2 <= lookups
  | _ => True
  end.
Proof.
  intros Hn Hp.
  set (I := fun s =>
    job_counter s <= Z.of_nat (count_events is_job_click (trace s)) <= 2 * job_counter s /\
    job_counter s <= Z.of_nat (count_events is_description_lookup (trace s))
      <= 2 * job_counter s).
  assert (outcome_sat I I (run isdir the_site fuel (PyInt n) verbose path)) as H.
  2: { unfold outcome_sat, I in H. cbv zeta.
       destruct (run _ _ _ _ _ _).1; repeat split; try done; lia. }
  apply run_outcome; try done.
  - intros s s' [Hc _ _ Ht] H. unfold I in *. rewrite Hc.
    rewrite (emitted_count is_job_click page_event s s'),
            (emitted_count is_description_lookup page_event s s'); try done.
    + by intros [| | | [] | [] | [] | [] []].
    + by intros [| | | [] | [] | [] | [] []].
  - intros jl s H. apply outcome_same. unfold I in *.
    destruct (scrape_job_lookups n (negb (is_none path)) jl s) as [-> ->].
    rewrite scrape_job_counter.
    destruct (v_description (jl_views jl 0)); lia.
  - unfold I. by destruct (negb (is_none path)).
Qed.

Lemma every_job_opened_once_or_twice_witness :
  let x := run any_dir (fun _ => page_of 2 NextAbsent) 3 (PyInt 2) false PyNone in
  let clicks := Z.of_nat (count_events is_job_click (trace x.2)) in
  let lookups := Z.of_nat (count_events is_description_lookup (trace x.2)) in
  clicks <= 2 * job_counter x.2 /\
  lookups <= 2 * job_counter x.2 /\
  match x.1 with
  | Ok _ => job_counter x.2 <= clicks /\ job_counter x.2 <= lookups
  | _ => True
  end.
Proof.
  apply (every_job_opened_once_or_twice any_dir (fun _ => page_of 2 NextAbsent) 3 2
           false PyNone); [lia | reflexivity].
Defined.

(** ** Validation (lines 28-58) *)

(** A rejected argument ends the run with an exception before the browser
    session is created and before anything is stored or logged.
    [num_jobs] is checked first: a value that is not an integer gives
    [TypeError], an integer outside [1, 900] gives [ValueError]; then
    [path]: a string that is not a directory gives [ValueError], any other
    value but [None] gives [TypeError]. *)
Theorem validation_precedes_session isdir the_site fuel num_jobs verbose path :
  accepted isdir num_jobs path = false ->
  run isdir the_site fuel num_jobs verbose path =
    (Raise
       match num_jobs with
       | PyInt n =>
           if (1 <=? n) && (n <=? 900)
           then match path with PyStr _ => ValueError | _ => TypeError end
           else ValueError
       | _ => TypeError
       end,
     initial_state).
Proof.
  intros H. unfold run, get_jobs, validatenumjobs, accepted in *.
  destruct num_jobs as [| n | t]; try reflexivity.
  destruct (1 <=? n) eqn:E1; destruct (n <=? 900) eqn:E2; simpl in H |- *.
  - assert ((n <=? 0) || (n >? 900) = false) as ->.
    { apply Z.leb_le in E1, E2. apply orb_false_intro;
        [apply Z.leb_gt | rewrite Z.gtb_ltb; apply Z.ltb_ge]; lia. }
    destruct path as [| z | p]; simpl in H; try done.
    simpl. by rewrite H.
  - assert ((n <=? 0) || (n >? 900) = true) as ->; [| done].
    apply Z.leb_gt in E2. apply orb_true_intro. right.
    rewrite Z.gtb_ltb. apply Z.ltb_lt. lia.
  - assert ((n <=? 0) || (n >? 900) = true) as ->; [| done].
    apply Z.leb_gt in E1. apply orb_true_intro. left. apply Z.leb_le. lia.
  - assert ((n <=? 0) || (n >? 900) = true) as ->; [| done].
    apply Z.leb_gt in E1. apply orb_true_intro. left. apply Z.leb_le. lia.
Qed.

Lemma validation_precedes_session_witness :
  run (fun _ => false) (fun _ => page_of 2 NextAbsent) 3 (PyInt 5) true (PyStr "nowhere") =
    (Raise ValueError, initial_state).
Proof.
  apply (validation_precedes_session (fun _ => false) (fun _ => page_of 2 NextAbsent)
           3 (PyInt 5) true (PyStr "nowhere")).
  reflexivity.
Defined.

(** ** The order of the rows *)

(** The job links a crawl works through, in order: page after page from
    page [pg], each page's links from the top, until [wanted] jobs are
    had, a page is all viewed, the next page cannot be reached or the
    budget of turns is used up.  (This function states the order of the
    rows; it is not part of the program.) *)
Fixpoint crawl_plan (the_site : site) (fuel pg wanted : nat) : list job_link :=
  match fuel with
  | O => []
  | S fuel' =>
      let p := the_site pg in
      let links := p_job_links p in
      if (wanted =? 0)%nat then []
      else if (length (p_vieweddate p) =? length links)%nat then []
      else if (wanted <=? length links)%nat then take wanted links
      else links ++
           match p_next p with
           | NextLoads url =>
               if contains "pgc=" url
               then crawl_plan the_site fuel' (S pg) (wanted - length links)
               else []
           | _ => []
           end
  end.

(** A page with fewer jobs than are still wanted: all are scraped and the
    turn goes on to the next-page click. *)
Lemma page_iteration_exhausts the_site num_jobs path_given s :
  let p := the_site (drv_page s) in
  sink_ready path_given s ->
  length (p_vieweddate p) <> length (p_job_links p) ->
  job_counter s + Z.of_nat (length (p_job_links p)) < num_jobs ->
  forallb extractable (p_job_links p) = true ->
  exists s3,
    page_iteration the_site num_jobs path_given s = page_advance the_site num_jobs s3 /\
    loop_step path_given (length (p_job_links p))
      ((fun jl => job_details (expected_record jl)) <$> p_job_links p)
      (record_event
         (EvLog INFO (MsgSomeScraped (length (p_vieweddate p)) (nextpage_counter s + 1)))
         (entered the_site s))
      s3.
Proof.
  intros p Hr Hne Hlt Hx.
  destruct (entered_step the_site s) as [Hc _ _ _ Hj _ _].
  set (s2 := record_event
               (EvLog INFO (MsgSomeScraped (length (p_vieweddate p)) (nextpage_counter s + 1)))
               (entered the_site s)).
  assert (Hc2 : job_counter s2 = job_counter s) by exact Hc.
  destruct (for_job_links_returns num_jobs path_given (p_job_links p) s2
              (length (p_job_links p))) as [E L].
  { intros Hp. unfold s2. cbn [jobs record_event]. rewrite Hj. by apply Hr. }
  { rewrite Hc2. lia. }
  { done. }
  { rewrite Hc2. lia. }
  { lia. }
  { rewrite firstn_all. apply Forall_forall. intros jl Hin.
    apply (proj1 (forallb_forall _ _) Hx). by apply list_elem_of_In. }
  rewrite firstn_all in L.
  exists (for_job_links num_jobs path_given (p_job_links p) s2).2.
  split; [| exact L].
  rewrite page_iteration_unfold. cbv zeta. fold p.
  apply Nat.eqb_neq in Hne. rewrite Hne. fold s2.
  rewrite (bind_returns _ _ _ _ E), bind_gets.
  rewrite (ls_counter _ _ _ _ _ L), Hc2.
  assert ((job_counter s + Z.of_nat (length (p_job_links p)) =? num_jobs) = false) as ->
    by (apply Z.eqb_neq; lia).
  reflexivity.
Qed.

(** When the next page is not reached the turn ends the loop or the run,
    and stores nothing more. *)
Lemma page_advance_stops the_site num_jobs s :
  (forall url, p_next (the_site (drv_page s)) = NextLoads url ->
               contains "pgc=" url = false) ->
  (page_advance the_site num_jobs s).1 <> Ok Continue.
Proof.
  intros H. destruct (p_next (the_site (drv_page s))) as [| | url] eqn:E.
  - unfold page_advance, try_except, click_next. rewrite bind_current_page, E. simpl.
    unfold len_jobs. rewrite bind_assoc, bind_gets. cbn [jobs record_event].
    by destruct (jobs s).
  - unfold page_advance, try_except, click_next. rewrite bind_current_page, E. simpl.
    unfold len_jobs. rewrite bind_assoc, bind_gets. cbn [jobs record_event].
    by destruct (jobs s).
  - rewrite (page_advance_loads _ _ _ _ E). cbv zeta. by rewrite (H url eq_refl).
Qed.

Lemma while_loop_stops the_site num_jobs path_given fuel s :
  job_counter s < num_jobs ->
  (page_iteration the_site num_jobs path_given s).1 <> Ok Continue ->
  (while_loop the_site num_jobs path_given (S fuel) s).2 =
    (page_iteration the_site num_jobs path_given s).2.
Proof.
  intros Hlt H. rewrite while_loop_unfold. apply Z.ltb_lt in Hlt. rewrite Hlt.
  by destruct (page_iteration _ _ _ s) as [[[] | | |] ?].
Qed.

Lemma crawl_rows the_site num_jobs path_given fuel : forall s,
  sink_ready path_given s ->
  forallb extractable
    (crawl_plan the_site fuel (drv_page s) (Z.to_nat (num_jobs - job_counter s))) = true ->
  records path_given (while_loop the_site num_jobs path_given fuel s).2 =
    records path_given s ++
    ((fun jl => job_details (expected_record jl)) <$>
       crawl_plan the_site fuel (drv_page s) (Z.to_nat (num_jobs - job_counter s))).
Proof.
  induction fuel as [| fuel IH]; intros s Hr Hx.
  { cbn [while_loop crawl_plan]. rewrite bind_gets. rewrite app_nil_r.
    by destruct (_ <? _). }
  cbn [crawl_plan] in Hx |- *. cbv zeta in Hx |- *.
  set (p := the_site (drv_page s)) in *.
  set (wanted := Z.to_nat (num_jobs - job_counter s)) in *.
  destruct (wanted =? 0)%nat eqn:E0.
  { apply Nat.eqb_eq in E0. rewrite while_loop_unfold.
    assert ((job_counter s <? num_jobs) = false) as ->
      by (apply Z.ltb_ge; unfold wanted in E0; clear -E0; lia).
    by rewrite app_nil_r. }
  apply Nat.eqb_neq in E0.
  assert (Hlt : job_counter s < num_jobs).
  { unfold wanted in E0. clear -E0. lia. }
  pose proof (page_kept_entered the_site s) as K.
  destruct (length (p_vieweddate p) =? length (p_job_links p))%nat eqn:Ev.
  { apply Nat.eqb_eq in Ev.
    rewrite (while_loop_caught_up the_site num_jobs path_given fuel s Hlt Ev).
    rewrite app_nil_r. cbn [snd].
    apply page_kept_records. etransitivity; [exact K | by apply page_kept_record]. }
  apply Nat.eqb_neq in Ev.
  assert (K2 : forall v, records path_given
                 (record_event (EvLog INFO (MsgSomeScraped v (nextpage_counter s + 1)))
                    (entered the_site s)) = records path_given s).
  { intros v. apply page_kept_records.
    etransitivity; [exact K | by apply page_kept_record]. }
  destruct (wanted <=? length (p_job_links p))%nat eqn:Ew.
  - apply Nat.leb_le in Ew.
    destruct (while_loop_target_reached the_site num_jobs path_given fuel s Hr Hlt Ev Ew Hx)
      as (s3 & -> & L).
    cbn [snd]. unfold records at 1. cbn [csv_file jobs record_event].
    fold (records path_given s3). by rewrite (ls_records _ _ _ _ _ L), K2.
  - apply Nat.leb_gt in Ew. rewrite forallb_app in Hx.
    apply andb_true_iff in Hx as [Hx1 Hx2].
    assert (Hmore : job_counter s + Z.of_nat (length (p_job_links p)) < num_jobs)
      by (unfold wanted in Ew; lia).
    destruct (page_iteration_exhausts the_site num_jobs path_given s Hr Ev
                Hmore Hx1) as (s3 & E & L).
    fold p in L.
    assert (R3 : records path_given s3 =
                 records path_given s ++
                 ((fun jl => job_details (expected_record jl)) <$> p_job_links p)).
    { by rewrite (ls_records _ _ _ _ _ L), K2. }
    assert (C3 : job_counter s3 = job_counter s + Z.of_nat (length (p_job_links p))).
    { rewrite (ls_counter _ _ _ _ _ L). cbn [job_counter record_event].
      by rewrite (pk_counter _ _ K). }
    assert (P3 : drv_page s3 = drv_page s).
    { rewrite (ls_page _ _ _ _ _ L). cbn [drv_page record_event].
      by destruct (entered_step the_site s). }
    rewrite fmap_app, app_assoc, <- R3.
    destruct (p_next p) as [| | url] eqn:En;
      [| | destruct (contains "pgc=" url) eqn:Eu].
    1, 2, 4:
      rewrite app_nil_r, while_loop_stops, E;
      [ apply page_kept_records, page_kept_page_advance
      | exact Hlt
      | rewrite E; apply page_advance_stops; rewrite P3; fold p; rewrite En;
        intros u Hu; congruence ].
    rewrite while_loop_unfold. apply Z.ltb_lt in Hlt as Hlt'. rewrite Hlt', E.
    assert (En3 : p_next (the_site (drv_page s3)) = NextLoads url) by (by rewrite P3).
    rewrite (page_advance_loads _ _ _ _ En3). cbv zeta. rewrite Eu.
    set (s4 := set_nextpage_counter _ _).
    assert (drv_page s4 = S (drv_page s)) as D4 by (unfold s4; simpl; by rewrite P3).
    assert (job_counter s4 = job_counter s3) as C4 by done.
    assert (Z.to_nat (num_jobs - job_counter s4) = (wanted - length (p_job_links p))%nat)
      as W4 by (rewrite C4, C3; unfold wanted; lia).
    rewrite <- D4, <- W4 in Hx2 |- *.
    rewrite (IH s4); [done | | exact Hx2].
    intros Hp. unfold s4. simpl. by apply (ls_ready _ _ _ _ _ L).
Qed.

Lemma finish_keeps_records n pg (w : result unit * state) :
  records pg
    (match w with
     | (Ok a, s') =>
         (if pg then log INFO (MsgSavedCsv n);; ret None
          else js ← gets jobs; log INFO (MsgReturnedDataFrame n);; ret js) s'
     | (Raise e, s') => (Raise e, s')
     | (SysExit c, s') => (SysExit c, s')
     | (OutOfFuel, s') => (OutOfFuel, s')
     end).2 = records pg w.2.
Proof. destruct w as [[[] | e | c |] s1]; try done. by destruct pg. Qed.

(** The rows in the sink at any exit of a validated run. *)
Lemma run_rows isdir the_site fuel n verbose path :
  1 <= n <= 900 -> path_ok isdir path = true ->
  forallb extractable (crawl_plan the_site fuel 0 (Z.to_nat n)) = true ->
  records (negb (is_none path)) (run isdir the_site fuel (PyInt n) verbose path).2 =
    (fun jl => job_details (expected_record jl)) <$> crawl_plan the_site fuel 0 (Z.to_nat n).
Proof.
  intros Hn Hp Hx. rewrite (get_jobs_valid _ _ _ _ _ _ Hn Hp).
  generalize (negb (is_none path)). intros pg.
  unfold mbind at 1, M_bind at 1, bind at 1.
  rewrite (finish_keeps_records n pg (while_loop the_site n pg fuel (ready_state pg))).
  rewrite crawl_rows.
  - replace (drv_page (ready_state pg)) with 0%nat by (by destruct pg).
    replace (job_counter (ready_state pg)) with 0 by (by destruct pg).
    rewrite Z.sub_0_r. by destruct pg.
  - intros ->. simpl. eauto.
  - replace (drv_page (ready_state pg)) with 0%nat by (by destruct pg).
    replace (job_counter (ready_state pg)) with 0 by (by destruct pg).
    by rewrite Z.sub_0_r.
Qed.

(** Rows reach the sink in page order and, within a page, in the order of
    its links, nothing skipped and nothing repeated: at every exit of a
    validated run the sink holds the rows of the jobs of [crawl_plan], in
    that order, provided those jobs are extractable. *)
Theorem rows_in_page_then_link_order isdir the_site fuel n verbose path :
  1 <= n <= 900 -> path_ok isdir path = true ->
  forallb extractable (crawl_plan the_site fuel 0 (Z.to_nat n)) = true ->
  records (negb (is_none path)) (run isdir the_site fuel (PyInt n) verbose path).2 =
    (fun jl => job_details (expected_record jl)) <$> crawl_plan the_site fuel 0 (Z.to_nat n).
Proof. apply run_rows. Qed.

(** Two pages of two jobs and a third page that is never reached. *)
Definition site_two_pages : site := fun n =>
  match n with
  | O => {| p_cookies := BannerClickable; p_job_links := [link_stale; link_acme];
            p_vieweddate := ["Viewed 3 Nov"]; p_next := NextLoads url_page2 |}
  | _ => page_of 2 NextAbsent
  end.

Lemma rows_in_page_then_link_order_witness :
  records (negb (is_none (PyStr "data")))
    (run any_dir site_two_pages 4 (PyInt 3) false (PyStr "data")).2 =
    (fun jl => job_details (expected_record jl)) <$> crawl_plan site_two_pages 4 0 (Z.to_nat 3).
Proof.
  apply (rows_in_page_then_link_order any_dir site_two_pages 4 3 false (PyStr "data"));
    [lia | reflexivity | reflexivity].
Defined.

Example crawl_plan_two_pages :
  crawl_plan site_two_pages 4 0 3 = [link_stale; link_acme; link_acme].
Proof. reflexivity. Qed.

(** ** Navigation failure in DataFrame mode (lines 431-444) *)

Lemma page_advance_fails the_site num_jobs s l :
  jobs s = Some l ->
  p_next (the_site (drv_page s)) = NextAbsent \/
  p_next (the_site (drv_page s)) = NextIntercepted ->
  exists msg ev,
    page_advance the_site num_jobs s =
      (Ok Break, record_event (EvLog ERROR msg) (record_event ev s)) /\
    (msg = MsgNextUnavailable num_jobs (length l) \/
     msg = MsgNextIntercepted num_jobs (length l)).
Proof.
  intros Hj H. unfold page_advance, try_except, click_next.
  rewrite bind_current_page.
  destruct H as [-> | ->]; simpl; unfold len_jobs;
    rewrite bind_assoc, bind_gets; cbn [jobs record_event]; rewrite Hj;
    eexists _, _; split; try reflexivity; auto.
Qed.

(** Without a path, a page that does not bring the count to the target and
    whose next button is missing, or cannot be clicked, ends the loop
    normally: its jobs are all stored, the counter stays below the target
    and the last log line is the error giving the target and the number of
    jobs got. *)
Theorem shortfall_ends_dataframe_run the_site num_jobs fuel s l :
  let p := the_site (drv_page s) in
  jobs s = Some l ->
  length (p_vieweddate p) <> length (p_job_links p) ->
  job_counter s + Z.of_nat (length (p_job_links p)) < num_jobs ->
  0 <= job_counter s ->
  forallb extractable (p_job_links p) = true ->
  p_next p = NextAbsent \/ p_next p = NextIntercepted ->
  exists s' got,
    while_loop the_site num_jobs false (S fuel) s = (Ok tt, s') /\
    job_counter s' = job_counter s + Z.of_nat (length (p_job_links p)) /\
    job_counter s' < num_jobs /\
    records false s' =
      records false s ++ ((fun jl => job_details (expected_record jl)) <$> p_job_links p) /\
    got = (length l + length (p_job_links p))%nat /\
    (head (trace s') = Some (EvLog ERROR (MsgNextUnavailable num_jobs got)) \/
     head (trace s') = Some (EvLog ERROR (MsgNextIntercepted num_jobs got))).
Proof.
  intros p Hj Hne Hlt H0 Hx Hnext.
  assert (Hr : sink_ready false s) by (intros _; rewrite Hj; eauto).
  destruct (page_iteration_exhausts the_site num_jobs false s Hr Hne Hlt Hx)
    as (s3 & E & L).
  fold p in L.
  pose proof (page_kept_entered the_site s) as K.
  assert (R3 : records false s3 =
               records false s ++
               ((fun jl => job_details (expected_record jl)) <$> p_job_links p)).
  { rewrite (ls_records _ _ _ _ _ L). f_equal. apply page_kept_records.
    etransitivity; [exact K | by apply page_kept_record]. }
  assert (C3 : job_counter s3 = job_counter s + Z.of_nat (length (p_job_links p))).
  { rewrite (ls_counter _ _ _ _ _ L). cbn [job_counter record_event].
    by rewrite (pk_counter _ _ K). }
  assert (P3 : drv_page s3 = drv_page s).
  { rewrite (ls_page _ _ _ _ _ L). cbn [drv_page record_event].
    by destruct (entered_step the_site s). }
  destruct (ls_ready _ _ _ _ _ L eq_refl) as [l3 Hl3].
  assert (Hlen : length l3 = (length l + length (p_job_links p))%nat).
  { unfold records in R3. rewrite Hl3, Hj in R3. simpl in R3.
    apply (f_equal length) in R3.
    by rewrite length_app, !length_fmap in R3. }
  destruct (page_advance_fails the_site num_jobs s3 l3 Hl3) as (msg & ev & Ea & Hmsg).
  { by rewrite P3. }
  exists (record_event (EvLog ERROR msg) (record_event ev s3)), (length l3).
  split; [| split; [| split; [| split; [| split]]]]; try done.
  - rewrite while_loop_unfold.
    assert ((job_counter s <? num_jobs) = true) as -> by (apply Z.ltb_lt; lia).
    by rewrite E, Ea.
  - simpl. lia.
  - simpl. destruct Hmsg as [-> | ->]; auto.
Qed.

Lemma shortfall_ends_dataframe_run_witness :
  exists s' got,
    while_loop (fun _ => page_of 2 NextIntercepted) 5 false 1 (ready_state false) =
      (Ok tt, s') /\
    job_counter s' = job_counter (ready_state false) + Z.of_nat 2 /\
    job_counter s' < 5 /\
    records false s' =
      records false (ready_state false) ++
      ((fun jl => job_details (expected_record jl)) <$> replicate 2 link_acme) /\
    got = (length (@nil job_dict) + 2)%nat /\
    (head (trace s') = Some (EvLog ERROR (MsgNextUnavailable 5 got)) \/
     head (trace s') = Some (EvLog ERROR (MsgNextIntercepted 5 got))).
Proof.
  apply (shortfall_ends_dataframe_run (fun _ => page_of 2 NextIntercepted) 5 0
           (ready_state false) []);
    [reflexivity | discriminate | simpl; lia | simpl; lia | reflexivity | by right].
Defined.

(** ** Extraction, panel by panel *)



(** A job whose panel has a company-details element without a line break
    ends with an exception after all its scalar fields were read: the job
    is counted, nothing is stored for it in either sink.  The exception is
    [ValueError], or [UnboundLocalError] when no job was completed before
    (the [finally] suite of lines 306-313 then reads [size] unassigned). *)
Theorem unsplit_detail_ends_the_job num_jobs path_given jl s :
  extractable jl = false ->
  let x := scrape_job num_jobs path_given jl s in
  x.1 = Raise (if locals_reset s then ValueError else UnboundLocalError "size") /\
  job_counter x.2 = job_counter s + 1 /\
  jobs x.2 = jobs s /\
  csv_file x.2 = csv_file s.
Proof.
  intros Hx x.
  assert (E : x.1 = Raise (if locals_reset s then ValueError else UnboundLocalError "size")).
  { unfold x. rewrite scrape_job_unfold, bind_click_job_link.
    set (s1 := set_driver _ _ _ _).
    rewrite (bind_returns _ _ _ _ (close_signup_popup_returns s1)).
    set (s2 := (close_signup_popup s1).2).
    assert (D2 : drv_detail s2 = jl_views jl 0) by apply same_detail_close_signup_popup.
    rewrite (bind_raises _ _ _ _ (extract_fields_raises jl s2 D2 Hx)). cbn [fst].
    unfold s2. by rewrite (js_reset _ _ (job_step_close_signup_popup s1)). }
  split; [exact E |].
  pose proof (scrape_job_outcome num_jobs path_given jl s) as H.
  unfold outcome_sat in H. fold x in H. rewrite E in H. by destruct H.
Qed.

Lemma unsplit_detail_ends_the_job_witness :
  let x := scrape_job 3 false link_unsplit (ready_state false) in
  x.1 = Raise (if locals_reset (ready_state false) then ValueError
               else UnboundLocalError "size") /\
  job_counter x.2 = job_counter (ready_state false) + 1 /\
  jobs x.2 = jobs (ready_state false) /\
  csv_file x.2 = csv_file (ready_state false).
Proof.
  apply (unsplit_detail_ends_the_job 3 false link_unsplit (ready_state false)).
  reflexivity.
Defined.

(** * Location parsing: [get_locations] of [function_locationapi.py]

    The jobs read from the CSV file are kept as the column [location] and
    the five columns the function adds.  A cell is [None] for [nan]; a
    location that is not a string (an empty cell read as [nan]) is [None].
    The Ordnance Survey API is a function from the query to the response;
    the two [fuzzywuzzy] scores are parameters. *)

Module Locations.

Inductive exn :=
| KeyError (key : string)
| JSONDecodeError.

Record row := {
  location : option string;
  api_citytownvilham : option string;
  api_region : option string;
  api_country : option string;
  uk : bool;
  remote : bool;
}.

(** Lines 70-74. *)
Definition new_columns (loc : option string) : row :=
  {| location := loc; api_citytownvilham := None; api_region := None;
     api_country := None; uk := false; remote := false |}.

Definition set_citytownvilham (v : option string) (r : row) : row :=
  {| location := location r; api_citytownvilham := v; api_region := api_region r;
     api_country := api_country r; uk := uk r; remote := remote r |}.

Definition set_region (v : option string) (r : row) : row :=
  {| location := location r; api_citytownvilham := api_citytownvilham r;
     api_region := v; api_country := api_country r; uk := uk r; remote := remote r |}.

Definition set_country (v : option string) (r : row) : row :=
  {| location := location r; api_citytownvilham := api_citytownvilham r;
     api_region := api_region r; api_country := v; uk := uk r; remote := remote r |}.

Definition set_uk (b : bool) (r : row) : row :=
  {| location := location r; api_citytownvilham := api_citytownvilham r;
     api_region := api_region r; api_country := api_country r; uk := b;
     remote := remote r |}.

Definition set_remote (b : bool) (r : row) : row :=
  {| location := location r; api_citytownvilham := api_citytownvilham r;
     api_region := api_region r; api_country := api_country r; uk := uk r;
     remote := b |}.

(** [location.split(', ')]: [cur] is the part being read. *)
Fixpoint split_from (cur s : string) : list string :=
  match s with
  | EmptyString => [cur]
  | String a rest =>
      match rest with
      | String b rest' =>
          if Ascii.eqb a "," && Ascii.eqb b " "
          then cur :: split_from EmptyString rest'
          else split_from (String.append cur (String a EmptyString)) rest
      | EmptyString => [String.append cur (String a EmptyString)]
      end
  end.

Definition split (s : string) : list string := split_from EmptyString s.

(** A result of the API: its [GAZETTEER_ENTRY] dict, if it has one. *)
Definition result : Type := option (gmap string string).

(** The decoded body: the value under ['results'], if the key is there. *)
Record json_data := { results : option (list result) }.

(** [r.json()] is [None] when the body is not JSON. *)
Record response := { status_code : Z; json : option json_data }.

Definition settlement_types : list string :=
  ["Town"; "City"; "Village"; "Hamlet"; "Suburban Area"; "Other Settlement"].

Section GetLocations.

Variable partial_ratio : string -> string -> Z.   (* fuzz.partial_ratio *)
Variable ratio : string -> string -> Z.           (* fuzz.ratio *)
Variable api : string -> response.                (* requests.get for a query *)

(** Lines 92-98. *)
Definition rule_northern_ireland (loc_parts : list string) (rm : row * bool) : row * bool :=
  if bool_decide ("Northern Ireland" ∈ loc_parts) then
    let r := set_country (Some "Northern Ireland")
               (set_region (Some "Northern Ireland") rm.1) in
    let r := if String.eqb (hd EmptyString loc_parts) "Northern Ireland" then r
             else set_citytownvilham (Some (hd EmptyString loc_parts)) r in
    (r, true)
  else rm.

(** Lines 102-107. *)
Definition rule_london (query : string) (rm : row * bool) : row * bool :=
  if String.eqb query "London" || String.eqb query "City of London"
     || String.eqb query "Greater London"
  then (set_country (Some "England")
          (set_region (Some "London") (set_citytownvilham (Some "London") rm.1)), true)
  else rm.

(** Lines 109-112. *)
Definition rule_country (query : string) (rm : row * bool) : row * bool :=
  if String.eqb query "England" || String.eqb query "Scotland" || String.eqb query "Wales"
  then (set_country (Some query) rm.1, true)
  else rm.

(** Lines 114-117. *)
Definition rule_uk (query : string) (rm : row * bool) : row * bool :=
  if String.eqb query "United Kingdom" then (set_uk true rm.1, true) else rm.

(** Lines 119-122. *)
Definition rule_remote (query : string) (rm : row * bool) : row * bool :=
  if String.eqb query "Remote" then (set_remote true rm.1, true) else rm.

(** Lines 92-122: the row and [matchfound] after the rules that need no
    request.  [split] never returns an empty list, so [loc_parts[0]] is
    its head. *)
Definition fixed_rules (loc_parts : list string) (r : row) : row * bool :=
  let query := hd EmptyString loc_parts in
  rule_remote query
    (rule_uk query
       (rule_country query
          (rule_london query
             (rule_northern_ireland loc_parts (r, false))))).

(** Line 141. *)
Definition hit (query x : string) : bool :=
  (partial_ratio query x =? 100) || (ratio query x >? 80).

(** Lines 144-159, for a name [x] that matched. *)
Definition settle (query : string) (loc_parts : list string)
    (gazetteer_entry : gmap string string) (x : string) (r : row) : exn + row :=
  if bool_decide ("London" ∈ tail loc_parts) then
    inr (set_country (Some "England")
           (set_region (Some "London") (set_citytownvilham (Some query) r)))
  else
    match gazetteer_entry !! "LOCAL_TYPE" with
    | None => inl (KeyError "LOCAL_TYPE")
    | Some local_type =>
        let town := if bool_decide (local_type ∈ settlement_types) then Some x else None in
        inr (set_country (gazetteer_entry !! "COUNTRY")
               (set_region (gazetteer_entry !! "REGION")
                  (set_citytownvilham town r)))
    end.

(** Lines 140-159: the inner [for x in [NAME1, NAME2]]. *)
Fixpoint try_names (query : string) (loc_parts : list string)
    (gazetteer_entry : gmap string string) (names : list string) (r : row)
  : exn + row * bool :=
  match names with
  | [] => inr (r, false)
  | x :: rest =>
      if hit query x then
        match settle query loc_parts gazetteer_entry x r with
        | inl e => inl e
        | inr r' => inr (r', true)
        end
      else try_names query loc_parts gazetteer_entry rest r
  end.

(** Lines 160-162. *)
Definition rename_eastern (r : row) : row :=
  if bool_decide (api_region r = Some "Eastern")
  then set_region (Some "East of England") r
  else r.

(** Lines 140-162: one result [i], reached with [matchfound] false. *)
Definition check_result (query : string) (loc_parts : list string) (i : result) (r : row)
  : exn + row * bool :=
  match i with
  | None => inl (KeyError "GAZETTEER_ENTRY")
  | Some gazetteer_entry =>
      match gazetteer_entry !! "NAME1" with
      | None => inl (KeyError "NAME1")
      | Some name1 =>
          match try_names query loc_parts gazetteer_entry
                  [name1; default EmptyString (gazetteer_entry !! "NAME2")] r with
          | inl e => inl e
          | inr (r', matchfound) => inr (rename_eastern r', matchfound)
          end
      end
  end.

(** Lines 136-162: [for i in json_data['results']], which breaks at the
    first turn that finds [matchfound] set. *)
Fixpoint scan_results (query : string) (loc_parts : list string)
    (l : list result) (r : row) : exn + row :=
  match l with
  | [] => inr r
  | i :: rest =>
      match check_result query loc_parts i r with
      | inl e => inl e
      | inr (r', matchfound) =>
          if matchfound then inr r' else scan_results query loc_parts rest r'
      end
  end.

(** Lines 78-166: one row.  Returns the row, or the exception that escapes,
    and the queries sent to the API. *)
Definition parse_row (r : row) : (exn + row) * list string :=
  match location r with
  | None => (inr r, [])                    (* [split] raises, [continue] *)
  | Some loc =>
      let loc_parts := split loc in
      let rm := fixed_rules loc_parts r in
      let query := hd EmptyString loc_parts in
      if rm.2 then (inr rm.1, [])
      else
        let resp := api query in
        (match json resp with
         | None => inl JSONDecodeError
         | Some json_data =>
             if status_code resp =? 200 then
               match results json_data with
               | Some l => scan_results query loc_parts l rm.1
               | None => inr rm.1
               end
             else inr rm.1
         end, [query])
  end.

(** Lines 77-166: the rows in order; an exception ends the function. *)
Fixpoint parse_rows (rows : list row) : (exn + list row) * list string :=
  match rows with
  | [] => (inr [], [])
  | r :: rest =>
      match parse_row r with
      | (inl e, qs) => (inl e, qs)
      | (inr r', qs) =>
          match parse_rows rest with
          | (inl e, qs') => (inl e, qs ++ qs')
          | (inr rest', qs') => (inr (r' :: rest'), qs ++ qs')
          end
      end
  end.

(** The function, on the [location] column of the file read. *)
Definition get_locations (locations : list (option string))
  : (exn + list row) * list string :=
  parse_rows (new_columns <$> locations).

(** ** Properties of [get_locations] *)

Example split_two_parts : split "Belfast, Northern Ireland" = ["Belfast"; "Northern Ireland"].
Proof. reflexivity. Qed.

Example split_no_separator : split "Remote" = ["Remote"].
Proof. reflexivity. Qed.

Example split_empty : split "" = [""].
Proof. reflexivity. Qed.

Example split_comma_without_space : split "a,b,, c" = ["a,b,"; "c"].
Proof. reflexivity. Qed.

(** The first parts that are settled without a request. *)
Definition fixed_keywords : list string :=
  ["London"; "City of London"; "Greater London"; "England"; "Scotland"; "Wales";
   "United Kingdom"; "Remote"].

Definition needs_no_request (loc_parts : list string) : bool :=
  bool_decide ("Northern Ireland" ∈ loc_parts) ||
  bool_decide (hd EmptyString loc_parts ∈ fixed_keywords).

Lemma eqb_decide (a b : string) : String.eqb a b = bool_decide (a = b).
Proof.
  destruct (String.eqb a b) eqn:E.
  - apply String.eqb_eq in E. by rewrite bool_decide_eq_true_2.
  - apply String.eqb_neq in E. by rewrite bool_decide_eq_false_2.
Qed.

Lemma decide_elem_cons (q x : string) (l : list string) :
  bool_decide (q ∈ x :: l) = String.eqb q x || bool_decide (q ∈ l).
Proof.
  rewrite eqb_decide, <- bool_decide_or. apply bool_decide_ext, elem_of_cons.
Qed.

Lemma decide_elem_nil (q : string) : bool_decide (q ∈ @nil string) = false.
Proof. apply bool_decide_eq_false_2, not_elem_of_nil. Qed.

Lemma fixed_rules_matchfound loc_parts r :
  (fixed_rules loc_parts r).2 = needs_no_request loc_parts.
Proof.
  unfold fixed_rules, needs_no_request, rule_remote, rule_uk, rule_country,
    rule_london, rule_northern_ireland, fixed_keywords.
  rewrite !decide_elem_cons, decide_elem_nil.
  destruct (bool_decide ("Northern Ireland" ∈ loc_parts)); cbn [fst snd];
    repeat (match goal with
            | |- context [String.eqb ?a ?b] => destruct (String.eqb a b); cbn
            end); reflexivity.
Qed.

Lemma fixed_rules_unmatched loc_parts r :
  (fixed_rules loc_parts r).2 = false -> (fixed_rules loc_parts r).1 = r.
Proof.
  unfold fixed_rules, rule_remote, rule_uk, rule_country, rule_london,
    rule_northern_ireland.
  destruct (bool_decide ("Northern Ireland" ∈ loc_parts)); simpl;
    repeat (match goal with
            | |- context [if ?b then _ else _] => destruct b; simpl; try done
            end).
Qed.

(** A row sends at most one request.  It sends none when its location is
    not a string, mentions Northern Ireland or starts with one of the fixed
    keywords; otherwise it sends exactly one, for the first part of the
    location. *)
Theorem requests_of_a_row r :
  (parse_row r).2 =
  match location r with
  | None => []
  | Some loc =>
      if needs_no_request (split loc) then [] else [hd EmptyString (split loc)]
  end.
Proof.
  unfold parse_row. destruct (location r) as [loc |]; [| done].
  cbv zeta. rewrite fixed_rules_matchfound.
  by destruct (needs_no_request (split loc)).
Qed.

(** What no step of the parsing touches: the location and the two flags
    once the fixed rules are past. *)
Record kept (r r' : row) : Prop := {
  k_location : location r' = location r;
  k_uk : uk r' = uk r;
  k_remote : remote r' = remote r;
}.

Lemma settle_kept query loc_parts e x r r' :
  settle query loc_parts e x r = inr r' -> kept r r'.
Proof.
  unfold settle. case_bool_decide.
  - intros [= <-]. by split.
  - destruct (e !! "LOCAL_TYPE"); [| done]. intros [= <-]. by split.
Qed.

Lemma try_names_kept query loc_parts e names r r' m :
  try_names query loc_parts e names r = inr (r', m) -> kept r r'.
Proof.
  induction names as [| x names IH]; simpl.
  - intros [= <- <-]. by split.
  - destruct (hit query x); [| exact IH].
    destruct (settle query loc_parts e x r) as [ex | r1] eqn:E; [done |].
    intros [= <- <-]. by apply settle_kept in E.
Qed.

Lemma rename_eastern_kept r : kept r (rename_eastern r).
Proof. unfold rename_eastern. case_bool_decide; by split. Qed.

Lemma rename_eastern_region r : api_region (rename_eastern r) <> Some "Eastern".
Proof. unfold rename_eastern. case_bool_decide; simpl; [discriminate | done]. Qed.

Lemma rename_eastern_id r : api_region r <> Some "Eastern" -> rename_eastern r = r.
Proof. intros H. unfold rename_eastern. by rewrite bool_decide_eq_false_2. Qed.

Lemma check_result_kept query loc_parts i r r' m :
  check_result query loc_parts i r = inr (r', m) ->
  kept r r' /\ api_region r' <> Some "Eastern".
Proof.
  unfold check_result. destruct i as [e |]; [| done].
  destruct (e !! "NAME1") as [n1 |]; [| done].
  destruct (try_names _ _ _ _ _) as [ex | [r1 m1]] eqn:E; [done |].
  intros [= <- <-]. apply try_names_kept in E as [].
  destruct (rename_eastern_kept r1). split; [split; congruence |].
  apply rename_eastern_region.
Qed.

Lemma scan_results_kept query loc_parts l : forall r r',
  scan_results query loc_parts l r = inr r' ->
  kept r r' /\ (api_region r <> Some "Eastern" -> api_region r' <> Some "Eastern").
Proof.
  induction l as [| i l IH]; intros r r'; simpl.
  - intros [= <-]. by split.
  - destruct (check_result query loc_parts i r) as [ex | [r1 m]] eqn:E; [done |].
    apply check_result_kept in E as [[] Hr].
    destruct m.
    + intros [= <-]. by split.
    + intros H. apply IH in H as [[] Hreg]. split; [split; congruence |].
      intros _. by apply Hreg.
Qed.

Lemma fixed_rules_row loc_parts r :
  let q := hd EmptyString loc_parts in
  let r' := (fixed_rules loc_parts r).1 in
  location r' = location r /\
  uk r' = uk r || String.eqb q "United Kingdom" /\
  remote r' = remote r || String.eqb q "Remote" /\
  (api_region r <> Some "Eastern" -> api_region r' <> Some "Eastern").
Proof.
  unfold fixed_rules, rule_remote, rule_uk, rule_country, rule_london,
    rule_northern_ireland.
  destruct (bool_decide ("Northern Ireland" ∈ loc_parts)); cbn [fst snd];
    repeat (match goal with
            | |- context [String.eqb ?a ?b] => destruct (String.eqb a b); cbn
            end);
    rewrite ?orb_true_r, ?orb_false_r; repeat split; try done.
Qed.

(** One row, when no exception escapes. *)
Lemma parse_row_inr r r' :
  (parse_row r).1 = inr r' ->
  let first_is k :=
    match location r with
    | Some loc => String.eqb (hd EmptyString (split loc)) k
    | None => false
    end in
  location r' = location r /\
  uk r' = uk r || first_is "United Kingdom" /\
  remote r' = remote r || first_is "Remote" /\
  (api_region r <> Some "Eastern" -> api_region r' <> Some "Eastern").
Proof.
  unfold parse_row. destruct (location r) as [loc |] eqn:El; cbv zeta.
  2: { intros [= <-]. by rewrite El, !orb_false_r. }
  destruct (fixed_rules_row (split loc) r) as (Hl & Hu & Hm & Hr).
  set (r1 := (fixed_rules (split loc) r).1) in *.
  assert (Hsame : location r1 = location r /\
                  uk r1 = uk r || String.eqb (hd EmptyString (split loc)) "United Kingdom" /\
                  remote r1 = remote r || String.eqb (hd EmptyString (split loc)) "Remote" /\
                  (api_region r <> Some "Eastern" -> api_region r1 <> Some "Eastern"))
    by done.
  destruct (fixed_rules (split loc) r).2; cbn [fst].
  { intros [= <-]. by rewrite <- El. }
  destruct (json (api _)) as [j |]; [| done].
  destruct (_ =? 200); [| intros [= <-]; by rewrite <- El].
  destruct (results j) as [l |]; [| intros [= <-]; by rewrite <- El].
  intros H. apply scan_results_kept in H as [[Kl Ku Km] Kr].
  rewrite Kl, Ku, Km, <- El. destruct Hsame as (? & ? & ? & ?).
  repeat split; try done. intros H'. by apply Kr, Hr.
Qed.

Lemma parse_rows_inr rows : forall rows',
  (parse_rows rows).1 = inr rows' ->
  Forall2 (fun r r' => (parse_row r).1 = inr r') rows rows'.
Proof.
  induction rows as [| r rows IH]; intros rows'; cbn [parse_rows].
  - intros [= <-]. constructor.
  - destruct (parse_row r) as [[e | r1] qs] eqn:E; [done |].
    destruct (parse_rows rows) as [[e | rest] qs']; [done |].
    intros [= <-]. constructor; [by rewrite E | by apply IH].
Qed.

(** When [get_locations] returns, the rows are those of the file, in the
    same order and with their location untouched. *)
Theorem rows_come_back_in_order locations rows :
  (get_locations locations).1 = inr rows ->
  location <$> rows = locations.
Proof.
  unfold get_locations. intros H. apply parse_rows_inr in H.
  revert rows H. induction locations as [| loc locations IH]; intros rows H.
  - by inversion H.
  - inversion H as [| r r' l l' Hr Hl]; subst. simpl.
    apply parse_row_inr in Hr as (-> & _). simpl. f_equal. by apply IH.
Qed.

(** When [get_locations] returns, no row has the region "Eastern": the
    fixed rules never give it and a region read from the API is renamed
    "East of England". *)
Theorem region_never_eastern locations rows :
  (get_locations locations).1 = inr rows ->
  Forall (fun r => api_region r <> Some "Eastern") rows.
Proof.
  unfold get_locations. intros H. apply parse_rows_inr in H.
  revert rows H. induction locations as [| loc locations IH]; intros rows H.
  - inversion H. constructor.
  - inversion H as [| r r' l l' Hr Hl]; subst. constructor; [| by apply IH].
    apply parse_row_inr in Hr as (_ & _ & _ & Hr). by apply Hr.
Qed.

(** When [get_locations] returns, a row is flagged [uk] exactly when the
    first part of its location is "United Kingdom" and [remote] exactly
    when it is "Remote"; a row without a location has neither flag. *)
Theorem flags_follow_first_part locations rows :
  (get_locations locations).1 = inr rows ->
  Forall (fun r =>
            match location r with
            | Some loc =>
                uk r = String.eqb (hd EmptyString (split loc)) "United Kingdom" /\
                remote r = String.eqb (hd EmptyString (split loc)) "Remote"
            | None => uk r = false /\ remote r = false
            end) rows.
Proof.
  unfold get_locations. intros H. apply parse_rows_inr in H.
  revert rows H. induction locations as [| loc locations IH]; intros rows H.
  - inversion H. constructor.
  - inversion H as [| r r' l l' Hr Hl]; subst. constructor; [| by apply IH].
    apply parse_row_inr in Hr as (-> & -> & -> & _). simpl. by destruct loc.
Qed.

(** A request that is not answered with results leaves the row as it was;
    a body that is not JSON raises, whatever the status code, because the
    body is decoded before the status is looked at. *)
Theorem unanswered_request_leaves_row r loc :
  location r = Some loc ->
  needs_no_request (split loc) = false ->
  let resp := api (hd EmptyString (split loc)) in
  match json resp with
  | None => (parse_row r).1 = inl JSONDecodeError
  | Some j =>
      status_code resp <> 200 \/ results j = None \/ results j = Some [] ->
      (parse_row r).1 = inr r
  end.
Proof.
  intros Hl Hn resp. unfold parse_row. rewrite Hl. cbv zeta.
  pose proof (fixed_rules_matchfound (split loc) r) as Hm. rewrite Hn in Hm.
  rewrite Hm, (fixed_rules_unmatched _ _ Hm). fold resp. cbn [fst].
  destruct (json resp) as [j |]; [| done].
  intros [H | [H | H]].
  - apply Z.eqb_neq in H. by rewrite H.
  - rewrite H. by destruct (_ =? _).
  - rewrite H. by destruct (_ =? _).
Qed.

(** A result none of whose names matches the query. *)
Definition misses (query : string) (i : result) : bool :=
  match i with
  | Some e =>
      match e !! "NAME1" with
      | Some name1 =>
          negb (hit query name1) &&
          negb (hit query (default EmptyString (e !! "NAME2")))
      | None => false
      end
  | None => false
  end.

Lemma check_result_miss query loc_parts i r :
  misses query i = true -> api_region r <> Some "Eastern" ->
  check_result query loc_parts i r = inr (r, false).
Proof.
  unfold misses, check_result. destruct i as [e |]; [| done].
  destruct (e !! "NAME1") as [n1 |]; [| done].
  intros H Hr. apply andb_true_iff in H as [H1 H2].
  apply negb_true_iff in H1, H2. cbn [try_names]. rewrite H1, H2.
  by rewrite rename_eastern_id.
Qed.

Lemma scan_results_first_hit query loc_parts l1 i l2 r r' :
  forallb (misses query) l1 = true ->
  api_region r <> Some "Eastern" ->
  check_result query loc_parts i r = inr (r', true) ->
  scan_results query loc_parts (l1 ++ i :: l2) r = inr r'.
Proof.
  intros Hm Hr Hi. induction l1 as [| i1 l1 IH]; cbn [app scan_results].
  - by rewrite Hi.
  - cbn [forallb] in Hm. apply andb_true_iff in Hm as [H1 Hm].
    rewrite (check_result_miss _ _ _ _ H1 Hr). by apply IH.
Qed.

(** The first result with a matching name settles the row: the results
    before it that match under neither name leave the row as it is, and
    the results after it are not looked at. *)
Theorem first_hit_decides query loc_parts l1 i l2 l2' r r' :
  forallb (misses query) l1 = true ->
  api_region r <> Some "Eastern" ->
  check_result query loc_parts i r = inr (r', true) ->
  scan_results query loc_parts (l1 ++ i :: l2) r = inr r' /\
  scan_results query loc_parts (l1 ++ i :: l2') r =
    scan_results query loc_parts (l1 ++ i :: l2) r.
Proof.
  intros Hm Hr Hi. by rewrite !(scan_results_first_hit _ _ l1 i _ r r').
Qed.

(** A location whose later parts include "London": as soon as a result
    matches the query, the row gets the query as its town, "London" as
    region and "England" as country, whatever the entry says about its
    type, region and country, and even when it has no [LOCAL_TYPE]. *)
Theorem london_suffix_overrides_entry r loc j l1 e l2 :
  let query := hd EmptyString (split loc) in
  location r = Some loc ->
  needs_no_request (split loc) = false ->
  bool_decide ("London" ∈ tail (split loc)) = true ->
  api_region r <> Some "Eastern" ->
  json (api query) = Some j ->
  status_code (api query) = 200 ->
  results j = Some (l1 ++ Some e :: l2) ->
  forallb (misses query) l1 = true ->
  is_Some (e !! "NAME1") ->
  misses query (Some e) = false ->
  (parse_row r).1 =
    inr (set_country (Some "England")
           (set_region (Some "London") (set_citytownvilham (Some query) r))).
Proof.
  intros query Hl Hn HL Hr Hj Hs Hres Hm [n1 Hn1] Hhit.
  unfold parse_row. rewrite Hl. cbv zeta. fold query.
  pose proof (fixed_rules_matchfound (split loc) r) as Hf. rewrite Hn in Hf.
  rewrite Hf, (fixed_rules_unmatched _ _ Hf), Hj, Hs, Hres. cbn [fst].
  apply scan_results_first_hit; try done.
  unfold check_result, misses in *. rewrite Hn1 in *. cbn [try_names].
  unfold settle. rewrite HL.
  destruct (hit query n1); cbn in Hhit |- *.
  - by rewrite rename_eastern_id.
  - apply negb_false_iff in Hhit. rewrite Hhit. by rewrite rename_eastern_id.
Qed.

Lemma append_nil_r (s : string) : String.append s EmptyString = s.
Proof.
  induction s as [| a s IH]; [done |].
  change (String a (String.append s EmptyString) = String a s). by f_equal.
Qed.

Lemma append_assoc (a b c : string) :
  String.append (String.append a b) c = String.append a (String.append b c).
Proof.
  induction a as [| x a IH]; [done |].
  change (String x (String.append (String.append a b) c) =
          String x (String.append a (String.append b c))).
  by f_equal.
Qed.

Lemma split_from_step cur a b s :
  split_from cur (String a (String b s)) =
  if Ascii.eqb a "," && Ascii.eqb b " "
  then cur :: split_from EmptyString s
  else split_from (String.append cur (String a EmptyString)) (String b s).
Proof. reflexivity. Qed.

Lemma split_from_joins s :
  (forall cur, split_from cur s <> [] /\
               String.concat ", " (split_from cur s) = String.append cur s) /\
  (forall a cur, split_from cur (String a s) <> [] /\
                 String.concat ", " (split_from cur (String a s)) =
                   String.append cur (String a s)).
Proof.
  induction s as [| b s [IH1 IH2]].
  - split; [intros cur | intros a cur]; simpl; split; try done.
    by rewrite ?append_nil_r.
  - split; [apply IH2 |]. intros a cur. rewrite split_from_step.
    destruct (Ascii.eqb a "," && Ascii.eqb b " ") eqn:E.
    + apply andb_true_iff in E as [Ea Eb].
      apply Ascii.eqb_eq in Ea, Eb. subst a b.
      destruct (IH1 EmptyString) as [Hne Hc]. split; [done |].
      cbn [String.concat]. destruct (split_from EmptyString s) eqn:Es; [done |].
      rewrite Hc. reflexivity.
    + destruct (IH2 b (String.append cur (String a EmptyString))) as [Hne Hc].
      split; [done |]. rewrite Hc, append_assoc. reflexivity.
Qed.

(** The rules run in the order of the source and a later one overwrites an
    earlier one: a location whose first part is one of the three London
    names is settled as London in England without a request, also when
    another part of it is "Northern Ireland". *)
Theorem london_rule_overrides_northern_ireland r loc :
  location r = Some loc ->
  hd EmptyString (split loc) ∈ ["London"; "City of London"; "Greater London"] ->
  parse_row r =
    (inr (set_country (Some "England")
            (set_region (Some "London")
               (set_citytownvilham (Some "London") r))), []).
Proof.
  intros Hl Hq. unfold parse_row. rewrite Hl. cbv zeta.
  unfold fixed_rules, rule_remote, rule_uk, rule_country, rule_london,
    rule_northern_ireland.
  rewrite !elem_of_cons, elem_of_nil in Hq.
  destruct Hq as [-> | [-> | [-> | []]]];
    destruct (bool_decide ("Northern Ireland" ∈ split loc)); reflexivity.
Qed.

(** [location.split(', ')] never gives an empty list, so [loc_parts[0]]
    always exists, and the parts joined with ", " are the location. *)
Theorem split_joins_back s :
  split s <> [] /\ String.concat ", " (split s) = s.
Proof. apply (proj1 (split_from_joins s) EmptyString). Qed.

End GetLocations.

(** ** Sample data for [get_locations] *)

(** A score that only recognises equal strings. *)
Definition exact_ratio (a b : string) : Z := if String.eqb a b then 100 else 0.

Definition entry_leeds : gmap string string :=
  list_to_map [("NAME1", "Leeds"); ("LOCAL_TYPE", "City");
               ("REGION", "Yorkshire and the Humber"); ("COUNTRY", "England")].

Definition entry_luton : gmap string string :=
  list_to_map [("NAME1", "Luton"); ("LOCAL_TYPE", "Town");
               ("REGION", "Eastern"); ("COUNTRY", "England")].

(** An entry without [LOCAL_TYPE]. *)
Definition entry_croydon : gmap string string :=
  list_to_map [("NAME1", "Croydon"); ("REGION", "London")].

Definition api_sample (query : string) : response :=
  {| status_code := 200;
     json := Some {| results := Some [Some entry_leeds; Some entry_croydon;
                                      Some entry_luton] |} |}.

Definition api_down (query : string) : response :=
  {| status_code := 503; json := Some {| results := None |} |}.

Definition sample_locations : list (option string) :=
  [Some "Luton, Bedfordshire"; None; Some "Remote"; Some "United Kingdom";
   Some "Belfast, Northern Ireland"; Some "London, Northern Ireland"].

Definition row_luton : row :=
  {| location := Some "Luton, Bedfordshire"; api_citytownvilham := Some "Luton";
     api_region := Some "East of England"; api_country := Some "England";
     uk := false; remote := false |}.

Definition sample_rows : list row :=
  [row_luton;
   new_columns None;
   set_remote true (new_columns (Some "Remote"));
   set_uk true (new_columns (Some "United Kingdom"));
   {| location := Some "Belfast, Northern Ireland";
      api_citytownvilham := Some "Belfast";
      api_region := Some "Northern Ireland";
      api_country := Some "Northern Ireland"; uk := false; remote := false |};
   {| location := Some "London, Northern Ireland";
      api_citytownvilham := Some "London"; api_region := Some "London";
      api_country := Some "England"; uk := false; remote := false |}].

Lemma sample_run :
  get_locations exact_ratio exact_ratio api_sample sample_locations =
    (inr sample_rows, ["Luton"]).
Proof. vm_compute. reflexivity. Qed.

Lemma rows_come_back_in_order_witness :
  (get_locations exact_ratio exact_ratio api_sample sample_locations).1 =
    inr sample_rows /\
  location <$> sample_rows = sample_locations.
Proof.
  assert (H : (get_locations exact_ratio exact_ratio api_sample sample_locations).1 =
              inr sample_rows) by (vm_compute; reflexivity).
  split; [exact H |].
  exact (rows_come_back_in_order exact_ratio exact_ratio api_sample
           sample_locations sample_rows H).
Defined.

Lemma region_never_eastern_witness :
  (get_locations exact_ratio exact_ratio api_sample sample_locations).1 =
    inr sample_rows /\
  Forall (fun r => api_region r <> Some "Eastern") sample_rows.
Proof.
  assert (H : (get_locations exact_ratio exact_ratio api_sample sample_locations).1 =
              inr sample_rows) by (vm_compute; reflexivity).
  split; [exact H |].
  exact (region_never_eastern exact_ratio exact_ratio api_sample
           sample_locations sample_rows H).
Defined.

Lemma flags_follow_first_part_witness :
  (get_locations exact_ratio exact_ratio api_sample sample_locations).1 =
    inr sample_rows /\
  Forall (fun r =>
            match location r with
            | Some loc =>
                uk r = String.eqb (hd EmptyString (split loc)) "United Kingdom" /\
                remote r = String.eqb (hd EmptyString (split loc)) "Remote"
            | None => uk r = false /\ remote r = false
            end) sample_rows.
Proof.
  assert (H : (get_locations exact_ratio exact_ratio api_sample sample_locations).1 =
              inr sample_rows) by (vm_compute; reflexivity).
  split; [exact H |].
  exact (flags_follow_first_part exact_ratio exact_ratio api_sample
           sample_locations sample_rows H).
Defined.

Lemma unanswered_request_leaves_row_witness :
  (parse_row exact_ratio exact_ratio api_down
     (new_columns (Some "Luton, Bedfordshire"))).1 =
    inr (new_columns (Some "Luton, Bedfordshire")).
Proof.
  assert (H : (503 : Z) <> 200) by lia.
  apply (unanswered_request_leaves_row exact_ratio exact_ratio api_down
           (new_columns (Some "Luton, Bedfordshire")) "Luton, Bedfordshire").
  - reflexivity.
  - vm_compute. reflexivity.
  - left. exact H.
Defined.

Lemma first_hit_decides_witness :
  let r := new_columns (Some "Luton, Bedfordshire") in
  let parts := ["Luton"; "Bedfordshire"] in
  scan_results exact_ratio exact_ratio "Luton" parts
    ([Some entry_leeds] ++ Some entry_luton :: []) r = inr row_luton /\
  scan_results exact_ratio exact_ratio "Luton" parts
    ([Some entry_leeds] ++ Some entry_luton :: [None; Some entry_croydon]) r =
  scan_results exact_ratio exact_ratio "Luton" parts
    ([Some entry_leeds] ++ Some entry_luton :: []) r.
Proof.
  apply (first_hit_decides exact_ratio exact_ratio "Luton" ["Luton"; "Bedfordshire"]
           [Some entry_leeds] (Some entry_luton) [] [None; Some entry_croydon]
           (new_columns (Some "Luton, Bedfordshire")) row_luton).
  - vm_compute. reflexivity.
  - simpl. discriminate.
  - vm_compute. reflexivity.
Defined.

Lemma london_suffix_overrides_entry_witness :
  (parse_row exact_ratio exact_ratio api_sample
     (new_columns (Some "Croydon, London"))).1 =
    inr {| location := Some "Croydon, London";
           api_citytownvilham := Some "Croydon"; api_region := Some "London";
           api_country := Some "England"; uk := false; remote := false |}.
Proof.
  apply (london_suffix_overrides_entry exact_ratio exact_ratio api_sample
           (new_columns (Some "Croydon, London")) "Croydon, London"
           {| results := Some [Some entry_leeds; Some entry_croydon;
                               Some entry_luton] |}
           [Some entry_leeds] entry_croydon [Some entry_luton]).
  - reflexivity.
  - vm_compute. reflexivity.
  - vm_compute. reflexivity.
  - simpl. discriminate.
  - reflexivity.
  - reflexivity.
  - reflexivity.
  - vm_compute. reflexivity.
  - exists "Croydon". vm_compute. reflexivity.
  - vm_compute. reflexivity.
Defined.

Lemma london_rule_overrides_northern_ireland_witness :
  parse_row exact_ratio exact_ratio api_sample
    (new_columns (Some "London, Northern Ireland")) =
    (inr {| location := Some "London, Northern Ireland";
            api_citytownvilham := Some "London"; api_region := Some "London";
            api_country := Some "England"; uk := false; remote := false |}, []).
Proof.
  apply (london_rule_overrides_northern_ireland exact_ratio exact_ratio api_sample
           (new_columns (Some "London, Northern Ireland"))
           "London, Northern Ireland").
  - reflexivity.
  - change (hd EmptyString (split "London, Northern Ireland")) with "London".
    apply elem_of_cons. by left.
Defined.

End Locations.
